(** * CogniScript server: retrieval, context assembly and chat persistence

    A shallow embedding of the Python modules
    [utils/llm_context_utils.py], [utils/doc_workflow.py],
    [utils/chroma_utils.py] and [utils/chat_utils.py], together with the
    properties of the document-to-retrieval pipeline that the design
    document states about them.

    Conventions of the embedding:
    - a Python [str] is a Rocq [string]: a sequence of characters with
      code points below 256, on which white space and case folding are
      those of Python's [str.isspace] and [str.lower];
    - a Python [int] is a [Z]; [//] is [Z.div] (both round towards minus
      infinity);
    - a [Dict[str, Any]] whose values are scalars is a [gmap string pyval];
    - a [try: ... except Exception] block is a computation in the error
      monad [exc], whose handler is the [match] that consumes it;
    - MongoDB and ChromaDB are explicit stores threaded through the
      functions that touch them;
    - the type of the numbers of an embedding and of a distance is a
      parameter; where their arithmetic matters it is [float], the
      binary64 numbers of a Python [float]. *)

From Stdlib Require Import ZArith String Ascii List Lia Bool Floats.
From stdpp Require Import base option list gmap strings pretty sorting.

Local Open Scope string_scope.
Local Open Scope Z_scope.

(* ===================================================================== *)
(** ** Python values, strings and exceptions *)
(* ===================================================================== *)

Module Py.

(** Scalar values that occur as dictionary values. *)
Inductive pyval : Type :=
| PyStr (s : string)
| PyInt (z : Z)
| PyNone.

#[global] Instance pyval_eq_dec : EqDecision pyval.
Proof. solve_decision. Defined.

(** Truthiness, as used by [if v], [a and b], [a or b]. *)
Definition truthy (v : pyval) : bool :=
  match v with
  | PyStr s => negb (String.eqb s "")
  | PyInt z => negb (z =? 0)
  | PyNone => false
  end.

(** [a or b] *)
Definition py_or (a b : pyval) : pyval := if truthy a then a else b.

(** [str(v)], as interpolated by an f-string. *)
Definition py_str (v : pyval) : string :=
  match v with
  | PyStr s => s
  | PyInt z => pretty z
  | PyNone => "None"
  end.

(** The result of a block that may raise: [Raise msg] carries [str(e)]. *)
Inductive exc (A : Type) : Type :=
| Ok (a : A)
| Raise (msg : string).
Arguments Ok {A} a.
Arguments Raise {A} msg.

#[global] Instance exc_ret : MRet exc := fun A a => Ok a.
#[global] Instance exc_bind : MBind exc := fun A B f m =>
  match m with
  | Ok a => f a
  | Raise e => Raise e
  end.

(** A string method or [len] applied to a value: raises unless the value
    is a [str]. *)
Definition as_str (v : pyval) : exc string :=
  match v with
  | PyStr s => Ok s
  | PyInt _ => Raise "'int' object is not a str"
  | PyNone => Raise "'NoneType' object is not a str"
  end.

(** [d.get(k, dflt)] *)
Definition dict_get (d : gmap string pyval) (k : string) (dflt : pyval) : pyval :=
  default dflt (d !! k).

(** [c.isspace()] for a character with code point below 256: the
    controls 9 to 13 and 28 to 31, the space, the next-line control
    (133) and the no-break space (160).  [strip] and [split] use the
    same set. *)
Definition isspace (c : ascii) : bool :=
  let n := nat_of_ascii c in
  (Nat.leb 9 n && Nat.leb n 13) || (Nat.leb 28 n && Nat.leb n 32)
  || Nat.eqb n 133 || Nat.eqb n 160.

(** [c.lower()] for a character with code point below 256: the letters
    [A] to [Z] and the accented capitals 192 to 222, the multiplication
    sign (215) excepted, move up by 32; the result is again below 256. *)
Definition lower_char (c : ascii) : ascii :=
  let n := nat_of_ascii c in
  if (Nat.leb 65 n && Nat.leb n 90)
     || (Nat.leb 192 n && Nat.leb n 222 && negb (Nat.eqb n 215))
  then ascii_of_nat (n + 32) else c.

(** [s.lower()] *)
Fixpoint lower (s : string) : string :=
  match s with
  | "" => ""
  | String c s' => String (lower_char c) (lower s')
  end.

(** [s.replace(old, new)] for one-character [old] and [new]. *)
Fixpoint replace (old new : ascii) (s : string) : string :=
  match s with
  | "" => ""
  | String c s' => String (if Ascii.eqb c old then new else c) (replace old new s')
  end.

(** [s.lstrip()] *)
Fixpoint lstrip (s : string) : string :=
  match s with
  | "" => ""
  | String c s' => if isspace c then lstrip s' else s
  end.

(** [s.rstrip()]: a character is dropped when it is white and everything
    after it has been dropped. *)
Fixpoint rstrip (s : string) : string :=
  match s with
  | "" => ""
  | String c s' =>
      match rstrip s' with
      | "" => if isspace c then "" else String c ""
      | r => String c r
      end
  end.

(** [s.strip()] *)
Definition strip (s : string) : string := rstrip (lstrip s).

(** Every character of [s] is white (true of the empty string). *)
Fixpoint blank (s : string) : bool :=
  match s with
  | "" => true
  | String c s' => isspace c && blank s'
  end.

(** [s.split()]: maximal runs of non-white characters. *)
Fixpoint split (s : string) : list string :=
  match s with
  | "" => []
  | String c s' =>
      if isspace c then split s'
      else match s' with
           | "" => [String c ""]
           | String c' _ =>
               if isspace c' then String c "" :: split s'
               else match split s' with
                    | w :: ws => String c w :: ws
                    | [] => [String c ""]
                    end
           end
  end.

(** [needle in hay] *)
Fixpoint contains (needle hay : string) : bool :=
  String.prefix needle hay ||
  match hay with
  | "" => false
  | String _ hay' => contains needle hay'
  end.

(** [sep.join(l)] *)
Fixpoint join (sep : string) (l : list string) : string :=
  match l with
  | [] => ""
  | [x] => x
  | x :: l' => x +:+ sep +:+ join sep l'
  end.

(** [s[:n]] for [n >= 0] *)
Fixpoint str_take (n : nat) (s : string) : string :=
  match n, s with
  | S n', String c s' => String c (str_take n' s')
  | _, _ => ""
  end.

(** [len(s)] *)
Definition len (s : string) : Z := Z.of_nat (String.length s).

(** [l[:n]] for a literal [n >= 0], and [l[-n:]] for a literal [n > 0]. *)
Definition slice_to {A} (n : nat) (l : list A) : list A := take n l.
Definition slice_last {A} (n : nat) (l : list A) : list A :=
  drop (length l - n)%nat l.

(** [l[i:]] for an arbitrary integer [i]: a negative index counts from
    the end, and the start is clamped to the list. *)
Definition slice_from {A} (i : Z) (l : list A) : list A :=
  let n := Z.of_nat (length l) in
  let start := if i <? 0 then Z.max 0 (n + i) else Z.min i n in
  drop (Z.to_nat start) l.

End Py.
Import Py.


(* ===================================================================== *)
(** ** utils/llm_context_utils.py : LLMContextFormatter *)
(* ===================================================================== *)

Module LLMContextFormatter.

(** One element of [relevant_chunks]: the keys the formatter reads, each
    possibly absent. *)
Record chunk_dict : Type := {
  c_chunk_id : option pyval;
  c_text : option pyval;
  c_metadata : option (gmap string pyval)
}.

(** The dictionary handed to [format_rag_context]: [success] is the
    truthiness of [chroma_results.get('success')], [relevant_chunks] is
    [None] when the key is absent. *)
Record chroma_results : Type := {
  success : bool;
  relevant_chunks : option (list chunk_dict)
}.

(** Body of the [for chunk in relevant_chunks] loop: the item appended to
    [context], if any. *)
Definition format_chunk (chunk : chunk_dict) : exc (option (gmap string pyval)) :=
  t ← as_str (default (PyStr "") (c_text chunk));
  let text := strip t in
  if truthy (PyStr text) then
    let metadata := default ∅ (c_metadata chunk) in
    let document_name :=
      py_or (dict_get metadata "document_name" PyNone)
        (py_or (dict_get metadata "filename" PyNone)
           (py_or (dict_get metadata "source" PyNone)
              (py_or (dict_get metadata "document" PyNone)
                 (PyStr ("Document_Chunk_" +:+
                         py_str (default (PyStr "unknown") (c_chunk_id chunk))))))) in
    mret (Some ({[ "document" := document_name; "text" := PyStr text ]} : gmap string pyval))
  else mret None.

Fixpoint format_chunks (chunks : list chunk_dict) (context : list (gmap string pyval))
  : exc (list (gmap string pyval)) :=
  match chunks with
  | [] => mret context
  | chunk :: chunks' =>
      o ← format_chunk chunk;
      format_chunks chunks' (match o with Some item => context ++ [item] | None => context end)
  end.

(** The [try] block of [format_rag_context]; [None] stands for a missing
    (falsy) argument. *)
Definition format_rag_context_try (results : option chroma_results)
  : exc (list (gmap string pyval)) :=
  match results with
  | None => mret []
  | Some r =>
      if negb (success r) then mret []
      else format_chunks (default [] (relevant_chunks r)) []
  end.

Definition format_rag_context (results : option chroma_results) : list (gmap string pyval) :=
  match format_rag_context_try results with
  | Ok context => context
  | Raise _ => []
  end.

(** Body of the loop of [format_chat_history]: the messages appended for
    one entry. *)
Definition format_entry (entry : gmap string pyval) : exc (list (gmap string pyval)) :=
  u ← as_str (dict_get entry "user" (PyStr ""));
  let user_content := strip u in
  a ← as_str (dict_get entry "assistant" (PyStr ""));
  let assistant_content := strip a in
  if truthy (PyStr user_content) && truthy (PyStr assistant_content) then
    mret [ ({[ "role" := PyStr "user"; "content" := PyStr user_content ]} : gmap string pyval);
           ({[ "role" := PyStr "assistant"; "content" := PyStr assistant_content ]} : gmap string pyval) ]
  else mret [].

Fixpoint format_entries (entries : list (gmap string pyval))
    (formatted_history : list (gmap string pyval)) : exc (list (gmap string pyval)) :=
  match entries with
  | [] => mret formatted_history
  | entry :: entries' =>
      msgs ← format_entry entry;
      format_entries entries' (formatted_history ++ msgs)
  end.

(** [conversation_history[-max_entries:] if len(conversation_history) >
    max_entries else conversation_history] *)
Definition recent_history (conversation_history : list (gmap string pyval))
    (max_entries : Z) : list (gmap string pyval) :=
  if max_entries <? Z.of_nat (length conversation_history)
  then slice_from (- max_entries) conversation_history
  else conversation_history.

Definition format_chat_history_try (conversation_history : list (gmap string pyval))
    (max_entries : Z) : exc (list (gmap string pyval)) :=
  match conversation_history with
  | [] => mret []
  | _ => format_entries (recent_history conversation_history max_entries) []
  end.

Definition format_chat_history (conversation_history : list (gmap string pyval))
    (max_entries : Z) : list (gmap string pyval) :=
  match format_chat_history_try conversation_history max_entries with
  | Ok formatted_history => formatted_history
  | Raise _ => []
  end.

(** The test of [extract_citations_from_context]:
    [document.lower() in assistant_response.lower() or
     any(word in assistant_response.lower()
         for word in text.lower().split()[:10])],
    evaluated left to right with short-circuiting. *)
Definition referenced (document text : pyval) (assistant_response : string) : exc bool :=
  d ← as_str document;
  if contains (lower d) (lower assistant_response) then mret true
  else
    t ← as_str text;
    mret (existsb (fun word => contains word (lower assistant_response))
            (slice_to 10 (split (lower t)))).

(** Body of the loop over [enumerate(rag_context)]. *)
Definition cite_item (i : nat) (context_item : gmap string pyval)
    (assistant_response : string) : exc (option (gmap string pyval)) :=
  let document := dict_get context_item "document" (PyStr "") in
  let text := dict_get context_item "text" (PyStr "") in
  if truthy document && truthy text then
    hit ← referenced document text assistant_response;
    if (hit : bool) then
      t ← as_str text;
      mret (Some ({[ "citationId" := PyStr ("auto_citation_" +:+ pretty i);
                     "source" := document;
                     "text" := PyStr (if 200 <? len t then str_take 200 t +:+ "..." else t);
                     "page" := PyNone;
                     "link" := PyNone ]} : gmap string pyval))
    else mret None
  else mret None.

Fixpoint cite_items (i : nat) (rag_context : list (gmap string pyval))
    (assistant_response : string) (citations : list (gmap string pyval))
  : exc (list (gmap string pyval)) :=
  match rag_context with
  | [] => mret citations
  | context_item :: rest =>
      o ← cite_item i context_item assistant_response;
      cite_items (S i) rest assistant_response
        (match o with Some c => citations ++ [c] | None => citations end)
  end.

Definition extract_citations_from_context (rag_context : list (gmap string pyval))
    (assistant_response : string) : list (gmap string pyval) :=
  match cite_items 0 rag_context assistant_response [] with
  | Ok citations => citations
  | Raise _ => []
  end.

(** [len(text) // 4] *)
Definition estimate_token_count (text : string) : Z := len text / 4.

(** [" ".join([d.get(key, "") for d in l])]; [join] raises on an element
    that is not a [str]. *)
Fixpoint texts_of (key : string) (l : list (gmap string pyval)) : exc (list string) :=
  match l with
  | [] => mret []
  | d :: l' =>
      t ← as_str (dict_get d key (PyStr ""));
      ts ← texts_of key l';
      mret (t :: ts)
  end.

Definition joined_text (key : string) (l : list (gmap string pyval)) : exc string :=
  ts ← texts_of key l; mret (join " " ts).

(** The first loop of [truncate_context_if_needed]; returning the
    accumulator is the [break]. *)
Fixpoint keep_context (rag_context : list (gmap string pyval)) (max_context_tokens : Z)
    (truncated_context : list (gmap string pyval)) (current_context_tokens : Z)
  : exc (list (gmap string pyval)) :=
  match rag_context with
  | [] => mret truncated_context
  | item :: rest =>
      t ← as_str (dict_get item "text" (PyStr ""));
      let item_tokens := estimate_token_count t in
      if current_context_tokens + item_tokens <=? max_context_tokens
      then keep_context rest max_context_tokens (truncated_context ++ [item])
             (current_context_tokens + item_tokens)
      else mret truncated_context
  end.

(** The second loop, over [reversed(chat_history)]; [insert(0, msg)]
    conses. *)
Fixpoint keep_history (reversed_history : list (gmap string pyval)) (max_history_tokens : Z)
    (truncated_history : list (gmap string pyval)) (current_history_tokens : Z)
  : exc (list (gmap string pyval)) :=
  match reversed_history with
  | [] => mret truncated_history
  | msg :: rest =>
      t ← as_str (dict_get msg "content" (PyStr ""));
      let msg_tokens := estimate_token_count t in
      if current_history_tokens + msg_tokens <=? max_history_tokens
      then keep_history rest max_history_tokens (msg :: truncated_history)
             (current_history_tokens + msg_tokens)
      else mret truncated_history
  end.

Definition truncate_context_try (rag_context chat_history : list (gmap string pyval))
    (max_tokens : Z) : exc (list (gmap string pyval) * list (gmap string pyval)) :=
  context_text ← joined_text "text" rag_context;
  history_text ← joined_text "content" chat_history;
  let context_tokens := estimate_token_count context_text in
  let history_tokens := estimate_token_count history_text in
  let total_tokens := context_tokens + history_tokens in
  if total_tokens <=? max_tokens then mret (rag_context, chat_history)
  else
    let max_context_tokens := max_tokens / 2 in
    let max_history_tokens := max_tokens / 2 in
    truncated_context ← keep_context rag_context max_context_tokens [] 0;
    truncated_history ← keep_history (rev chat_history) max_history_tokens [] 0;
    mret (truncated_context, truncated_history).

Definition truncate_context_if_needed (rag_context chat_history : list (gmap string pyval))
    (max_tokens : Z) : list (gmap string pyval) * list (gmap string pyval) :=
  match truncate_context_try rag_context chat_history max_tokens with
  | Ok r => r
  | Raise _ => (slice_to 5 rag_context, slice_last 5 chat_history)
  end.

End LLMContextFormatter.

(* ===================================================================== *)
(** ** utils/doc_workflow.py : DocProcessor *)
(* ===================================================================== *)

Module DocProcessor.

(** What the processor obtains from libraries and remote services.  [F]
    is the type of floating-point numbers; an embedding is a [list F].
    - [page_texts_of path]: [page.get_text()] for each page of
      [fitz.open(path)], in order;
    - [re_clean]: the four [re.sub] rewritings of [clean_text];
    - [split_text]: the token-based [RecursiveCharacterTextSplitter];
    - [embed_documents], [embed_query]: the embedding endpoint;
    - [basename]: [os.path.basename]. *)
Record services (F : Type) : Type := {
  page_texts_of : string → exc (list string);
  re_clean : string → string;
  split_text : string → list string;
  embed_documents : list string → exc (list (list F));
  embed_query : string → exc (list F);
  basename : string → string
}.
Arguments page_texts_of {F}.
Arguments re_clean {F}.
Arguments split_text {F}.
Arguments embed_documents {F}.
Arguments embed_query {F}.
Arguments basename {F}.

Record page_text : Type := { pt_text : string; pt_page_no : nat }.

Record chunk : Type := {
  ch_text : string;
  ch_page_no : nat;
  ch_chunk_in_page : nat
}.

Record embedded_chunk (F : Type) : Type := {
  ec_chunk : chunk;
  ec_embedding : list F
}.
Arguments ec_chunk {F}.
Arguments ec_embedding {F}.

Record formatted_chunk (F : Type) : Type := {
  chunk_id : string;
  text : string;
  meta_doc_name : string;
  meta_pageNo : nat;
  embedding : list F
}.
Arguments chunk_id {F}.
Arguments text {F}.
Arguments meta_doc_name {F}.
Arguments meta_pageNo {F}.
Arguments embedding {F}.

Record processed_doc (F : Type) : Type := {
  docId : string;
  chunks : list (formatted_chunk F)
}.
Arguments docId {F}.
Arguments chunks {F}.

Section Processor.
Context {F : Type} (sv : services F).

(** [clean_text]: the rewritings followed by [strip]. *)
Definition clean_text (text : string) : string := strip (re_clean sv text).

(** The page loop of [extract_text_with_pages]; [page_num] counts every
    page, kept or not. *)
Fixpoint extract_pages (pages : list string) (page_num : nat) : list page_text :=
  match pages with
  | [] => []
  | text :: pages' =>
      let rest := extract_pages pages' (page_num + 1) in
      if truthy (PyStr (strip text))
      then {| pt_text := clean_text text; pt_page_no := page_num + 1 |} :: rest
      else rest
  end.

Definition extract_text_with_pages (pdf_path : string) : exc (list page_text) :=
  pages ← page_texts_of sv pdf_path;
  mret (extract_pages pages 0).

(** The inner loop of [chunk_text_with_metadata], over
    [enumerate(chunks)]. *)
Fixpoint page_chunks (page_no : nat) (chunk_idx : nat) (pieces : list string) : list chunk :=
  match pieces with
  | [] => []
  | piece :: pieces' =>
      let rest := page_chunks page_no (chunk_idx + 1) pieces' in
      if truthy (PyStr (strip piece))
      then {| ch_text := strip piece; ch_page_no := page_no;
              ch_chunk_in_page := chunk_idx + 1 |} :: rest
      else rest
  end.

Fixpoint chunk_text_with_metadata (page_texts : list page_text) : list chunk :=
  match page_texts with
  | [] => []
  | page_data :: rest =>
      page_chunks (pt_page_no page_data) 0 (split_text sv (pt_text page_data))
        ++ chunk_text_with_metadata rest
  end.

(** The fallback of [embed_chunks]: one [embed_query] per text. *)
Fixpoint embed_each (chunk_texts : list string) : exc (list (list F)) :=
  match chunk_texts with
  | [] => mret []
  | t :: ts =>
      e ← embed_query sv t;
      es ← embed_each ts;
      mret (e :: es)
  end.

(** [zip(chunks, embeddings)] stops at the shorter list. *)
Fixpoint zip_chunks (cs : list chunk) (embeddings : list (list F)) : list (embedded_chunk F) :=
  match cs, embeddings with
  | c :: cs', e :: es' => {| ec_chunk := c; ec_embedding := e |} :: zip_chunks cs' es'
  | _, _ => []
  end.

Definition embed_chunks (cs : list chunk) : exc (list (embedded_chunk F)) :=
  let chunk_texts := map ch_text cs in
  embeddings ← match embed_documents sv chunk_texts with
               | Ok es => mret es
               | Raise _ => embed_each chunk_texts
               end;
  mret (zip_chunks cs embeddings).

(** The loop over [enumerate(embedded_chunks)] of [process_pdf]. *)
Fixpoint format_chunks (doc_id doc_name : string) (chunk_idx : nat)
    (ecs : list (embedded_chunk F)) : list (formatted_chunk F) :=
  match ecs with
  | [] => []
  | c :: ecs' =>
      {| chunk_id := doc_id +:+ "_" +:+ pretty (chunk_idx + 1)%nat;
         text := ch_text (ec_chunk c);
         meta_doc_name := doc_name;
         meta_pageNo := ch_page_no (ec_chunk c);
         embedding := ec_embedding c |}
      :: format_chunks doc_id doc_name (chunk_idx + 1) ecs'
  end.

(** [process_pdf]; [doc_id] is the value of [str(uuid.uuid4())]. *)
Definition process_pdf (doc_id : string) (pdf_path : string) (doc_name : option string)
  : exc (processed_doc F) :=
  let doc_name := match doc_name with
                  | None => basename sv pdf_path
                  | Some n => n
                  end in
  page_texts ← extract_text_with_pages pdf_path;
  let cs := chunk_text_with_metadata page_texts in
  embedded_chunks ← embed_chunks cs;
  mret {| docId := doc_id;
          chunks := format_chunks doc_id doc_name 0 embedded_chunks |}.

End Processor.

End DocProcessor.

(* ===================================================================== *)
(** ** utils/chroma_utils.py : ChromaUtils *)
(* ===================================================================== *)

Module ChromaUtils.

(** One entry of a ChromaDB collection, stored under its id. *)
Record stored_chunk (F : Type) : Type := {
  sc_document : string;
  sc_embedding : list F;
  sc_metadata : gmap string pyval
}.
Arguments sc_document {F}.
Arguments sc_embedding {F}.
Arguments sc_metadata {F}.

Record collection (F : Type) : Type := {
  col_metadata : gmap string pyval;
  col_items : gmap string (stored_chunk F)
}.
Arguments col_metadata {F}.
Arguments col_items {F}.

(** [models/document.py : DocumentModel]; [tags] is always [[]] and
    [source] always ["user upload"] at the one place that builds it. *)
Record DocumentModel : Type := {
  dm_docId : string;
  dm_chat_id : string;
  dm_filename : string;
  dm_fileType : string;
  dm_fileSize : Z;
  dm_uploadDate : string;
  dm_pageCount : nat;
  dm_previewText : option string;
  dm_tags : list string;
  dm_source : string;
  dm_total_chunks : nat;
  dm_processing_model : string;
  dm_status : string;
  dm_chroma_collection : string;
  dm_chunk_ids : list string;
  dm_created_at : string;
  dm_updated_at : string
}.

(** The two stores: the collections of the persistent ChromaDB client by
    name, and the MongoDB [documents] collection as the list of inserted
    records with their [_id]. *)
Record world (F : Type) : Type := {
  chroma_client : gmap string (collection F);
  documents : list (string * DocumentModel)
}.
Arguments chroma_client {F}.
Arguments documents {F}.

(** The reply of [collection.query]: parallel arrays, one row per query
    embedding. *)
Record query_reply (F : Type) : Type := {
  qr_ids : list (list string);
  qr_documents : list (list string);
  qr_distances : list (list F);
  qr_metadatas : option (list (list (gmap string pyval)))
}.
Arguments qr_ids {F}.
Arguments qr_documents {F}.
Arguments qr_distances {F}.
Arguments qr_metadatas {F}.

(** Libraries and services used by [ChromaUtils]:
    - [doc_processor]: those of its [DocProcessor];
    - [embedder_query]: [self.embedder.embed_query];
    - [collection_query]: the nearest-neighbour search of ChromaDB;
    - [one_minus d]: the float [1 - d];
    - [valid_name]: the collection names ChromaDB accepts on creation;
    - [file_type]: [os.path.splitext(filename)[1].lower()]. *)
Record backends (F : Type) : Type := {
  doc_processor : DocProcessor.services F;
  embedder_query : string → exc (list F);
  collection_query : collection F → list F → Z → exc (query_reply F);
  one_minus : F → F;
  valid_name : string → bool;
  file_type : string → string
}.
Arguments doc_processor {F}.
Arguments embedder_query {F}.
Arguments collection_query {F}.
Arguments one_minus {F}.
Arguments valid_name {F}.
Arguments file_type {F}.

(** What [insert_one] answers: an acknowledged insert with its id, a
    result whose [inserted_id] is falsy, or an exception. *)
Inductive insert_outcome : Type :=
| Inserted (inserted_id : string)
| NoInsertedId
| InsertRaises (msg : string).

Inductive create_result : Type :=
| CreateOk (chat_id collection_name message : string) (created : bool)
| CreateFailed (chat_id error message : string).

Inductive upload_result : Type :=
| UploadOk (doc_id chat_id filename collection_name : string) (chunks_count : nat)
    (chunk_ids : list string) (mongodb_id message : string)
| UploadNoCollection (create : create_result)
| UploadNotStored (error message : string)
| UploadFailed (chat_id filename error message : string).

Record chunk_data (F : Type) : Type := {
  cd_chunk_id : string;
  cd_text : string;
  cd_similarity_score : F;
  cd_metadata : gmap string pyval;
  cd_relevance_rank : nat
}.
Arguments cd_chunk_id {F}.
Arguments cd_text {F}.
Arguments cd_similarity_score {F}.
Arguments cd_metadata {F}.
Arguments cd_relevance_rank {F}.

Inductive query_result (F : Type) : Type :=
| QueryOk (chat_id query : string) (results_count : nat)
    (relevant_chunks : list (chunk_data F)) (collection_name message : string)
| QueryFailed (chat_id query error message : string).
Arguments QueryOk {F}.
Arguments QueryFailed {F}.

Inductive delete_result : Type :=
| DeleteOk (chat_id collection_name : string) (mongodb_deleted_count : nat) (message : string)
| DeleteFailed (chat_id error message : string).

(** The ['success'] key of each result dictionary. *)
Definition create_success (r : create_result) : bool :=
  match r with CreateOk _ _ _ _ => true | CreateFailed _ _ _ => false end.
Definition upload_success (r : upload_result) : bool :=
  match r with
  | UploadOk _ _ _ _ _ _ _ _ => true
  | UploadNoCollection c => create_success c
  | _ => false
  end.
Definition query_success {F} (r : query_result F) : bool :=
  match r with QueryOk _ _ _ _ _ _ => true | QueryFailed _ _ _ _ => false end.
Definition delete_success (r : delete_result) : bool :=
  match r with DeleteOk _ _ _ _ => true | DeleteFailed _ _ _ => false end.

(** [f"{chat_id.replace('/', '_').replace('-', '_')}_docs"] *)
Definition collection_name_of (chat_id : string) : string :=
  replace "-" "_" (replace "/" "_" chat_id) +:+ "_docs".

(** [l[i]] *)
Definition index {A} (l : list A) (i : nat) : exc A :=
  match l !! i with
  | Some x => Ok x
  | None => Raise "list index out of range"
  end.

Section Operations.
Context {F : Type} (be : backends F).

(** [create_chat_vector_db].  [now] is the reading of
    [datetime.utcnow().isoformat()]; creation raises on a name that
    ChromaDB rejects. *)
Definition create_chat_vector_db (now : string) (w : world F) (chat_id : string)
  : world F * create_result :=
  let collection_name := collection_name_of chat_id in
  match chroma_client w !! collection_name with
  | Some _ =>
      (w, CreateOk chat_id collection_name "Collection already exists" false)
  | None =>
      if valid_name be collection_name then
        let created :=
          {| col_metadata := {[ "chat_id" := PyStr chat_id; "created_at" := PyStr now ]};
             col_items := ∅ |} in
        ({| chroma_client := <[collection_name := created]> (chroma_client w);
            documents := documents w |},
         CreateOk chat_id collection_name "Vector database created successfully" true)
      else
        (w, CreateFailed chat_id "Invalid collection name" "Failed to create vector database")
  end.

(** The entry stored for one chunk: its text, embedding and the
    metadata enriched with chat and document information. *)
Definition entry_of (now chat_id doc_id filename : string) (user_id : option string)
    (chunk : DocProcessor.formatted_chunk F) : string * stored_chunk F :=
  (DocProcessor.chunk_id chunk,
   {| sc_document := DocProcessor.text chunk;
      sc_embedding := DocProcessor.embedding chunk;
      sc_metadata :=
        <["user_id" := match user_id with Some u => PyStr u | None => PyNone end]>
          (<["upload_date" := PyStr now]>
             (<["filename" := PyStr filename]>
                (<["doc_id" := PyStr doc_id]>
                   (<["chat_id" := PyStr chat_id]>
                      ({[ "doc_name" := PyStr (DocProcessor.meta_doc_name chunk);
                          "pageNo" := PyInt (Z.of_nat (DocProcessor.meta_pageNo chunk)) ]}
                       : gmap string pyval))))) |}).

(** [collection.add]: raises on an empty batch; an id that is already
    present keeps its entry. *)
Definition collection_add (entries : list (string * stored_chunk F)) (c : collection F)
  : exc (collection F) :=
  match entries with
  | [] => Raise "Expected IDs to be a non-empty list, got 0 IDs"
  | _ => Ok {| col_metadata := col_metadata c;
               col_items := col_items c ∪ list_to_map entries |}
  end.

(** [collection.delete(ids=ids)] *)
Definition collection_delete (ids : list string) (c : collection F) : collection F :=
  {| col_metadata := col_metadata c;
     col_items := foldr delete (col_items c) ids |}.

Definition set_collection (name : string) (c : collection F) (w : world F) : world F :=
  {| chroma_client := <[name := c]> (chroma_client w); documents := documents w |}.

(** The [DocumentModel] built by [upload_document]. *)
Definition document_model (now chat_id filename collection_name doc_id : string)
    (file_size : Z) (chunks : list (DocProcessor.formatted_chunk F)) (ids : list string)
  : DocumentModel :=
  {| dm_docId := doc_id;
     dm_chat_id := chat_id;
     dm_filename := filename;
     dm_fileType := file_type be filename;
     dm_fileSize := file_size;
     dm_uploadDate := now;
     dm_pageCount := size (list_to_set (map DocProcessor.meta_pageNo chunks) : gset nat);
     dm_previewText := match chunks with
                       | c :: _ => Some (str_take 200 (DocProcessor.text c) +:+ "...")
                       | [] => None
                       end;
     dm_tags := [];
     dm_source := "user upload";
     dm_total_chunks := length chunks;
     dm_processing_model := "sentence-transformers/all-MiniLM-L6-v2";
     dm_status := "processed";
     dm_chroma_collection := collection_name;
     dm_chunk_ids := ids;
     dm_created_at := now;
     dm_updated_at := now |}.

(** [upload_document], after the collection has been obtained.
    [collection] is the handle: every use reads the collection stored
    under [collection_name] at that moment. *)
Definition upload_into (reply : insert_outcome) (now : string) (file_size : Z)
    (doc_id : string) (w : world F) (chat_id temp_file_path filename : string)
    (user_id : option string) (collection_name : string) (collection : collection F)
  : world F * upload_result :=
  let failed e := UploadFailed chat_id filename e "Failed to upload and process document" in
  match DocProcessor.process_pdf (doc_processor be) doc_id temp_file_path (Some filename) with
  | Raise e => (w, failed e)
  | Ok processed_doc =>
      let doc_id := DocProcessor.docId processed_doc in
      let chunks := DocProcessor.chunks processed_doc in
      let ids := map DocProcessor.chunk_id chunks in
      let entries := map (entry_of now chat_id doc_id filename user_id) chunks in
      match collection_add entries collection with
      | Raise e => (w, failed e)
      | Ok added =>
          let w1 := set_collection collection_name added w in
          let document_model :=
            document_model now chat_id filename collection_name doc_id file_size chunks ids in
          match reply with
          | InsertRaises e => (w1, failed e)
          | Inserted inserted_id =>
              ({| chroma_client := chroma_client w1;
                  documents := documents w1 ++ [(inserted_id, document_model)] |},
               UploadOk doc_id chat_id filename collection_name (length chunks) ids
                 inserted_id "Document uploaded and processed successfully")
          | NoInsertedId =>
              (set_collection collection_name (collection_delete ids added) w1,
               UploadNotStored "Failed to store document metadata in MongoDB"
                 "Document processing failed")
          end
      end
  end.

(** [upload_document].  [reply] is what [insert_one] will answer,
    [file_size] the size of the temporary file (0 when it is gone) and
    [doc_id] the fresh [uuid4] drawn by [process_pdf]. *)
Definition upload_document (reply : insert_outcome) (now : string) (file_size : Z)
    (doc_id : string) (w : world F) (chat_id temp_file_path filename : string)
    (user_id : option string) : world F * upload_result :=
  let collection_name := collection_name_of chat_id in
  match chroma_client w !! collection_name with
  | Some collection =>
      upload_into reply now file_size doc_id w chat_id temp_file_path filename user_id
        collection_name collection
  | None =>
      let '(w0, create_result) := create_chat_vector_db now w chat_id in
      if negb (create_success create_result) then (w0, UploadNoCollection create_result)
      else
        match chroma_client w0 !! collection_name with
        | Some collection =>
            upload_into reply now file_size doc_id w0 chat_id temp_file_path filename
              user_id collection_name collection
        | None =>
            (w0, UploadFailed chat_id filename
                   ("Collection " +:+ collection_name +:+ " does not exist.")
                   "Failed to upload and process document")
        end
  end.

(** One iteration of the result loop of [query_chat_docs]. *)
Definition chunk_at (results : query_reply F) (i : nat) : exc (chunk_data F) :=
  ids0 ← index (qr_ids results) 0;
  id ← index ids0 i;
  documents0 ← index (qr_documents results) 0;
  document ← index documents0 i;
  distances0 ← index (qr_distances results) 0;
  distance ← index distances0 i;
  metadata ← match qr_metadatas results with
             | None | Some [] => mret ∅
             | Some metadatas => metadatas0 ← index metadatas 0; index metadatas0 i
             end;
  mret {| cd_chunk_id := id;
          cd_text := document;
          cd_similarity_score := one_minus be distance;
          cd_metadata := metadata;
          cd_relevance_rank := i + 1 |}.

Fixpoint chunks_at (results : query_reply F) (indices : list nat) : exc (list (chunk_data F)) :=
  match indices with
  | [] => mret []
  | i :: indices' =>
      chunk_data ← chunk_at results i;
      rest ← chunks_at results indices';
      mret (chunk_data :: rest)
  end.

(** [if results['ids'] and len(results['ids'][0]) > 0: for i in
    range(len(results['ids'][0])): ...] *)
Definition format_results (results : query_reply F) : exc (list (chunk_data F)) :=
  match qr_ids results with
  | [] => mret []
  | ids0 :: _ => chunks_at results (seq 0 (length ids0))
  end.

Definition query_chat_docs (w : world F) (chat_id query : string) (n_results : Z)
  : query_result F :=
  let collection_name := collection_name_of chat_id in
  match chroma_client w !! collection_name with
  | None =>
      QueryFailed chat_id query "Collection not found" "No documents found for this chat"
  | Some collection =>
      match (query_embedding ← embedder_query be query;
             results ← collection_query be collection query_embedding n_results;
             format_results results) with
      | Ok relevant_chunks =>
          QueryOk chat_id query (length relevant_chunks) relevant_chunks collection_name
            ("Found " +:+ pretty (length relevant_chunks) +:+ " relevant chunks")
      | Raise e => QueryFailed chat_id query e "Failed to query documents"
      end
  end.

(** [delete_chat_vector_db].  [mongo_fault] is the exception, if any,
    that MongoDB raises on [delete_many]; the inner handler reports
    every exception of its block as a missing collection. *)
Definition delete_chat_vector_db (mongo_fault : option string) (w : world F)
    (chat_id : string) : world F * delete_result :=
  let collection_name := collection_name_of chat_id in
  let not_found :=
    DeleteFailed chat_id "Collection not found" "No vector database found for this chat" in
  match chroma_client w !! collection_name with
  | None => (w, not_found)
  | Some _ =>
      let w1 := {| chroma_client := delete collection_name (chroma_client w);
                   documents := documents w |} in
      match mongo_fault with
      | Some _ => (w1, not_found)
      | None =>
          let matches (d : string * DocumentModel) :=
            bool_decide (dm_chat_id d.2 = chat_id) in
          ({| chroma_client := chroma_client w1;
              documents := List.filter (fun d => negb (matches d)) (documents w1) |},
           DeleteOk chat_id collection_name
             (length (List.filter matches (documents w1)))
             "Vector database and documents deleted successfully")
      end
  end.

End Operations.

End ChromaUtils.

(* ===================================================================== *)
(** ** services/langchain_chatbot_service.py : retrieval step *)
(* ===================================================================== *)

Module LangChainChatbotService.
Import ChromaUtils LLMContextFormatter.

(** The keys of a [query_chat_docs] result that [format_rag_context]
    reads.  A failure dictionary has no ['relevant_chunks'] key. *)
Definition chunk_view {F} (c : chunk_data F) : chunk_dict :=
  {| c_chunk_id := Some (PyStr (cd_chunk_id c));
     c_text := Some (PyStr (cd_text c));
     c_metadata := Some (cd_metadata c) |}.

Definition results_view {F} (r : query_result F) : chroma_results :=
  match r with
  | QueryOk _ _ _ relevant_chunks _ _ =>
      {| success := true; relevant_chunks := Some (map chunk_view relevant_chunks) |}
  | QueryFailed _ _ _ _ =>
      {| success := false; relevant_chunks := None |}
  end.

(** [_retrieve_relevant_context]: the result of [query_chat_docs] is
    returned as it is; [query_chat_docs] handles its own exceptions, so
    the handler of this method is never entered. *)
Definition _retrieve_relevant_context {F} (be : backends F) (max_rag_results : Z)
    (w : world F) (chat_id query : string) : chroma_results :=
  results_view (query_chat_docs be w chat_id query max_rag_results).

End LangChainChatbotService.

(* ===================================================================== *)
(** ** utils/chat_utils.py : ChatUtils *)
(* ===================================================================== *)

Module ChatUtils.

(** [models/citation.py] *)
Record CitationModel : Type := {
  citationId : string;
  source : string;
  text : string;
  page : option Z;
  link : option string
}.

(** [models/document.py : UploadModel], by the fields that identify it. *)
Record UploadModel : Type := {
  up_docId : string;
  up_filename : string
}.

(** [models/chat.py] *)
Record ConversationEntry : Type := {
  timestamp : string;
  user : string;
  assistant : string;
  uploads : list UploadModel;
  citations : list CitationModel
}.

Record ChatModel : Type := {
  userId : string;
  title : option string;
  conversation_history : list ConversationEntry;
  created_at : option string;
  updated_at : option string;
  status : string
}.

#[global] Instance CitationModel_eq_dec : EqDecision CitationModel.
Proof. solve_decision. Defined.
#[global] Instance UploadModel_eq_dec : EqDecision UploadModel.
Proof. solve_decision. Defined.
#[global] Instance ConversationEntry_eq_dec : EqDecision ConversationEntry.
Proof. solve_decision. Defined.
#[global] Instance ChatModel_eq_dec : EqDecision ChatModel.
Proof. solve_decision. Defined.

Definition is_hex (c : ascii) : bool :=
  let n := nat_of_ascii c in
  (Nat.leb 48 n && Nat.leb n 57) || (Nat.leb 65 n && Nat.leb n 70)
  || (Nat.leb 97 n && Nat.leb n 102).

Fixpoint all_hex (s : string) : bool :=
  match s with
  | "" => true
  | String c s' => is_hex c && all_hex s'
  end.

(** [ObjectId(chat_id)]: 24 hexadecimal digits, else [InvalidId]; the
    id is the digits in lower case. *)
Definition ObjectId (s : string) : exc string :=
  if Nat.eqb (String.length s) 24 && all_hex s then Ok (lower s)
  else Raise ("'" +:+ s +:+ "' is not a valid ObjectId").

(** The MongoDB [chats] collection by [_id]. *)
Abbreviation chats := (gmap string ChatModel).

Section Operations.
(** [validate] is the construction of a [CitationModel] by pydantic
    from the id and the looked-up [source], [text], [page] and [link];
    [new_oid k] is the [k]-th value of [str(ObjectId())] drawn during
    the call. *)
Variable validate : string → pyval → pyval → pyval → pyval → exc CitationModel.
Variable new_oid : nat → string.

(** [add_prompt_to_chat] *)
Definition add_prompt_to_chat (now : string) (db : chats) (chat_id user_prompt : string)
  : chats * bool :=
  let conversation_entry :=
    {| timestamp := now; user := user_prompt; assistant := "";
       uploads := []; citations := [] |} in
  match ObjectId chat_id with
  | Raise _ => (db, false)
  | Ok oid =>
      match db !! oid with
      | None => (db, false)
      | Some chat_doc =>
          (<[oid := {| userId := userId chat_doc;
                       title := title chat_doc;
                       conversation_history :=
                         conversation_history chat_doc ++ [conversation_entry];
                       created_at := created_at chat_doc;
                       updated_at := Some now;
                       status := status chat_doc |}]> db, true)
      end
  end.

(** The citation loop of [add_assistant_response_to_chat]. *)
Fixpoint citation_models (k : nat) (cs : list (gmap string pyval)) : exc (list CitationModel) :=
  match cs with
  | [] => mret []
  | citation :: cs' =>
      citation_model ← validate (new_oid k)
                         (dict_get citation "source" (PyStr ""))
                         (dict_get citation "text" (PyStr ""))
                         (dict_get citation "page" PyNone)
                         (dict_get citation "link" PyNone);
      rest ← citation_models (S k) cs';
      mret (citation_model :: rest)
  end.

(** The [$set] of [update_one] on the entry at [last_index]. *)
Definition set_response (response : string) (cms : list CitationModel)
    (e : ConversationEntry) : ConversationEntry :=
  {| timestamp := timestamp e; user := user e; assistant := response;
     uploads := uploads e; citations := cms |}.

Definition updated_chat (now response : string) (cms : list CitationModel)
    (last_index : nat) (chat_doc : ChatModel) : ChatModel :=
  {| userId := userId chat_doc;
     title := title chat_doc;
     conversation_history :=
       alter (set_response response cms) last_index (conversation_history chat_doc);
     created_at := created_at chat_doc;
     updated_at := Some now;
     status := status chat_doc |}.

(** The [try] block of [add_assistant_response_to_chat]: the new
    collection and [modified_count > 0], or the early [return False]. *)
Definition add_assistant_response_try (now : string) (db : chats) (chat_id response : string)
    (cits : option (list (gmap string pyval))) : exc (chats * bool) :=
  cms ← match cits with
        | None | Some [] => mret []
        | Some cs => citation_models 0 cs
        end;
  oid ← ObjectId chat_id;
  match db !! oid with
  | None => mret (db, false)
  | Some chat_doc =>
      match conversation_history chat_doc with
      | [] => mret (db, false)
      | _ =>
          let last_index := (length (conversation_history chat_doc) - 1)%nat in
          let new_doc := updated_chat now response cms last_index chat_doc in
          if decide (new_doc = chat_doc) then mret (db, false)
          else mret (<[oid := new_doc]> db, true)
      end
  end.

Definition add_assistant_response_to_chat (now : string) (db : chats)
    (chat_id response : string) (cits : option (list (gmap string pyval))) : chats * bool :=
  match add_assistant_response_try now db chat_id response cits with
  | Ok r => r
  | Raise _ => (db, false)
  end.

End Operations.

End ChatUtils.

(* ===================================================================== *)
(** ** Vocabulary of the properties *)
(* ===================================================================== *)

Section ContextVocabulary.
Import LLMContextFormatter.

Definition chunk_text (c : chunk_dict) : pyval := default (PyStr "") (c_text c).

(** The text a chunk contributes to the context, if it contributes. *)
Definition kept_text (c : chunk_dict) : option string :=
  match chunk_text c with
  | PyStr t => if blank t then None else Some (strip t)
  | _ => None
  end.

Definition item_text (item : gmap string pyval) : option pyval := item !! "text".

Definition message (role content : string) : gmap string pyval :=
  {[ "role" := PyStr role; "content" := PyStr content ]}.

(** The two messages of a complete entry, nothing for an incomplete
    one. *)
Definition entry_pair (entry : gmap string pyval) : list (gmap string pyval) :=
  match dict_get entry "user" (PyStr ""), dict_get entry "assistant" (PyStr "") with
  | PyStr u, PyStr a =>
      if negb (blank u) && negb (blank a)
      then [message "user" (strip u); message "assistant" (strip a)]
      else []
  | _, _ => []
  end.

(** The pairs of any list of entries: alternating roles, no empty
    content, an even number of messages. *)
Inductive paired : list (gmap string pyval) → Prop :=
| paired_nil : paired []
| paired_cons u a msgs :
    u ≠ "" → a ≠ "" → paired msgs →
    paired (message "user" u :: message "assistant" a :: msgs).

(** [a] occurs in [b], ignoring case. *)
Definition occurs_in (a b : string) : Prop :=
  ∃ pre post, lower b = pre +:+ lower a +:+ post.

(** One of the first ten words of [text] occurs in [response], ignoring
    case. *)
Definition word_occurs_in (text response : string) : Prop :=
  ∃ word pre post, word ∈ take 10 (split (lower text)) ∧
                   lower response = pre +:+ word +:+ post.

(** The test as the design document words it ... *)
Definition cited_as_claimed (document text response : string) : Prop :=
  occurs_in document response ∨ word_occurs_in text response.

(** ... and as the code performs it. *)
Definition cited (document text response : string) : Prop :=
  document ≠ "" ∧ text ≠ "" ∧ cited_as_claimed document text response.

Definition citation_text (text : string) : string :=
  if 200 <? len text then str_take 200 text +:+ "..." else text.

Definition citation (i : nat) (document text : string) : gmap string pyval :=
  {[ "citationId" := PyStr ("auto_citation_" +:+ pretty i);
     "source" := PyStr document;
     "text" := PyStr (citation_text text);
     "page" := PyNone;
     "link" := PyNone ]}.

(** Both fields of the item are strings, as [format_rag_context]
    intends. *)
Definition typed_item (item : gmap string pyval) : Prop :=
  ∃ document text, dict_get item "document" (PyStr "") = PyStr document ∧
                   dict_get item "text" (PyStr "") = PyStr text.

(** The estimate of one item: [len(d.get(key, "")) // 4]. *)
Definition item_tokens (key : string) (d : gmap string pyval) : Z :=
  match dict_get d key (PyStr "") with
  | PyStr t => estimate_token_count t
  | _ => 0
  end.

Definition tokens_sum (key : string) (l : list (gmap string pyval)) : Z :=
  foldr (fun d acc => item_tokens key d + acc) 0 l.

(** The greedy selection in the words of the design document: keep
    items in the given order while the running total stays within the
    budget, stop at the first item that would exceed it. *)
Fixpoint greedy (key : string) (items : list (gmap string pyval)) (budget used : Z)
  : list (gmap string pyval) :=
  match items with
  | [] => []
  | d :: rest =>
      if used + item_tokens key d <=? budget
      then d :: greedy key rest budget (used + item_tokens key d)
      else []
  end.

(** The estimate of a whole list, as the function measures its inputs:
    the joined texts, separators included. *)
Definition joined_estimate (key : string) (l : list (gmap string pyval)) : Z :=
  match joined_text key l with
  | Ok t => estimate_token_count t
  | Raise _ => 0
  end.

Definition typed (key : string) (d : gmap string pyval) : Prop :=
  ∃ t, dict_get d key (PyStr "") = PyStr t.

End ContextVocabulary.

Section StoreVocabulary.
Import ChromaUtils ChatUtils.

(** The id contains neither of the two characters that are rewritten. *)
Fixpoint plain (chat_id : string) : bool :=
  match chat_id with
  | "" => true
  | String c s => negb (Ascii.eqb c "/") && negb (Ascii.eqb c "-") && plain s
  end.

Definition sanitized (chat_id : string) : string :=
  replace "-" "_" (replace "/" "_" chat_id).

(** [f"{doc_id}_{n}"] *)
Definition chunk_id_of (doc_id : string) (n : nat) : string :=
  doc_id +:+ "_" +:+ pretty n.

(** The entries of collection [name] in [w], none when it is absent. *)
Definition items_of {F : Type} (w : world F) (name : string)
  : gmap string (stored_chunk F) :=
  match chroma_client w !! name with
  | Some c => col_items c
  | None => ∅
  end.

(** The most recently appended entry of the chat, if the id is valid,
    the chat exists and its history is not empty. *)
Definition last_entry (db : chats) (chat_id : string) : option ConversationEntry :=
  match ObjectId chat_id with
  | Ok oid => chat_doc ← db !! oid; last (conversation_history chat_doc)
  | Raise _ => None
  end.

End StoreVocabulary.

(* ===================================================================== *)
(** ** Sample services and stores, for concrete evaluations *)
(* ===================================================================== *)

Module Sample.
Import DocProcessor ChromaUtils.

(** A three-page document whose second page has no text; the splitter
    cuts a page at its semicolons. *)
Fixpoint cut (cur s : string) : list string :=
  match s with
  | "" => [cur]
  | String c s' =>
      if Ascii.eqb c ";" then cur :: cut "" s' else cut (cur +:+ String c "") s'
  end.

Definition sv : services Z :=
  {| page_texts_of := fun _ => Ok ["alpha;beta"; "   "; "gamma"];
     re_clean := fun s => s;
     split_text := cut "";
     embed_documents := fun ts => Ok (map (fun _ => [0]) ts);
     embed_query := fun _ => Ok [0];
     basename := fun s => s |}.

Definition be : backends Z :=
  {| doc_processor := sv;
     embedder_query := fun _ => Ok [0];
     collection_query := fun _ _ _ =>
       Ok {| qr_ids := [[]]; qr_documents := [[]]; qr_distances := [[]];
             qr_metadatas := None |};
     one_minus := fun d => 1 - d;
     valid_name := fun _ => true;
     file_type := fun _ => ".pdf" |}.

Definition empty_world : world Z := {| chroma_client := ∅; documents := [] |}.

End Sample.

Section SampleRuns.
Import DocProcessor ChromaUtils ChatUtils.

(** A document record of [chat_id] with a single chunk. *)
Definition record (chat_id doc_id : string) : DocumentModel :=
  document_model Sample.be "2025-01-01T00:00:00" chat_id "a.pdf"
    (collection_name_of chat_id) doc_id 10 [] [doc_id +:+ "_1"].

(** A world with one collection and one document record for chat
    ["c1"], and a record of another chat. *)
Definition stocked_world : world Z :=
  {| chroma_client :=
       {[ collection_name_of "c1" := {| col_metadata := ∅; col_items := ∅ |} ]};
     documents := [("m1", record "c1" "d1"); ("m2", record "c2" "d2")] |}.

(** An upload of the sample document into a fresh chat; [reply] is what
    MongoDB answers to [insert_one]. *)
Definition sample_upload (reply : insert_outcome) : world Z * upload_result :=
  upload_document Sample.be reply "2025-01-01T00:00:00" 2048 "d0c" Sample.empty_world
    "c1" "/tmp/upload.pdf" "upload.pdf" (Some "u1").

Definition sample_validate (id : string) (src txt pg lnk : pyval) : exc CitationModel :=
  match src, txt with
  | PyStr s, PyStr t =>
      Ok {| citationId := id; source := s; text := t;
            page := match pg with PyInt z => Some z | _ => None end;
            link := match lnk with PyStr l => Some l | _ => None end |}
  | _, _ => Raise "validation error"
  end.

Definition sample_oid (k : nat) : string := "0123456789abcdef0123456" +:+ pretty k.

Definition entry (question answer : string) : ConversationEntry :=
  {| timestamp := "2025-01-01T00:00:00"; user := question; assistant := answer;
     uploads := []; citations := [] |}.

Definition sample_chats (history : list ConversationEntry) : chats :=
  {[ "64f1c0ffee0123456789abcd" :=
       {| userId := "u1"; title := Some "New Chat"; conversation_history := history;
          created_at := Some "2025-01-01T00:00:00";
          updated_at := Some "2025-01-01T00:00:00"; status := "active" |} ]}.

Definition respond (db : chats) (response : string) : chats * bool :=
  add_assistant_response_to_chat sample_validate sample_oid "2025-01-02T00:00:00" db
    "64F1C0FFEE0123456789ABCD" response None.

Definition histories (db : chats) : list (list (string * string)) :=
  (fun d => (fun e => (user e, assistant e)) <$> conversation_history d.2) <$> map_to_list db.

End SampleRuns.

(* ===================================================================== *)
(** ** utils/doc_utils.py : text cleaning *)
(* ===================================================================== *)

Module DocUtils.

(** The line feed, ["\n"] in Python. *)
Definition newline : ascii := "010"%char.

(** The character class [[.\-_]]. *)
Definition is_punct (c : ascii) : bool :=
  Ascii.eqb c "." || Ascii.eqb c "-" || Ascii.eqb c "_".

(** The character class [[\.\-_ ]]. *)
Definition is_rule (c : ascii) : bool := is_punct c || Ascii.eqb c " ".

(** [re.sub(r'\n[\.\-_ ]{5,}\n', '\n', text)], as a scan from the left.
    [pending] is [Some buf] after a line feed that may start a match,
    [buf] being the rule characters read since; neither has been written
    yet.  The class excludes the line feed, so a match at that line feed
    exists exactly when the maximal run [buf] has five characters or more
    and is followed by a line feed.  The closing line feed is consumed by
    the match: the scan resumes after it with nothing pending.  A line
    feed that ends a shorter run may start the next match. *)
Fixpoint drop_rules (pending : option string) (text : string) : string :=
  match text with
  | "" =>
      match pending with
      | Some buf => String newline buf
      | None => ""
      end
  | String c rest =>
      match pending with
      | None =>
          if Ascii.eqb c newline then drop_rules (Some "") rest
          else String c (drop_rules None rest)
      | Some buf =>
          if is_rule c then drop_rules (Some (buf +:+ String c "")) rest
          else if Ascii.eqb c newline then
            if Nat.leb 5 (String.length buf) then String newline (drop_rules None rest)
            else String newline buf +:+ drop_rules (Some "") rest
          else String newline buf +:+ String c (drop_rules None rest)
      end
  end.

(** How much of a run of [[.\-_]] has been read and not yet written. *)
Inductive run : Type :=
| Idle
| One (c : ascii)
| Many.

(** [re.sub(r'[.\-_]{2,}', ' ', text)]: a maximal run of two or more
    becomes one space, a single character is kept. *)
Fixpoint squeeze (st : run) (text : string) : string :=
  match text with
  | "" =>
      match st with
      | Idle => ""
      | One p => String p ""
      | Many => " "
      end
  | String c rest =>
      if is_punct c then
        squeeze (match st with Idle => One c | _ => Many end) rest
      else
        match st with
        | Idle => String c (squeeze Idle rest)
        | One p => String p (String c (squeeze Idle rest))
        | Many => String " " (String c (squeeze Idle rest))
        end
  end.

(** [re.sub(c + '+', c, text)] for a character [c]: of a run of [c] only
    the last one is written. *)
Fixpoint collapse (c : ascii) (text : string) : string :=
  match text with
  | "" => ""
  | String a rest =>
      match rest with
      | String b _ =>
          if Ascii.eqb a c && Ascii.eqb b c then collapse c rest
          else String a (collapse c rest)
      | "" => String a ""
      end
  end.

(** [clean_text]; [DocProcessor.clean_text] of [doc_workflow.py] has the
    same body. *)
Definition clean_text (text : string) : string :=
  let text := drop_rules None text in
  let text := squeeze Idle text in
  let text := collapse newline text in
  let text := collapse " " text in
  strip text.

End DocUtils.

(* ===================================================================== *)
(** ** utils/chroma_utils.py : collection statistics *)
(* ===================================================================== *)

Module ChromaInfo.
Import ChromaUtils.

(** One value of [doc_stats]. *)
Record doc_stat : Type := {
  ds_filename : pyval;
  ds_chunk_count : nat;
  ds_chunk_ids : list string
}.

Inductive info_result : Type :=
| InfoOk (chat_id collection_name : string) (total_chunks total_documents : nat)
    (documents : list (pyval * doc_stat)) (message : string)
| InfoFailed (chat_id error message : string).

(** The body of the loop of [get_chat_documents_info] on the dictionary
    [doc_stats], kept as the list of its items in insertion order: a new
    [doc_id] is entered with count 0 and no ids, then the count is
    incremented and the chunk id appended. *)
Fixpoint count_chunk (doc_id filename : pyval) (chunk_id : string)
    (doc_stats : list (pyval * doc_stat)) : list (pyval * doc_stat) :=
  match doc_stats with
  | [] =>
      [(doc_id, {| ds_filename := filename; ds_chunk_count := 1;
                   ds_chunk_ids := [chunk_id] |})]
  | (k, st) :: rest =>
      if decide (k = doc_id)
      then (k, {| ds_filename := ds_filename st;
                  ds_chunk_count := ds_chunk_count st + 1;
                  ds_chunk_ids := ds_chunk_ids st ++ [chunk_id] |}) :: rest
      else (k, st) :: count_chunk doc_id filename chunk_id rest
  end.

(** The loop over [enumerate(all_docs['metadatas'])]; an entry is the
    pair of [all_docs['ids'][i]] and what is stored under it. *)
Fixpoint group_chunks {F} (entries : list (string * stored_chunk F))
    (doc_stats : list (pyval * doc_stat)) : list (pyval * doc_stat) :=
  match entries with
  | [] => doc_stats
  | (chunk_id, e) :: rest =>
      group_chunks rest
        (count_chunk (dict_get (sc_metadata e) "doc_id" (PyStr "unknown"))
           (dict_get (sc_metadata e) "filename" (PyStr "unknown")) chunk_id doc_stats)
  end.

(** [get_chat_documents_info].  [get collection] is the answer of
    [collection.get()]: the entries of the collection, each as its id
    and what is stored under it, in the order in which ChromaDB returns
    them.  The store keeps no order, so the order is the answer's. *)
Definition get_chat_documents_info {F} (get : collection F → list (string * stored_chunk F))
    (w : world F) (chat_id : string) : info_result :=
  let collection_name := collection_name_of chat_id in
  match chroma_client w !! collection_name with
  | None => InfoFailed chat_id "Collection not found" "No documents found for this chat"
  | Some collection =>
      let all_docs := get collection in
      let total_chunks := length all_docs in
      let doc_stats := group_chunks all_docs [] in
      InfoOk chat_id collection_name total_chunks (length doc_stats) doc_stats
        ("Found " +:+ pretty (length doc_stats) +:+ " documents with " +:+
         pretty total_chunks +:+ " total chunks and their IDs")
  end.

(** [s.endswith(suffix)] *)
Fixpoint endswith (suffix s : string) : bool :=
  String.eqb s suffix ||
  match s with
  | "" => false
  | String _ s' => endswith suffix s'
  end.

(** [s.replace(old, new)] for a non-empty [old]: occurrences are replaced
    from the left, without overlap; [skip] counts the characters of the
    occurrence just replaced that are still to be passed over. *)
Fixpoint replace_from (old new : string) (skip : nat) (s : string) : string :=
  match s with
  | "" => ""
  | String c rest =>
      match skip with
      | S k => replace_from old new k rest
      | O =>
          if String.prefix old s
          then new +:+ replace_from old new (String.length old - 1) rest
          else String c (replace_from old new 0 rest)
      end
  end.

Definition str_replace (old new s : string) : string := replace_from old new 0 s.

(** [collection_name.replace('_docs', '').replace('_', '/')] *)
Definition chat_id_of (collection_name : string) : string :=
  replace "_" "/" (str_replace "_docs" "" collection_name).

Record chat_db_info : Type := {
  db_chat_id : string;
  db_collection_name : string;
  db_total_chunks : nat;
  db_total_documents : nat;
  db_created_at : pyval;
  db_status : string
}.

(** The entry of [get_all_chat_dbs] for one collection: [doc_ids] is the
    set of the truthy ['doc_id'] values. *)
Definition chat_db_info_of {F} (collection_name : string) (collection : collection F)
  : chat_db_info :=
  let collection_data := map_to_list (col_items collection) in
  let doc_ids :=
    remove_dups
      (List.filter truthy
         ((fun e => dict_get (sc_metadata e.2) "doc_id" PyNone) <$> collection_data)) in
  {| db_chat_id := chat_id_of collection_name;
     db_collection_name := collection_name;
     db_total_chunks := length collection_data;
     db_total_documents := length doc_ids;
     db_created_at := dict_get (col_metadata collection) "created_at" PyNone;
     db_status := "active" |}.

(** The loop of [get_all_chat_dbs] over [list_collections()]; a listed
    collection can always be read, so no entry has status ["error"]. *)
Fixpoint chat_dbs_of {F} (all_collections : list (string * collection F))
  : list chat_db_info :=
  match all_collections with
  | [] => []
  | (collection_name, collection) :: rest =>
      if endswith "_docs" collection_name
      then chat_db_info_of collection_name collection :: chat_dbs_of rest
      else chat_dbs_of rest
  end.

(** [get_all_chat_dbs]: ['total_chat_dbs'] and ['chat_dbs']. *)
Definition get_all_chat_dbs {F} (w : world F) : nat * list chat_db_info :=
  let chat_dbs := chat_dbs_of (map_to_list (chroma_client w)) in
  (length chat_dbs, chat_dbs).

End ChromaInfo.

(* ===================================================================== *)
(** ** utils/chat_utils.py : creating, reading and deleting chats *)
(* ===================================================================== *)

Module ChatStore.
Import ChatUtils.

(** [models/user.py : UserModel] *)
Record UserModel : Type := {
  email : string;
  user_type : string;
  user_chats : list string;
  user_created_at : option string;
  user_updated_at : option string
}.

(** The MongoDB collections [chats] and [users], by [_id]. *)
Record mongo : Type := {
  chats_of : gmap string ChatModel;
  users_of : gmap string UserModel
}.

(** [$push] of a chat id, and [$pull] of every occurrence of one, with
    the [$set] of [updated_at]. *)
Definition push_chat (now chat_id : string) (u : UserModel) : UserModel :=
  {| email := email u; user_type := user_type u;
     user_chats := user_chats u ++ [chat_id];
     user_created_at := user_created_at u; user_updated_at := Some now |}.

Definition pull_chat (now chat_id : string) (u : UserModel) : UserModel :=
  {| email := email u; user_type := user_type u;
     user_chats := List.filter (fun c => negb (String.eqb c chat_id)) (user_chats u);
     user_created_at := user_created_at u; user_updated_at := Some now |}.

(** [create_chat].  [reply] is the answer of [insert_one]; the chat is
    stored before the user is looked up, and stays stored when that
    lookup raises. *)
Definition create_chat (reply : ChromaUtils.insert_outcome) (now : string) (db : mongo)
    (user_id : string) (chat_title : option string) : mongo * option string :=
  let chat :=
    {| userId := user_id;
       title := Some (match chat_title with
                      | Some t => if String.eqb t "" then "New Chat" else t
                      | None => "New Chat"
                      end);
       conversation_history := [];
       created_at := Some now;
       updated_at := Some now;
       status := "active" |} in
  match reply with
  | ChromaUtils.InsertRaises _ => (db, None)
  | ChromaUtils.NoInsertedId => (db, None)
  | ChromaUtils.Inserted chat_id =>
      let db1 := {| chats_of := <[chat_id := chat]> (chats_of db);
                    users_of := users_of db |} in
      match ObjectId user_id with
      | Raise _ => (db1, None)
      | Ok uid =>
          ({| chats_of := chats_of db1;
              users_of := alter (push_chat now chat_id) uid (users_of db1) |},
           Some chat_id)
      end
  end.

(** [get_chat]: the chat with its [_id] as a string. *)
Definition get_chat (db : gmap string ChatModel) (chat_id : string)
  : option (string * ChatModel) :=
  match ObjectId chat_id with
  | Raise _ => None
  | Ok oid => chat ← db !! oid; Some (oid, chat)
  end.

(** [delete_chat]; an exception of the update of the user is ignored. *)
Definition delete_chat (now : string) (db : mongo) (chat_id : string) : mongo * bool :=
  match ObjectId chat_id with
  | Raise _ => (db, false)
  | Ok oid =>
      match chats_of db !! oid with
      | None => (db, false)
      | Some chat =>
          let user_id := userId chat in
          let db1 := {| chats_of := delete oid (chats_of db); users_of := users_of db |} in
          if truthy (PyStr user_id) then
            match ObjectId user_id with
            | Raise _ => (db1, true)
            | Ok uid =>
                ({| chats_of := chats_of db1;
                    users_of := alter (pull_chat now chat_id) uid (users_of db1) |}, true)
            end
          else (db1, true)
      end
  end.

End ChatStore.

(* ===================================================================== *)
(** ** services/langchain_chatbot_service.py : one conversational turn *)
(* ===================================================================== *)

Module ChatbotFlow.
Import ChromaUtils LLMContextFormatter LangChainChatbotService.

(** The separators of [_prepare_final_prompt].  The two that join the
    context are written ["\\n"] in the source: a backslash and an [n],
    not a line feed.  The template itself contains line feeds. *)
Definition backslash_n : string := String "\" "n".
Definition line_feed : string := String DocUtils.newline "".

(** One block of the context: [f"Document: {ctx.get('filename',
    'Unknown')}\\n{ctx.get('text', '')}"]. *)
Definition context_block (ctx : gmap string pyval) : string :=
  "Document: " +:+ py_str (dict_get ctx "filename" (PyStr "Unknown")) +:+ backslash_n +:+
  py_str (dict_get ctx "text" (PyStr "")).

(** [_prepare_final_prompt] *)
Definition _prepare_final_prompt (user_prompt : string) (rag_context : list (gmap string pyval))
  : string :=
  match rag_context with
  | [] => user_prompt
  | _ =>
      let context_text := join (backslash_n +:+ backslash_n) (context_block <$> rag_context) in
      "Context from uploaded documents:" +:+ line_feed +:+ context_text +:+
      line_feed +:+ line_feed +:+ "Question: " +:+ user_prompt
  end.

(** The language model side: [runnable] is the result of
    [_get_or_create_conversation] (it raises when no provider is
    configured), [invoke chat_id input] the content of the reply. *)
Record model : Type := {
  runnable : exc unit;
  invoke : string → string → exc string
}.

Definition apology_unavailable : string :=
  "I apologize, but I'm having trouble accessing my language model right now. Please try again later.".

Definition apology_error : string :=
  "I apologize, but I encountered an error while processing your request. Please try again.".

(** [_generate_langchain_response]: the reply, or the fallback text when
    the invocation raises. *)
Definition _generate_langchain_response (llm : model) (chat_id user_input : string) : string :=
  match invoke llm chat_id user_input with
  | Ok content => content
  | Raise _ => apology_unavailable
  end.

(** The keys of the final response that depend on the turn. *)
Record final_response : Type := {
  fr_chatId : string;
  fr_response : string;
  fr_citations : list (gmap string pyval);
  fr_contextUsed : nat
}.

Section Turn.
Context {F : Type} (be : backends F) (llm : model).
Variable validate : string → pyval → pyval → pyval → pyval → exc ChatUtils.CitationModel.
Variable new_oid : nat → string.
Variable max_rag_results : Z.

(** The [try] block of [process_chat_prompt].  [t1] and [t2] are the
    readings of the clock when the prompt and the reply are stored.  The
    state is returned with the outcome, since the prompt may have been
    stored before an exception is raised. *)
Definition process_chat_prompt_try (t1 t2 : string) (w : world F)
    (db : gmap string ChatUtils.ChatModel) (chat_id user_prompt : string)
    (user_id : option string) : gmap string ChatUtils.ChatModel * exc final_response :=
  match ChatStore.get_chat db chat_id with
  | None => (db, Raise ("Chat not found: " +:+ chat_id))
  | Some (_, chat) =>
      if match user_id with
         | Some u => truthy (PyStr u) && negb (String.eqb (ChatUtils.userId chat) u)
         | None => false
         end
      then (db, Raise "User ID does not match chat owner")
      else
        let db1 := (ChatUtils.add_prompt_to_chat t1 db chat_id user_prompt).1 in
        let rag_results := _retrieve_relevant_context be max_rag_results w chat_id user_prompt in
        let formatted_rag_context := format_rag_context (Some rag_results) in
        match runnable llm with
        | Raise e => (db1, Raise e)
        | Ok _ =>
            let final_prompt := _prepare_final_prompt user_prompt formatted_rag_context in
            let response := _generate_langchain_response llm chat_id final_prompt in
            let citations := extract_citations_from_context formatted_rag_context response in
            let db2 := (ChatUtils.add_assistant_response_to_chat validate new_oid t2 db1
                          chat_id response (Some citations)).1 in
            (db2, Ok {| fr_chatId := chat_id; fr_response := response;
                        fr_citations := citations;
                        fr_contextUsed := length formatted_rag_context |})
        end
  end.

(** [process_chat_prompt]: on an exception the handler stores the apology
    as the assistant reply of the chat and raises again. *)
Definition process_chat_prompt (t1 t2 : string) (w : world F)
    (db : gmap string ChatUtils.ChatModel) (chat_id user_prompt : string)
    (user_id : option string) : gmap string ChatUtils.ChatModel * exc final_response :=
  match process_chat_prompt_try t1 t2 w db chat_id user_prompt user_id with
  | (db', Ok r) => (db', Ok r)
  | (db', Raise e) =>
      ((ChatUtils.add_assistant_response_to_chat validate new_oid t2 db' chat_id
          apology_error (Some [])).1,
       Raise e)
  end.

End Turn.

End ChatbotFlow.

(* ===================================================================== *)
(** ** Vocabulary of the further properties *)
(* ===================================================================== *)

Section FurtherVocabulary.

(** No two neighbouring characters of [s] both satisfy [P]. *)
Fixpoint no_adjacent (P : ascii → bool) (s : string) : bool :=
  match s with
  | "" => true
  | String a rest =>
      match rest with
      | "" => true
      | String b _ => negb (P a && P b) && no_adjacent P rest
      end
  end.

(** The order of chunks in a document: by page, then by position in the
    page. *)
Definition chunk_before (c1 c2 : DocProcessor.chunk) : Prop :=
  (DocProcessor.ch_page_no c1 < DocProcessor.ch_page_no c2)%nat ∨
  (DocProcessor.ch_page_no c1 = DocProcessor.ch_page_no c2 ∧
   (DocProcessor.ch_chunk_in_page c1 < DocProcessor.ch_chunk_in_page c2)%nat).

(** The label of a chunk in the words of its purpose: the first of the
    metadata values [document_name], [filename], [source], [document]
    that is truthy, else a name made from the chunk id. *)
Definition label_candidates (c : LLMContextFormatter.chunk_dict) : list pyval :=
  let metadata := default ∅ (LLMContextFormatter.c_metadata c) in
  [ dict_get metadata "document_name" PyNone; dict_get metadata "filename" PyNone;
    dict_get metadata "source" PyNone; dict_get metadata "document" PyNone ].

Definition synthesized_label (c : LLMContextFormatter.chunk_dict) : pyval :=
  PyStr ("Document_Chunk_" +:+
         py_str (default (PyStr "unknown") (LLMContextFormatter.c_chunk_id c))).

Definition resolved_label (c : LLMContextFormatter.chunk_dict) : pyval :=
  default (synthesized_label c) (List.find truthy (label_candidates c)).

(** The citation id given to position [i] of the context. *)
Definition citation_id (i : nat) : pyval := PyStr ("auto_citation_" +:+ pretty i).

(** The ['doc_id'] under which [get_chat_documents_info] files an entry,
    the entries of a list filed under [k], and the statistics on record
    for [k]. *)
Definition doc_of {F} (e : string * ChromaUtils.stored_chunk F) : pyval :=
  dict_get (ChromaUtils.sc_metadata e.2) "doc_id" (PyStr "unknown").

Definition ids_for {F} (k : pyval) (seen : list (string * ChromaUtils.stored_chunk F))
  : list string :=
  (List.filter (fun e => bool_decide (doc_of e = k)) seen).*1.

Fixpoint find_stat (k : pyval) (doc_stats : list (pyval * ChromaInfo.doc_stat))
  : option ChromaInfo.doc_stat :=
  match doc_stats with
  | [] => None
  | (k', st) :: rest => if decide (k' = k) then Some st else find_stat k rest
  end.

(** The id contains none of ['_'], ['/'] and ['-']. *)
Fixpoint underscore_free (s : string) : bool :=
  match s with
  | "" => true
  | String c s' =>
      negb (Ascii.eqb c "_") && negb (Ascii.eqb c "/") && negb (Ascii.eqb c "-")
      && underscore_free s'
  end.

(** What the loop of [get_chat_documents_info] maintains: the entries
    read so far, grouped by ['doc_id']. *)
Definition grouped {F} (seen : list (string * ChromaUtils.stored_chunk F))
    (stats : list (pyval * ChromaInfo.doc_stat)) : Prop :=
  NoDup stats.*1 ∧
  sum_list (ChromaInfo.ds_chunk_count <$> stats.*2) = length seen ∧
  ∀ k, (fun st => (ChromaInfo.ds_chunk_count st, ChromaInfo.ds_chunk_ids st))
         <$> find_stat k stats
       = match ids_for k seen with
         | [] => None
         | ids => Some (length ids, ids)
         end.

(** The citation models that [add_assistant_response_to_chat] builds
    from its [citations] argument, or the exception of their
    validation. *)
Definition citation_models_of
    (validate : string → pyval → pyval → pyval → pyval → exc ChatUtils.CitationModel)
    (new_oid : nat → string) (cits : option (list (gmap string pyval)))
  : exc (list ChatUtils.CitationModel) :=
  match cits with
  | None | Some [] => mret []
  | Some cs => ChatUtils.citation_models validate new_oid 0 cs
  end.

End FurtherVocabulary.

Section FurtherSamples.
Import DocProcessor ChromaUtils ChatUtils ChatStore ChatbotFlow.

(** An index whose reply has two ids and one text. *)
Definition short_reply_backend : backends Z :=
  {| doc_processor := Sample.sv;
     embedder_query := fun _ => Ok [0];
     collection_query := fun _ _ _ =>
       Ok {| qr_ids := [["d0c_1"; "d0c_2"]]; qr_documents := [["alpha"]];
             qr_distances := [[1; 2]]; qr_metadatas := None |};
     one_minus := fun d => 1 - d;
     valid_name := fun _ => true;
     file_type := fun _ => ".pdf" |}.

(** An answer of [collection.get()] in the order of the upload. *)
Definition in_upload_order (col : collection Z) : list (string * stored_chunk Z) :=
  omap (fun id => (fun e => (id, e)) <$> col_items col !! id) ["d0c_1"; "d0c_2"; "d0c_3"].

(** An index over binary64 numbers whose reply has two ids with their
    texts and distances. *)
Definition float_services : services float :=
  {| page_texts_of := fun _ => Ok ["alpha;beta"];
     re_clean := fun s => s;
     split_text := Sample.cut "";
     embed_documents := fun ts => Ok (map (fun _ => [0%float]) ts);
     embed_query := fun _ => Ok [0%float];
     basename := fun s => s |}.

Definition float_backend : backends float :=
  {| doc_processor := float_services;
     embedder_query := fun _ => Ok [0%float];
     collection_query := fun _ _ _ =>
       Ok {| qr_ids := [["d0c_1"; "d0c_2"]]; qr_documents := [["alpha"; "beta"]];
             qr_distances := [[0.25%float; 0.5%float]]; qr_metadatas := None |};
     one_minus := fun d => (1 - d)%float;
     valid_name := fun _ => true;
     file_type := fun _ => ".pdf" |}.

Definition float_world : world float :=
  {| chroma_client :=
       {[ collection_name_of "c1" := {| col_metadata := ∅; col_items := ∅ |} ]};
     documents := [] |}.

(** A store with one user and no chat. *)
Definition sample_mongo : mongo :=
  {| chats_of := ∅;
     users_of :=
       {[ "64f1c0ffee0123456789abce" :=
            {| email := "a@example.org"; user_type := "student"; user_chats := [];
               user_created_at := None; user_updated_at := None |} ]} |}.

(** A model that answers with its input, and a service without a
    configured provider. *)
Definition echo_model : model :=
  {| runnable := Ok tt; invoke := fun _ input => Ok ("echo: " +:+ input) |}.

Definition unconfigured_model : model :=
  {| runnable := Raise "Unsupported LLM provider";
     invoke := fun _ _ => Raise "no model" |}.

(** One turn on the sample chat. *)
Definition sample_turn (llm : model) (history : list ConversationEntry)
    (user_id : option string) : chats * exc final_response :=
  process_chat_prompt Sample.be llm sample_validate sample_oid 7
    "2025-01-02T00:00:00" "2025-01-02T00:00:01" stocked_world (sample_chats history)
    "64f1c0ffee0123456789abcd" "what is alpha?" user_id.

End FurtherSamples.

(* ===================================================================== *)
(** * Properties *)
(* ===================================================================== *)

(** ** Strings *)

Section StringFacts.

Lemma blank_lstrip s : blank (lstrip s) = blank s.
Proof.
  induction s as [|c s IH]; simpl; [done|].
  destruct (isspace c) eqn:Hc; simpl; [done|]. by rewrite Hc.
Qed.

Lemma rstrip_empty s : rstrip s = "" ↔ blank s = true.
Proof.
  induction s as [|c s IH]; simpl; [done|].
  destruct (rstrip s) eqn:Hr.
  - destruct (isspace c); simpl; [tauto|]. split; done.
  - split; [done|]. intros [_ Hb]%andb_prop. apply IH in Hb. done.
Qed.

Lemma blank_rstrip s : blank (rstrip s) = blank s.
Proof.
  induction s as [|c s IH]; simpl; [done|].
  destruct (rstrip s) eqn:Hr.
  - assert (blank s = true) as -> by by apply rstrip_empty.
    destruct (isspace c) eqn:Hc; simpl; by rewrite ?Hc.
  - simpl in *. by rewrite IH.
Qed.

Lemma blank_strip s : blank (strip s) = blank s.
Proof. unfold strip. by rewrite blank_rstrip, blank_lstrip. Qed.

(** [s.strip()] is empty exactly when [s] is empty or all white. *)
Lemma strip_empty s : strip s = "" ↔ blank s = true.
Proof. unfold strip. rewrite rstrip_empty. by rewrite blank_lstrip. Qed.

Lemma truthy_strip s : truthy (PyStr (strip s)) = negb (blank s).
Proof.
  simpl. destruct (String.eqb_spec (strip s) "") as [E|E].
  - apply strip_empty in E. by rewrite E.
  - destruct (blank s) eqn:Hb; [|done]. apply strip_empty in Hb. done.
Qed.

Lemma truthy_str s : truthy (PyStr s) = true ↔ s ≠ "".
Proof. simpl. destruct (String.eqb_spec s ""); split; naive_solver. Qed.

Lemma app_cons c s t : String c s +:+ t = String c (s +:+ t).
Proof. reflexivity. Qed.

Lemma app_empty_l t : "" +:+ t = t.
Proof. reflexivity. Qed.

Lemma prefix_app n h : String.prefix n h = true ↔ ∃ post, h = n +:+ post.
Proof.
  revert h. induction n as [|c n IH]; intros h; simpl.
  - destruct h; split; eauto.
  - destruct h as [|c' h]; simpl; [split; [done|by intros [? ?]]|].
    destruct (ascii_dec c c') as [->|Hne].
    + rewrite IH. split; intros [post Hp]; exists post; rewrite app_cons in *; congruence.
    + split; [done|]. intros [post Hp]. rewrite app_cons in Hp. congruence.
Qed.

(** [needle in hay] holds exactly when [hay] is [needle] between two
    strings. *)
Lemma contains_substring n h :
  contains n h = true ↔ ∃ pre post, h = pre +:+ n +:+ post.
Proof.
  induction h as [|c h IH].
  - change (contains n "") with (String.prefix n "" || false).
    rewrite orb_false_r, prefix_app. split.
    + intros [post Hp]. by exists "", post.
    + intros (pre & post & Hp). destruct pre; [eauto|by rewrite app_cons in Hp].
  - change (contains n (String c h))
      with (String.prefix n (String c h) || contains n h).
    rewrite orb_true_iff, prefix_app, IH. split.
    + intros [[post Hp]|(pre & post & Hp)].
      * by exists "", post.
      * exists (String c pre), post. by rewrite app_cons, Hp.
    + intros (pre & post & Hp). destruct pre as [|c' pre].
      * left. eauto.
      * right. exists pre, post. rewrite app_cons in Hp. congruence.
Qed.

Lemma length_str_take n s : String.length (str_take n s) = Nat.min n (String.length s).
Proof.
  revert s. induction n as [|n IH]; intros [|c s]; simpl; try done. by rewrite IH.
Qed.

End StringFacts.

(** ** [format_rag_context] *)

Section FormatRagContext.
Import LLMContextFormatter.

Lemma format_chunk_inv chunk o :
  format_chunk chunk = Ok o →
  match o with
  | None => kept_text chunk = None
  | Some item => ∃ t, kept_text chunk = Some t ∧ item_text item = Some (PyStr t)
  end.
Proof.
  unfold format_chunk, kept_text, chunk_text.
  destruct (default (PyStr "") (c_text chunk)) as [t| |]; simpl; try done.
  fold (truthy (PyStr (strip t))). rewrite truthy_strip.
  destruct (blank t); simpl; intros [= <-]; [done|].
  exists (strip t). split; [done|]. unfold item_text.
  rewrite lookup_insert_ne by done. by rewrite lookup_singleton_eq.
Qed.

Lemma format_chunks_inv cs context out :
  format_chunks cs context = Ok out →
  ∃ new, out = (context ++ new)%list ∧
         item_text <$> new = (fun t => Some (PyStr t)) <$> omap kept_text cs.
Proof.
  revert context out. induction cs as [|c cs IH]; intros context out; simpl.
  - intros [= <-]. exists []. by rewrite app_nil_r.
  - destruct (format_chunk c) as [o|e] eqn:Hc; simpl; [|done].
    apply format_chunk_inv in Hc. intros (new & -> & Hnew)%IH.
    destruct o as [item|].
    + destruct Hc as (t & -> & Ht). exists (item :: new).
      split; [by rewrite <- app_assoc|]. rewrite fmap_cons, Ht, Hnew. done.
    + rewrite Hc. by exists new.
Qed.

Lemma format_chunks_typed cs context :
  Forall (fun c => ∃ t, chunk_text c = PyStr t) cs →
  ∃ out, format_chunks cs context = Ok out.
Proof.
  intros Hty. revert context. induction Hty as [|c cs [t Ht] _ IH]; intros context; simpl.
  - by eexists.
  - unfold format_chunk. fold (chunk_text c). rewrite Ht. simpl.
    destruct (negb (String.eqb (strip t) "")); simpl; apply IH.
Qed.

Lemma omap_kept_text_nonblank (cs : list chunk_dict) t :
  t ∈ omap kept_text cs → blank t = false.
Proof.
  rewrite list_elem_of_omap. intros (c & _ & Hk). unfold kept_text in Hk.
  destruct (chunk_text c) as [s| |]; try done.
  destruct (blank s) eqn:Hb; [done|]. injection Hk as <-. by rewrite blank_strip.
Qed.

Lemma format_rag_context_texts r :
  item_text <$> format_rag_context (Some r) = [] ∨
  item_text <$> format_rag_context (Some r)
    = (fun t => Some (PyStr t)) <$> omap kept_text (default [] (relevant_chunks r)).
Proof.
  unfold format_rag_context, format_rag_context_try.
  destruct (success r); simpl; [|by left].
  destruct (format_chunks _ _) as [out|e] eqn:Hf; [|by left].
  apply format_chunks_inv in Hf as (new & -> & Hnew). by right.
Qed.

(** When every chunk text is a string and the result is successful,
    nothing is lost: the context is exactly the non-blank chunks. *)
Lemma format_rag_context_typed r :
  Forall (fun c => ∃ t, chunk_text c = PyStr t) (default [] (relevant_chunks r)) →
  success r = true →
  item_text <$> format_rag_context (Some r)
    = (fun t => Some (PyStr t)) <$> omap kept_text (default [] (relevant_chunks r)).
Proof.
  intros Hty Hs. unfold format_rag_context, format_rag_context_try. rewrite Hs. simpl.
  destruct (format_chunks_typed _ [] Hty) as [out Hout]. rewrite Hout.
  by apply format_chunks_inv in Hout as (new & -> & Hnew).
Qed.

End FormatRagContext.

Section FormatRagContextClaim.
Import LLMContextFormatter ChromaUtils LangChainChatbotService.

(** C10.  [format_rag_context] returns the empty list for a missing
    argument and for a result that is not marked successful; no item of
    its output has an empty or all-white text, and the texts it emits
    are, in order, the stripped texts of the chunks that are not blank
    (blank chunks are left out), or nothing at all when formatting
    fails.  Hence a retrieval that failed reaches the prompt as the
    empty context. *)
Theorem format_rag_context_empty_on_failure {F} (be : backends F) (max_rag_results : Z)
    (w : world F) (chat_id query : string) (results : chroma_results) :
  format_rag_context None = [] ∧
  (success results = false → format_rag_context (Some results) = []) ∧
  (∀ item, item ∈ format_rag_context (Some results) →
     ∃ t, item !! "text" = Some (PyStr t) ∧ t ≠ "" ∧ blank t = false) ∧
  (item_text <$> format_rag_context (Some results) = [] ∨
   item_text <$> format_rag_context (Some results)
     = (fun t => Some (PyStr t)) <$> omap kept_text (default [] (relevant_chunks results))) ∧
  (query_success (query_chat_docs be w chat_id query max_rag_results) = false →
   format_rag_context
     (Some (_retrieve_relevant_context be max_rag_results w chat_id query)) = []).
Proof.
  split; [done|]. split; [|split; [|split]].
  - intros Hs. unfold format_rag_context, format_rag_context_try. by rewrite Hs.
  - intros item Hin.
    assert (item_text item ∈ item_text <$> format_rag_context (Some results)) as Ht
      by by apply list_elem_of_fmap_2.
    destruct (format_rag_context_texts results) as [E|E]; rewrite E in Ht.
    + by apply elem_of_nil in Ht.
    + apply list_elem_of_fmap in Ht as (t & Ht & Hk).
      apply omap_kept_text_nonblank in Hk. exists t. split; [done|].
      split; [|done]. by intros ->.
  - apply format_rag_context_texts.
  - unfold _retrieve_relevant_context.
    destruct (query_chat_docs be w chat_id query max_rag_results); [done|]. done.
Qed.

Lemma format_rag_context_empty_on_failure_witness :
  LLMContextFormatter.success {| success := false; relevant_chunks := None |} = false ∧
  query_success (query_chat_docs Sample.be Sample.empty_world "c1" "what?" 5) = false ∧
  format_rag_context (Some {| success := false; relevant_chunks := None |}) = [] ∧
  format_rag_context
    (Some (_retrieve_relevant_context Sample.be 5 Sample.empty_world "c1" "what?")) = [].
Proof.
  pose proof (format_rag_context_empty_on_failure Sample.be 5 Sample.empty_world "c1" "what?"
                {| success := false; relevant_chunks := None |})
    as (_ & Hfail & _ & _ & Hretr).
  split; [reflexivity|]. split; [reflexivity|].
  split; [apply Hfail; reflexivity|apply Hretr; reflexivity].
Defined.

(** The white space of [strip] includes the no-break space and the
    next-line control: a chunk of such characters only is left out, and
    they are trimmed from both ends of a text. *)
Lemma format_rag_context_no_break_space :
  format_rag_context
    (Some {| success := true;
             relevant_chunks :=
               Some [ {| c_chunk_id := Some (PyStr "d_1");
                         c_text := Some (PyStr (String (ascii_of_nat 160) ""));
                         c_metadata := None |};
                      {| c_chunk_id := Some (PyStr "d_2");
                         c_text := Some (PyStr (String (ascii_of_nat 160)
                                                  ("hi" +:+ String (ascii_of_nat 133) "")));
                         c_metadata := None |} ] |})
  = [ {[ "document" := PyStr "Document_Chunk_d_2"; "text" := PyStr "hi" ]} ].
Proof. reflexivity. Qed.

End FormatRagContextClaim.

(** ** [format_chat_history] *)

Section FormatChatHistory.
Import LLMContextFormatter.

Lemma format_entry_inv entry msgs :
  format_entry entry = Ok msgs → msgs = entry_pair entry.
Proof.
  unfold format_entry, entry_pair.
  destruct (dict_get entry "user" (PyStr "")) as [u| |]; simpl; try done.
  destruct (dict_get entry "assistant" (PyStr "")) as [a| |]; simpl; try done.
  fold (truthy (PyStr (strip u))). fold (truthy (PyStr (strip a))).
  rewrite !truthy_strip. destruct (negb (blank u) && negb (blank a)); by intros [= <-].
Qed.

Lemma format_entries_inv entries acc out :
  format_entries entries acc = Ok out →
  out = (acc ++ flat_map entry_pair entries)%list.
Proof.
  revert acc out. induction entries as [|e es IH]; intros acc out; simpl.
  - intros [= <-]. by rewrite app_nil_r.
  - destruct (format_entry e) as [msgs|] eqn:He; simpl; [|done].
    apply format_entry_inv in He as ->. intros ->%IH. by rewrite <- app_assoc.
Qed.

(** The output is nothing, or the pairs of the complete entries of the
    selected window, in order. *)
Lemma format_chat_history_pairs history max_entries :
  format_chat_history history max_entries = [] ∨
  format_chat_history history max_entries
    = flat_map entry_pair (recent_history history max_entries).
Proof.
  unfold format_chat_history, format_chat_history_try.
  destruct history as [|e history]; [by left|].
  destruct (format_entries _ _) as [out|] eqn:Hf; [|by left].
  apply format_entries_inv in Hf. by right.
Qed.

(** For a positive bound the window is the last [max_entries] entries. *)
Lemma recent_history_positive (history : list (gmap string pyval)) max_entries :
  0 < max_entries →
  recent_history history max_entries
    = drop (length history - Z.to_nat max_entries) history.
Proof.
  intros Hpos. unfold recent_history, slice_from.
  destruct (Z.ltb_spec max_entries (Z.of_nat (length history))) as [Hlt|Hge].
  - destruct (Z.ltb_spec (- max_entries) 0); [|lia]. f_equal. lia.
  - replace (length history - Z.to_nat max_entries)%nat with 0%nat by lia. done.
Qed.

(** For the bound 0 the window is the whole history. *)
Lemma recent_history_zero (history : list (gmap string pyval)) :
  recent_history history 0 = history.
Proof.
  unfold recent_history, slice_from.
  destruct (Z.ltb_spec 0 (Z.of_nat (length history))); [|done].
  simpl. rewrite Z.min_l by lia. done.
Qed.

Lemma entry_pair_shape entry :
  entry_pair entry = [] ∨
  ∃ u a, u ≠ "" ∧ a ≠ "" ∧ entry_pair entry = [message "user" u; message "assistant" a].
Proof.
  unfold entry_pair.
  destruct (dict_get entry "user" _) as [u| |]; try by left.
  destruct (dict_get entry "assistant" _) as [a| |]; try by left.
  destruct (blank u) eqn:Hu; [by left|]. destruct (blank a) eqn:Ha; [by left|].
  right. exists (strip u), (strip a). simpl.
  split; [|split; [|done]]; intros E%strip_empty; congruence.
Qed.

Lemma flat_map_entry_pair_paired entries : paired (flat_map entry_pair entries).
Proof.
  induction entries as [|e es IH]; simpl; [constructor|].
  destruct (entry_pair_shape e) as [->|(u & a & Hu & Ha & ->)]; [done|].
  by constructor.
Qed.

Lemma format_chat_history_paired history max_entries :
  paired (format_chat_history history max_entries).
Proof.
  destruct (format_chat_history_pairs history max_entries) as [->| ->].
  - constructor.
  - apply flat_map_entry_pair_paired.
Qed.

Lemma paired_even msgs : paired msgs → Nat.Even (length msgs).
Proof.
  induction 1 as [|u a msgs _ _ _ [k Hk]]; [by exists 0%nat|].
  exists (S k). simpl. lia.
Qed.

Lemma paired_content msgs msg :
  paired msgs → msg ∈ msgs →
  ∃ role content, msg = message role content ∧ content ≠ "" ∧
                  (role = "user" ∨ role = "assistant").
Proof.
  induction 1 as [|u a msgs Hu Ha _ IH]; intros Hin.
  - by apply elem_of_nil in Hin.
  - apply elem_of_cons in Hin as [->|Hin]; [by exists "user", u; auto|].
    apply elem_of_cons in Hin as [->|Hin]; [by exists "assistant", a; auto|].
    by apply IH.
Qed.

(** For a positive bound, the claim about [formatHistory] holds as
    stated: only the last [max_entries] entries are read, their complete
    ones are emitted as pairs in order, and nothing else is. *)
Lemma format_chat_history_positive history max_entries :
  0 < max_entries →
  (format_chat_history history max_entries = [] ∨
   format_chat_history history max_entries
     = flat_map entry_pair (drop (length history - Z.to_nat max_entries) history)) ∧
  paired (format_chat_history history max_entries) ∧
  Nat.Even (length (format_chat_history history max_entries)).
Proof.
  intros Hpos. split; [|split].
  - rewrite <- (recent_history_positive history max_entries Hpos).
    apply format_chat_history_pairs.
  - apply format_chat_history_paired.
  - apply paired_even, format_chat_history_paired.
Qed.

(** C7.  With [max_entries = 0] the formatter does not keep the 0 most
    recent entries: the slice [history[-0:]] is the whole history, and
    every complete entry is emitted. *)
Theorem format_chat_history_zero_keeps_all :
  let history : list (gmap string pyval) :=
    [ {[ "user" := PyStr "first question"; "assistant" := PyStr "first answer" ]};
      {[ "user" := PyStr "second question"; "assistant" := PyStr "second answer" ]} ] in
  format_chat_history history 0
    = [ message "user" "first question"; message "assistant" "first answer";
        message "user" "second question"; message "assistant" "second answer" ] ∧
  drop (length history - 0) history = [].
Proof. split; reflexivity. Qed.

End FormatChatHistory.

(** ** [extract_citations_from_context] *)

Section ExtractCitations.
Import LLMContextFormatter.

Lemma referenced_spec document text response :
  ∃ b : bool, referenced (PyStr document) (PyStr text) response = Ok b ∧
              (b = true ↔ cited_as_claimed document text response).
Proof.
  unfold referenced, cited_as_claimed. simpl.
  destruct (contains (lower document) (lower response)) eqn:Hc.
  - exists true. split; [done|]. split; [|done]. intros _. left.
    by apply contains_substring in Hc.
  - simpl. eexists. split; [done|]. rewrite existsb_exists. split.
    + intros (w & Hin & Hw). right. apply contains_substring in Hw as (pre & post & E).
      exists w, pre, post. split; [|done]. by apply list_elem_of_In.
    + intros [Hocc|(w & pre & post & Hin & E)].
      * apply contains_substring in Hocc. congruence.
      * exists w. split; [by apply list_elem_of_In|].
        apply contains_substring. eauto.
Qed.

Lemma cite_item_spec i item document text response :
  dict_get item "document" (PyStr "") = PyStr document →
  dict_get item "text" (PyStr "") = PyStr text →
  ∃ o, cite_item i item response = Ok o ∧
       ((o = None ∧ ¬ cited document text response) ∨
        (o = Some (citation i document text) ∧ cited document text response)).
Proof.
  intros Hd Ht. unfold cite_item, cited. rewrite Hd, Ht.
  destruct (truthy (PyStr document)) eqn:Td.
  2:{ eexists. split; [done|]. left. split; [done|]. intros (Hne & _).
      apply truthy_str in Hne. congruence. }
  destruct (truthy (PyStr text)) eqn:Tt; cbn [andb].
  2:{ eexists. split; [done|]. left. split; [done|].
      intros (_ & Hne & _). apply truthy_str in Hne. congruence. }
  apply truthy_str in Td. apply truthy_str in Tt.
  destruct (referenced_spec document text response) as (b & -> & Hb).
  destruct b.
  - eexists. split; [done|]. right. split; [done|]. repeat split; try done. by apply Hb.
  - eexists. split; [done|]. left. split; [done|]. intros (_ & _ & Hc).
    apply Hb in Hc. done.
Qed.

Lemma cite_items_spec rag_context response k acc :
  Forall typed_item rag_context →
  ∃ out, cite_items k rag_context response acc = Ok out ∧
    ∀ c, c ∈ out ↔
         c ∈ acc ∨ ∃ j item, rag_context !! j = Some item ∧
                             cite_item (k + j) item response = Ok (Some c).
Proof.
  intros Hty. revert k acc.
  induction Hty as [|item rest (document & text & Hd & Ht) _ IH]; intros k acc; simpl.
  - eexists. split; [done|]. intros c. split; [auto|]. intros [?|(j & it & Hj & _)]; [done|].
    by rewrite lookup_nil in Hj.
  - destruct (cite_item_spec k item document text response Hd Ht) as (o & Ho & _).
    rewrite Ho. simpl.
    destruct (IH (S k) (match o with Some c => (acc ++ [c])%list | None => acc end))
      as (out & -> & Hout).
    exists out. split; [done|]. intros c. rewrite Hout. split.
    + intros [Hin|(j & it & Hj & Hc)].
      * destruct o as [c'|]; [|by left].
        apply elem_of_app in Hin as [Hin|Hin]; [by left|].
        apply list_elem_of_singleton in Hin as ->. right. exists 0%nat, item.
        split; [done|]. by rewrite Nat.add_0_r.
      * right. exists (S j), it. split; [done|].
        by replace (k + S j)%nat with (S k + j)%nat by lia.
    + intros [Hin|(j & it & Hj & Hc)].
      * left. destruct o; [|done]. apply elem_of_app. by left.
      * destruct j as [|j]; simpl in Hj.
        -- injection Hj as <-. rewrite Nat.add_0_r, Ho in Hc. injection Hc as ->.
           left. apply elem_of_app. right. by apply list_elem_of_singleton.
        -- right. exists j, it. split; [done|].
           by replace (S k + j)%nat with (k + S j)%nat by lia.
Qed.

Lemma citation_id_inj i j document text document' text' :
  citation i document text !! "citationId" = citation j document' text' !! "citationId" →
  i = j.
Proof.
  unfold citation. rewrite !lookup_insert_eq. intros [= E].
  change (pretty i = pretty j) in E. by apply (inj pretty) in E.
Qed.

(** C8 (amended).  In a context whose labels and texts are strings, the
    item at position [i] yields the citation [auto_citation_i] exactly
    when its label and its text are both non-empty and the label occurs
    in the response, or one of the first ten words of the text does,
    ignoring case; the source of that citation is the label and its
    text is the item text, cut to 200 characters and followed by an
    ellipsis when longer. *)
Theorem extract_citations_guarded rag_context response i item document text :
  Forall typed_item rag_context →
  rag_context !! i = Some item →
  dict_get item "document" (PyStr "") = PyStr document →
  dict_get item "text" (PyStr "") = PyStr text →
  ((∃ c, c ∈ extract_citations_from_context rag_context response ∧
         c !! "citationId" = Some (PyStr ("auto_citation_" +:+ pretty i)))
   ↔ cited document text response) ∧
  (∀ c, c ∈ extract_citations_from_context rag_context response →
        c !! "citationId" = Some (PyStr ("auto_citation_" +:+ pretty i)) →
        c = citation i document text).
Proof.
  intros Hty Hi Hd Ht. unfold extract_citations_from_context.
  destruct (cite_items_spec rag_context response 0 [] Hty) as (out & -> & Hout).
  assert (∀ c, c ∈ out →
               c !! "citationId" = Some (PyStr ("auto_citation_" +:+ pretty i)) →
               c = citation i document text ∧ cited document text response) as Hinv.
  { intros c Hc Hid. apply Hout in Hc as [Hc|(j & it & Hj & Hc)].
    { by apply elem_of_nil in Hc. }
    simpl in Hc.
    assert (typed_item it) as (d' & t' & Hd' & Ht').
    { rewrite Forall_forall in Hty. apply Hty. by eapply list_elem_of_lookup_2. }
    destruct (cite_item_spec j it d' t' response Hd' Ht') as (o & Ho & Hcase).
    rewrite Ho in Hc. injection Hc as ->.
    destruct Hcase as [[? _]|[[= ->] Hcited]]; [done|].
    assert (j = i) as ->.
    { apply (citation_id_inj j i d' t' document text). rewrite Hid. unfold citation.
      by rewrite !lookup_insert_eq. }
    rewrite Hi in Hj. injection Hj as <-.
    rewrite Hd in Hd'. rewrite Ht in Ht'. injection Hd' as <-. injection Ht' as <-.
    done. }
  split; [split|].
  - intros (c & Hc & Hid). by destruct (Hinv c Hc Hid).
  - intros Hcited.
    destruct (cite_item_spec i item document text response Hd Ht) as (o & Ho & Hcase).
    destruct Hcase as [[_ ?]|[-> _]]; [done|].
    exists (citation i document text). split.
    + apply Hout. right. by exists i, item.
    + unfold citation. by rewrite lookup_insert_eq.
  - intros c Hc Hid. by destruct (Hinv c Hc Hid).
Qed.

Lemma extract_citations_guarded_witness :
  let item : gmap string pyval :=
    {[ "document" := PyStr "AI_Guide.pdf";
       "text" := PyStr "Artificial Intelligence refers to..." ]} in
  ∃ c, c ∈ extract_citations_from_context [item] "ai_guide.pdf discusses this" ∧
       c !! "citationId" = Some (PyStr "auto_citation_0").
Proof.
  intros item.
  apply (extract_citations_guarded [item] "ai_guide.pdf discusses this" 0 item
           "AI_Guide.pdf" "Artificial Intelligence refers to...").
  - repeat constructor.
    by exists "AI_Guide.pdf", "Artificial Intelligence refers to...".
  - reflexivity.
  - reflexivity.
  - reflexivity.
  - split; [done|]. split; [done|]. left. by exists "", " discusses this".
Defined.

(** C8 as stated fails: an item whose label is empty is never cited,
    although the empty label occurs in every response and the first word
    of its text occurs in this one. *)
Lemma extract_citations_skips_empty_label :
  let item : gmap string pyval :=
    {[ "document" := PyStr ""; "text" := PyStr "hello world" ]} in
  cited_as_claimed "" "hello world" "Hello there" ∧
  word_occurs_in "hello world" "Hello there" ∧
  extract_citations_from_context [item] "Hello there" = [].
Proof.
  intros item. split; [|split].
  - left. by exists "", "hello there".
  - exists "hello", "", " there". split; [|done]. simpl. apply elem_of_cons. by left.
  - reflexivity.
Qed.

(** Case is folded as [str.lower] folds it, accented capitals included:
    a label in capitals is found in a response in small letters. *)
Lemma extract_citations_accented_label :
  let label := String (ascii_of_nat 201) ("T" +:+ String (ascii_of_nat 201) ".pdf") in
  let response := "voir " +:+ String (ascii_of_nat 233) ("t" +:+ String (ascii_of_nat 233) ".pdf") in
  let item : gmap string pyval := {[ "document" := PyStr label; "text" := PyStr "contenu" ]} in
  lower label = String (ascii_of_nat 233) ("t" +:+ String (ascii_of_nat 233) ".pdf") ∧
  ∃ c, extract_citations_from_context [item] response = [c] ∧
       c !! "source" = Some (PyStr label).
Proof. split; [reflexivity|]. eexists. split; reflexivity. Qed.

End ExtractCitations.

(** ** [truncate_context_if_needed] *)

Section TruncateContext.
Import LLMContextFormatter.

Lemma estimate_nonneg t : 0 ≤ estimate_token_count t.
Proof. unfold estimate_token_count, len. apply Z.div_pos; lia. Qed.

Lemma item_tokens_nonneg key d : 0 ≤ item_tokens key d.
Proof.
  unfold item_tokens. destruct (dict_get d key _); try done. apply estimate_nonneg.
Qed.

Lemma tokens_sum_nonneg key l : 0 ≤ tokens_sum key l.
Proof.
  induction l as [|d l IH]; simpl; [done|]. pose proof (item_tokens_nonneg key d). lia.
Qed.

Lemma tokens_sum_rev key l : tokens_sum key (rev l) = tokens_sum key l.
Proof.
  induction l as [|d l IH]; simpl; [done|].
  unfold tokens_sum in *. rewrite foldr_app. simpl.
  rewrite <- IH. generalize (rev l). intros l'.
  induction l' as [|d' l' IH']; simpl; lia.
Qed.

Lemma texts_of_typed key l ts : texts_of key l = Ok ts → Forall (typed key) l.
Proof.
  revert ts. induction l as [|d l IH]; intros ts; simpl; [by constructor|].
  destruct (dict_get d key (PyStr "")) as [t| |] eqn:Hd; simpl; try done.
  destruct (texts_of key l) as [ts'|]; simpl; [|done].
  intros _. constructor; [by exists t|by eapply IH].
Qed.

Lemma joined_text_typed key l t : joined_text key l = Ok t → Forall (typed key) l.
Proof.
  unfold joined_text. destruct (texts_of key l) as [ts|] eqn:Hts; simpl; [|done].
  intros _. by eapply texts_of_typed.
Qed.

Lemma Forall_typed_rev key l : Forall (typed key) l → Forall (typed key) (rev l).
Proof. intros H. by apply Forall_rev. Qed.

Lemma keep_context_greedy items budget acc used :
  Forall (typed "text") items →
  keep_context items budget acc used = Ok (acc ++ greedy "text" items budget used)%list.
Proof.
  intros Hty. revert acc used.
  induction Hty as [|d items [t Ht] _ IH]; intros acc used; simpl.
  - by rewrite app_nil_r.
  - unfold item_tokens. rewrite Ht. simpl.
    destruct (used + estimate_token_count t <=? budget); [|by rewrite app_nil_r].
    rewrite IH. by rewrite <- app_assoc.
Qed.

Lemma keep_history_greedy items budget acc used :
  Forall (typed "content") items →
  keep_history items budget acc used
    = Ok (rev (greedy "content" items budget used) ++ acc)%list.
Proof.
  intros Hty. revert acc used.
  induction Hty as [|d items [t Ht] _ IH]; intros acc used; simpl.
  - done.
  - unfold item_tokens. rewrite Ht. simpl.
    destruct (used + estimate_token_count t <=? budget); [|done].
    rewrite IH. simpl. by rewrite <- app_assoc.
Qed.

Lemma greedy_prefix key items budget used :
  greedy key items budget used `prefix_of` items.
Proof.
  revert used. induction items as [|d items IH]; intros used; simpl; [done|].
  destruct (_ <=? _); [|apply prefix_nil]. by apply prefix_cons.
Qed.

Lemma greedy_within key items budget used :
  used ≤ budget → used + tokens_sum key (greedy key items budget used) ≤ budget.
Proof.
  revert used. induction items as [|d items IH]; intros used Hu; simpl; [lia|].
  destruct (Z.leb_spec (used + item_tokens key d) budget) as [Hle|Hgt]; simpl; [|lia].
  specialize (IH _ Hle). lia.
Qed.

Lemma greedy_negative key items budget :
  budget < 0 → greedy key items budget 0 = [].
Proof.
  intros Hneg. destruct items as [|d items]; simpl; [done|].
  pose proof (item_tokens_nonneg key d).
  destruct (Z.leb_spec (0 + item_tokens key d) budget); [lia|done].
Qed.

(** The selection stops only at an item that does not fit. *)
Lemma greedy_maximal key items budget used rest :
  items = (greedy key items budget used ++ rest)%list →
  match rest with
  | [] => True
  | d :: _ => budget < used + tokens_sum key (greedy key items budget used) + item_tokens key d
  end.
Proof.
  revert used. induction items as [|d items IH]; intros used; simpl.
  - by intros <-.
  - destruct (Z.leb_spec (used + item_tokens key d) budget) as [Hle|Hgt]; simpl.
    + intros [= E]. specialize (IH _ E). destruct rest; [done|]. lia.
    + intros <-. lia.
Qed.

(** C4 (amended).  When both lists can be joined, the inputs are
    returned as they are if their joined estimate is within
    [max_tokens]; otherwise each side gets half of the budget, the
    context is the greedy selection in the given order (a prefix) and
    the history is the greedy selection from the most recent message
    backwards, emitted in chronological order (a suffix).  What is
    bounded is the sum of the per-item estimates of each side, by
    [max_tokens // 2] (so by [max_tokens] together) for a budget that is
    not negative; under a negative budget both sides are empty.  When
    joining raises, the first 5 context items and the last 5 messages
    are returned. *)
Theorem truncate_context_budget rag_context chat_history max_tokens :
  match joined_text "text" rag_context, joined_text "content" chat_history with
  | Ok context_text, Ok history_text =>
      let total := estimate_token_count context_text + estimate_token_count history_text in
      let kept_context := greedy "text" rag_context (max_tokens / 2) 0 in
      let kept_history := rev (greedy "content" (rev chat_history) (max_tokens / 2) 0) in
      truncate_context_if_needed rag_context chat_history max_tokens
        = (if total <=? max_tokens then (rag_context, chat_history)
           else (kept_context, kept_history)) ∧
      kept_context `prefix_of` rag_context ∧
      kept_history `suffix_of` chat_history ∧
      (0 ≤ max_tokens →
         tokens_sum "text" kept_context ≤ max_tokens / 2 ∧
         tokens_sum "content" kept_history ≤ max_tokens / 2 ∧
         tokens_sum "text" kept_context + tokens_sum "content" kept_history ≤ max_tokens) ∧
      (max_tokens < 0 → kept_context = [] ∧ kept_history = [])
  | _, _ =>
      truncate_context_if_needed rag_context chat_history max_tokens
        = (take 5 rag_context, drop (length chat_history - 5) chat_history)
  end.
Proof.
  unfold truncate_context_if_needed, truncate_context_try.
  destruct (joined_text "text" rag_context) as [tc|] eqn:Hc; simpl; [|done].
  destruct (joined_text "content" chat_history) as [th|] eqn:Hh; simpl; [|done].
  apply joined_text_typed in Hc. apply joined_text_typed in Hh.
  split; [|split; [|split; [|split]]].
  - destruct (_ <=? max_tokens); simpl; [done|].
    rewrite (keep_context_greedy _ _ [] 0 Hc). simpl.
    rewrite (keep_history_greedy _ _ [] 0 (Forall_typed_rev _ _ Hh)). simpl.
    by rewrite app_nil_r.
  - apply greedy_prefix.
  - destruct (greedy_prefix "content" (rev chat_history) (max_tokens / 2) 0) as [k Hk].
    exists (rev k). rewrite <- rev_app_distr, <- Hk. by rewrite rev_involutive.
  - intros Hpos.
    assert (0 ≤ max_tokens / 2) as Hhalf by (apply Z.div_pos; lia).
    pose proof (greedy_within "text" rag_context _ 0 Hhalf).
    pose proof (greedy_within "content" (rev chat_history) _ 0 Hhalf).
    rewrite tokens_sum_rev.
    pose proof (Z.mul_div_le max_tokens 2). lia.
  - intros Hneg.
    assert (max_tokens / 2 < 0) as Hhalf by (apply Z.div_lt_upper_bound; lia).
    by rewrite !greedy_negative.
Qed.

Lemma truncate_context_budget_witness :
  let big := PyStr "0123456789abcdef0123456789abcdef" in
  let rag_context : list (gmap string pyval) :=
    [ {[ "document" := PyStr "a.pdf"; "text" := big ]};
      {[ "document" := PyStr "b.pdf"; "text" := big ]} ] in
  let chat_history : list (gmap string pyval) :=
    [ {[ "role" := PyStr "user"; "content" := big ]};
      {[ "role" := PyStr "assistant"; "content" := PyStr "ok then" ]} ] in
  truncate_context_if_needed rag_context chat_history 16
    = (take 1 rag_context, drop 1 chat_history) ∧
  tokens_sum "text" (take 1 rag_context) + tokens_sum "content" (drop 1 chat_history) ≤ 16.
Proof.
  intros big rag_context chat_history.
  pose proof (truncate_context_budget rag_context chat_history 16) as H.
  vm_compute joined_text in H. destruct H as (Heq & _ & _ & Hsum & _).
  split.
  - rewrite Heq. reflexivity.
  - destruct Hsum as (_ & _ & Hsum); [lia|]. exact Hsum.
Defined.

(** C4 as stated fails: eight short items, each estimated at 0 tokens,
    are all kept although their joined estimate is 7 and the budget is
    5.  No exception is raised, and the first five items alone would
    have fitted. *)
Lemma truncate_context_exceeds_budget :
  let rag_context : list (gmap string pyval) :=
    replicate 8 {[ "document" := PyStr "notes.pdf"; "text" := PyStr "abc" ]} in
  truncate_context_try rag_context [] 5 = Ok (rag_context, []) ∧
  truncate_context_if_needed rag_context [] 5 = (rag_context, []) ∧
  joined_estimate "text" rag_context + joined_estimate "content" [] = 7 ∧
  ¬ (joined_estimate "text" rag_context + joined_estimate "content" [] ≤ 5) ∧
  joined_estimate "text" (take 5 rag_context) + joined_estimate "content" [] = 4.
Proof. repeat split; try reflexivity. vm_compute. intros H. by apply H. Qed.

End TruncateContext.

(** ** Collection names *)

Section CollectionNames.
Import ChromaUtils.

Lemma sanitized_plain chat_id : plain chat_id = true → sanitized chat_id = chat_id.
Proof.
  unfold sanitized. induction chat_id as [|c s IH]; simpl; [done|].
  intros [[Hs Hd]%andb_prop Hp]%andb_prop.
  apply negb_true_iff in Hs, Hd. rewrite Hs, Hd. by rewrite IH.
Qed.

Lemma str_length_app s t : String.length (s +:+ t) = (String.length s + String.length t)%nat.
Proof. induction s as [|c s IH]; [done|]. rewrite app_cons. simpl. by rewrite IH. Qed.

Lemma app_inv_tail s1 s2 t : s1 +:+ t = s2 +:+ t → s1 = s2.
Proof.
  revert s2. induction s1 as [|c s1 IH]; intros [|c' s2] E.
  - done.
  - apply (f_equal String.length) in E. rewrite app_empty_l, str_length_app in E.
    simpl in E. lia.
  - apply (f_equal String.length) in E. rewrite app_empty_l, str_length_app in E.
    simpl in E. lia.
  - rewrite !app_cons in E. injection E as -> E. f_equal. by apply IH.
Qed.

(** C5 (amended).  The collection name is a function of the chat id
    alone: the id with ['/'] and ['-'] replaced by ['_'], followed by
    ["_docs"].  Two ids get the same name exactly when they agree after
    that replacement; on ids that contain neither character the mapping
    is collision-free. *)
Theorem collection_name_collisions a b :
  collection_name_of a = sanitized a +:+ "_docs" ∧
  (collection_name_of a = collection_name_of b ↔ sanitized a = sanitized b) ∧
  (plain a = true → plain b = true →
   collection_name_of a = collection_name_of b → a = b).
Proof.
  split; [done|].
  assert (collection_name_of a = collection_name_of b ↔ sanitized a = sanitized b) as Hiff.
  { unfold collection_name_of. fold (sanitized a). fold (sanitized b). split.
    - apply app_inv_tail.
    - by intros ->. }
  split; [done|]. intros Ha Hb E. apply Hiff in E.
  by rewrite !sanitized_plain in E.
Qed.

Lemma collection_name_collisions_witness :
  plain "64f1c0ffee0123456789abcd" = true ∧
  plain "64f1c0ffee0123456789abce" = true ∧
  collection_name_of "64f1c0ffee0123456789abcd" ≠ collection_name_of "64f1c0ffee0123456789abce".
Proof.
  split; [reflexivity|]. split; [reflexivity|]. intros E.
  apply (collection_name_collisions "64f1c0ffee0123456789abcd" "64f1c0ffee0123456789abce")
    in E; [discriminate E|reflexivity|reflexivity].
Defined.

(** C5 as stated fails: two distinct ids share a collection, and a
    non-alphanumeric character other than ['/'] and ['-'] is kept. *)
Lemma collection_name_collision :
  "a-b" ≠ "a_b" ∧
  collection_name_of "a-b" = collection_name_of "a_b" ∧
  collection_name_of "a/b" = collection_name_of "a_b" ∧
  collection_name_of "a.b" = "a.b_docs".
Proof. repeat split; done. Qed.

End CollectionNames.

(** ** Querying and deleting a collection that does not exist *)

Section MissingCollection.
Import ChromaUtils.
Context {F : Type} (be : backends F).

(** C1 (amended).  When no collection exists for the chat id,
    [query_chat_docs] raises nothing and returns the failure dictionary
    whose error is ["Collection not found"]: it carries no retrieved
    items and is not marked successful, whatever the query and the
    number of results asked for.  The embedder and the index are not
    consulted. *)
Theorem query_chat_docs_missing_collection (w : world F) (chat_id query : string)
    (n_results : Z) :
  chroma_client w !! collection_name_of chat_id = None →
  query_chat_docs be w chat_id query n_results
    = QueryFailed chat_id query "Collection not found" "No documents found for this chat" ∧
  query_success (query_chat_docs be w chat_id query n_results) = false.
Proof. intros Hnone. unfold query_chat_docs. by rewrite Hnone. Qed.


End MissingCollection.

Section MissingCollectionExamples.
Import ChromaUtils.

Lemma query_chat_docs_missing_collection_witness :
  chroma_client Sample.empty_world !! collection_name_of "c1" = None ∧
  query_chat_docs Sample.be Sample.empty_world "c1" "what is new?" 5
    = QueryFailed "c1" "what is new?" "Collection not found"
        "No documents found for this chat".
Proof.
  split; [reflexivity|].
  apply (query_chat_docs_missing_collection Sample.be Sample.empty_world "c1"
           "what is new?" 5).
  reflexivity.
Defined.

(** C1 as stated fails: the result for a chat without a collection is a
    failure, not a successful result with zero items. *)
Lemma query_chat_docs_missing_is_failure :
  chroma_client Sample.empty_world !! collection_name_of "c1" = None ∧
  query_success (query_chat_docs Sample.be Sample.empty_world "c1" "what is new?" 5) = false ∧
  ∀ message, query_chat_docs Sample.be Sample.empty_world "c1" "what is new?" 5
             ≠ QueryOk "c1" "what is new?" 0 [] (collection_name_of "c1") message.
Proof. repeat split; done. Qed.


End MissingCollectionExamples.

(** ** Chunk ids *)

Section ChunkIds.
Import DocProcessor.
Context {F : Type} (sv : services F).

#[local] Instance chunk_id_of_inj doc_id : Inj (=) (=) (chunk_id_of doc_id).
Proof.
  intros m n E. unfold chunk_id_of in E.
  apply (inj (String.append doc_id)) in E.
  change (String "_" (pretty m) = String "_" (pretty n)) in E.
  injection E as E. by apply (inj pretty) in E.
Qed.

Lemma format_chunks_ids doc_id doc_name k (ecs : list (embedded_chunk F)) :
  chunk_id <$> format_chunks doc_id doc_name k ecs
    = chunk_id_of doc_id <$> seq (k + 1) (length ecs).
Proof.
  revert k. induction ecs as [|c ecs IH]; intros k; simpl; [done|].
  f_equal. rewrite IH. by replace (k + 1 + 1)%nat with (S (k + 1)) by lia.
Qed.

Lemma length_format_chunks doc_id doc_name k (ecs : list (embedded_chunk F)) :
  length (format_chunks doc_id doc_name k ecs) = length ecs.
Proof. revert k. induction ecs as [|c ecs IH]; intros k; simpl; [done|]. by rewrite IH. Qed.

Lemma format_chunks_lookup doc_id doc_name k (ecs : list (embedded_chunk F)) j fc :
  format_chunks doc_id doc_name k ecs !! j = Some fc →
  ∃ ec, ecs !! j = Some ec ∧
        chunk_id fc = chunk_id_of doc_id (k + j + 1) ∧
        text fc = ch_text (ec_chunk ec) ∧
        meta_pageNo fc = ch_page_no (ec_chunk ec) ∧
        meta_doc_name fc = doc_name.
Proof.
  revert k j. induction ecs as [|c ecs IH]; intros k j; simpl; [done|].
  destruct j as [|j]; simpl.
  - intros [= <-]. exists c. by rewrite Nat.add_0_r.
  - intros (ec & ? & Hid & ?)%IH. exists ec. split; [done|]. split; [|done].
    rewrite Hid. f_equal. lia.
Qed.

Lemma zip_chunks_lookup cs (embeddings : list (list F)) j ec :
  zip_chunks cs embeddings !! j = Some ec → cs !! j = Some (ec_chunk ec).
Proof.
  revert embeddings j. induction cs as [|c cs IH]; intros [|e es] j; simpl; try done.
  destruct j as [|j]; simpl; [by intros [= <-]|]. apply IH.
Qed.

(** Ids of a processed document: position [k] of the chunks of all
    pages, taken in extraction order, carries the ordinal [k + 1]; the
    ordinal does not restart with a new page. *)
Lemma process_pdf_chunk_ids doc_id pdf_path doc_name pd :
  process_pdf sv doc_id pdf_path doc_name = Ok pd →
  docId pd = doc_id ∧
  chunk_id <$> chunks pd = chunk_id_of doc_id <$> seq 1 (length (chunks pd)) ∧
  ∃ pages, page_texts_of sv pdf_path = Ok pages ∧
    ∀ k fc, chunks pd !! k = Some fc →
      ∃ c, chunk_text_with_metadata sv (extract_pages sv pages 0) !! k = Some c ∧
           chunk_id fc = chunk_id_of doc_id (k + 1) ∧
           text fc = ch_text c ∧
           meta_pageNo fc = ch_page_no c.
Proof.
  unfold process_pdf, extract_text_with_pages.
  destruct (page_texts_of sv pdf_path) as [pages|] eqn:Hp; simpl; [|done].
  destruct (embed_chunks sv _) as [ecs|] eqn:He; simpl; [|done].
  intros [= <-]. simpl. split; [done|]. split.
  - rewrite format_chunks_ids. by rewrite length_format_chunks.
  - exists pages. split; [done|]. intros k fc Hk.
    apply format_chunks_lookup in Hk as (ec & Hec & Hid & Ht & Hpg & _).
    exists (ec_chunk ec). split; [|done].
    unfold embed_chunks in He.
    destruct (match embed_documents sv _ with Ok es => _ | Raise _ => _ end)
      as [es|]; simpl in He; [|done].
    injection He as <-. by eapply zip_chunks_lookup.
Qed.

Lemma chunk_ids_NoDup doc_id n : NoDup (chunk_id_of doc_id <$> seq 1 n).
Proof. apply NoDup_fmap_2; [apply _|apply NoDup_seq]. Qed.

End ChunkIds.

(** ** Ingestion *)

Section Upload.
Import DocProcessor ChromaUtils.
Context {F : Type} (be : backends F).

Lemma entry_of_id now chat_id doc_id filename user_id (cs : list (formatted_chunk F)) :
  (entry_of now chat_id doc_id filename user_id <$> cs).*1 = chunk_id <$> cs.
Proof. induction cs as [|c cs IH]; [done|]. rewrite !fmap_cons. by rewrite IH. Qed.

Lemma lookup_foldr_delete (m : gmap string (stored_chunk F)) ids id :
  id ∈ ids → foldr delete m ids !! id = None.
Proof.
  induction ids as [|i ids IH]; simpl; [by intros ?%elem_of_nil|].
  intros [->|Hin]%elem_of_cons; [apply lookup_delete_eq|].
  destruct (decide (i = id)) as [->|Hne]; [apply lookup_delete_eq|].
  rewrite lookup_delete_ne by done. by apply IH.
Qed.

Lemma upload_into_ok reply now file_size doc_id w chat_id path filename user_id name col
    w' did cid fn cn count ids mid msg :
  upload_into be reply now file_size doc_id w chat_id path filename user_id name col
    = (w', UploadOk did cid fn cn count ids mid msg) →
  ∃ pd, process_pdf (doc_processor be) doc_id path (Some filename) = Ok pd ∧
        did = doc_id ∧ cn = name ∧
        ids = chunk_id <$> chunks pd ∧
        count = length (chunks pd) ∧
        reply = Inserted mid ∧
        documents w' = (documents w ++
          [(mid, document_model be now chat_id filename name doc_id file_size (chunks pd) ids)])%list.
Proof.
  unfold upload_into.
  destruct (process_pdf _ _ _ _) as [pd|] eqn:Hpd; [|done].
  destruct (process_pdf_chunk_ids _ _ _ _ _ Hpd) as (Hid & _).
  destruct (collection_add _ _) as [added|]; [|done].
  destruct reply as [inserted_id| |]; try done.
  intros [=]. subst. exists pd. done.
Qed.

(** C3.  After a successful upload the record appended to the document
    store lists exactly the returned chunk ids, as many as there are
    chunks, and these are [<docId>_1 ... <docId>_N] without repetition;
    the chunk at position [k] of the chunks of all pages in extraction
    order has ordinal [k + 1]. *)
Theorem upload_document_chunk_ids reply now file_size doc_id (w w' : world F)
    chat_id path filename user_id did cid fn cn count ids mid msg :
  upload_document be reply now file_size doc_id w chat_id path filename user_id
    = (w', UploadOk did cid fn cn count ids mid msg) →
  ∃ dm pd,
    documents w' = (documents w ++ [(mid, dm)])%list ∧
    dm_docId dm = did ∧ dm_chunk_ids dm = ids ∧ dm_total_chunks dm = count ∧
    process_pdf (doc_processor be) doc_id path (Some filename) = Ok pd ∧
    docId pd = did ∧
    length (chunks pd) = count ∧ length (dm_chunk_ids dm) = count ∧
    ids = chunk_id_of did <$> seq 1 count ∧
    NoDup ids ∧
    ∃ pages, page_texts_of (doc_processor be) path = Ok pages ∧
      ∀ k fc, chunks pd !! k = Some fc →
        ∃ c, chunk_text_with_metadata (doc_processor be)
               (extract_pages (doc_processor be) pages 0) !! k = Some c ∧
             ids !! k = Some (chunk_id_of did (k + 1)) ∧
             chunk_id fc = chunk_id_of did (k + 1) ∧
             text fc = ch_text c ∧ meta_pageNo fc = ch_page_no c.
Proof.
  intros Hup.
  assert (∃ w0 name col, documents w0 = documents w ∧
            upload_into be reply now file_size doc_id w0 chat_id path filename user_id
              name col = (w', UploadOk did cid fn cn count ids mid msg))
    as (w0 & name & col & Hdocs & Hinto).
  { unfold upload_document in Hup.
    destruct (chroma_client w !! collection_name_of chat_id) as [col|] eqn:Hc.
    - by exists w, (collection_name_of chat_id), col.
    - destruct (create_chat_vector_db be now w chat_id) as [w0 cr] eqn:Hcr.
      assert (documents w0 = documents w) as Hd.
      { unfold create_chat_vector_db in Hcr. rewrite Hc in Hcr.
        destruct (valid_name be _); by injection Hcr as <- _. }
      destruct (negb (create_success cr)); [done|].
      destruct (chroma_client w0 !! collection_name_of chat_id) as [col|]; [|done].
      by exists w0, (collection_name_of chat_id), col. }
  apply upload_into_ok in Hinto as (pd & Hpd & -> & -> & -> & -> & -> & Hw').
  destruct (process_pdf_chunk_ids _ _ _ _ _ Hpd) as (Hid & Hids & pages & Hpages & Hord).
  eexists _, pd. rewrite Hw', Hdocs.
  split; [done|]. simpl. repeat (split; [done|]).
  split; [by rewrite length_fmap|]. split; [done|].
  split; [rewrite Hids; apply chunk_ids_NoDup|].
  exists pages. split; [done|]. intros k fc Hk.
  destruct (Hord k fc Hk) as (c & Hc & Hcid & Ht & Hpg).
  exists c. repeat (split; [done|]). split; [|done].
  rewrite list_lookup_fmap, Hk. simpl. by rewrite Hcid.
Qed.

(** What [upload_into] leaves behind, by the answer of [insert_one],
    once the chunks have been added to the collection. *)
Lemma upload_into_after_add reply now file_size doc_id (w : world F) chat_id path filename
    user_id name col pd :
  process_pdf (doc_processor be) doc_id path (Some filename) = Ok pd →
  chunks pd ≠ [] →
  let out := upload_into be reply now file_size doc_id w chat_id path filename user_id
               name col in
  match reply with
  | Inserted mid =>
      upload_success out.2 = true ∧
      (∃ dm, documents out.1 = (documents w ++ [(mid, dm)])%list ∧
             dm_chunk_ids dm = chunk_id <$> chunks pd) ∧
      ∀ id, id ∈ chunk_id <$> chunks pd → is_Some (items_of out.1 name !! id)
  | NoInsertedId =>
      upload_success out.2 = false ∧
      documents out.1 = documents w ∧
      ∀ id, id ∈ chunk_id <$> chunks pd → items_of out.1 name !! id = None
  | InsertRaises e =>
      upload_success out.2 = false ∧
      documents out.1 = documents w ∧
      ∀ id, id ∈ chunk_id <$> chunks pd → is_Some (items_of out.1 name !! id)
  end.
Proof.
  intros Hpd Hne. unfold upload_into. rewrite Hpd.
  destruct (process_pdf_chunk_ids _ _ _ _ _ Hpd) as (Hid & _). rewrite Hid.
  unfold collection_add.
  destruct (entry_of now chat_id doc_id filename user_id <$> chunks pd) as [|e es] eqn:He.
  { destruct (chunks pd); done. }
  change (map (entry_of now chat_id doc_id filename user_id) (chunks pd))
    with (entry_of now chat_id doc_id filename user_id <$> chunks pd).
  rewrite He.
  assert (∀ id, id ∈ chunk_id <$> chunks pd →
                is_Some ((col_items col ∪ list_to_map (e :: es)) !! id)) as Hadded.
  { intros id Hin. rewrite <- He. apply lookup_union_is_Some. right.
    destruct (list_to_map _ !! id) eqn:Hl; [done|].
    apply not_elem_of_list_to_map in Hl. by rewrite entry_of_id in Hl. }
  destruct reply as [mid| |e']; simpl.
  - split; [done|]. split; [by eexists|]. intros id Hin. unfold items_of. simpl.
    rewrite lookup_insert_eq. simpl. by apply Hadded.
  - split; [done|]. split; [done|]. intros id Hin. unfold items_of. simpl.
    rewrite lookup_insert_eq. simpl. by apply lookup_foldr_delete.
  - split; [done|]. split; [done|]. intros id Hin. unfold items_of. simpl.
    rewrite lookup_insert_eq. simpl. by apply Hadded.
Qed.

End Upload.

Section UploadExamples.
Import DocProcessor ChromaUtils.

Lemma upload_document_chunk_ids_witness :
  (sample_upload (Inserted "m1")).2
    = UploadOk "d0c" "c1" "upload.pdf" "c1_docs" 3 ["d0c_1"; "d0c_2"; "d0c_3"] "m1"
        "Document uploaded and processed successfully" ∧
  ∃ dm, documents (sample_upload (Inserted "m1")).1 = [("m1", dm)] ∧
        dm_chunk_ids dm = ["d0c_1"; "d0c_2"; "d0c_3"] ∧
        NoDup (dm_chunk_ids dm).
Proof.
  split; [reflexivity|].
  destruct (upload_document_chunk_ids Sample.be (Inserted "m1") "2025-01-01T00:00:00" 2048
              "d0c" Sample.empty_world (sample_upload (Inserted "m1")).1
              "c1" "/tmp/upload.pdf" "upload.pdf" (Some "u1")
              "d0c" "c1" "upload.pdf" "c1_docs" 3 ["d0c_1"; "d0c_2"; "d0c_3"] "m1"
              "Document uploaded and processed successfully")
    as (dm & pd & Hdocs & _ & Hids & _ & _ & _ & _ & _ & _ & Hnodup & _).
  { reflexivity. }
  exists dm. split; [exact Hdocs|]. split; [exact Hids|]. rewrite Hids. exact Hnodup.
Defined.

(** The ordinal does not restart on a new page: the chunk of page 3 is
    the third chunk, although it is the first of its page. *)
Example sample_chunks_across_pages :
  chunk_text_with_metadata Sample.sv
    (extract_pages Sample.sv ["alpha;beta"; "   "; "gamma"] 0)
    = [ {| ch_text := "alpha"; ch_page_no := 1; ch_chunk_in_page := 1 |};
        {| ch_text := "beta"; ch_page_no := 1; ch_chunk_in_page := 2 |};
        {| ch_text := "gamma"; ch_page_no := 3; ch_chunk_in_page := 1 |} ].
Proof. reflexivity. Qed.

(** C2.  When [insert_one] raises, as it does when MongoDB cannot be
    reached, the handler of [upload_document] returns the failure without
    deleting the chunks it has just added: the three chunks stay in the
    collection and no document record exists for them.  Only the branch
    for a result without [inserted_id] deletes them. *)
Theorem upload_document_insert_exception_keeps_chunks :
  let out := sample_upload (InsertRaises "connection refused") in
  out.2 = UploadFailed "c1" "upload.pdf" "connection refused"
            "Failed to upload and process document" ∧
  documents out.1 = [] ∧
  sc_document <$> items_of out.1 "c1_docs"
    = {[ "d0c_1" := "alpha"; "d0c_2" := "beta"; "d0c_3" := "gamma" ]} ∧
  let rolled_back := sample_upload NoInsertedId in
  documents rolled_back.1 = [] ∧ items_of rolled_back.1 "c1_docs" = ∅.
Proof.
  repeat split; vm_compute; reflexivity.
Qed.

End UploadExamples.

(** ** [add_assistant_response_to_chat] *)

Section AssistantResponse.
Import ChatUtils.
Variable validate : string → pyval → pyval → pyval → pyval → exc CitationModel.
Variable new_oid : nat → string.

Lemma alter_last (f : ConversationEntry → ConversationEntry) earlier last :
  alter f (length (earlier ++ [last])%list - 1)%nat (earlier ++ [last])%list
    = (earlier ++ [f last])%list.
Proof.
  rewrite length_app. simpl.
  replace (length earlier + 1 - 1)%nat with (length earlier + 0)%nat by lia.
  by rewrite alter_app_r.
Qed.

(** What a call does when the chat has a last entry: unless the
    validation of the citations raises, the chat is stored with the
    response and the citations in its last entry, and the call reports
    whether that changed the chat. *)
Lemma add_assistant_response_writes now (db : chats) chat_id response cits
    oid chat_doc earlier last :
  ObjectId chat_id = Ok oid → db !! oid = Some chat_doc →
  conversation_history chat_doc = (earlier ++ [last])%list →
  match citation_models_of validate new_oid cits with
  | Ok cms =>
      add_assistant_response_to_chat validate new_oid now db chat_id response cits
        = (<[oid := updated_chat now response cms (length earlier) chat_doc]> db,
           bool_decide (updated_chat now response cms (length earlier) chat_doc ≠ chat_doc)) ∧
      conversation_history (updated_chat now response cms (length earlier) chat_doc)
        = (earlier ++ [set_response response cms last])%list
  | Raise _ =>
      add_assistant_response_to_chat validate new_oid now db chat_id response cits = (db, false)
  end.
Proof.
  intros Hoid Hdb Hh. unfold add_assistant_response_to_chat, add_assistant_response_try.
  change (match cits with
          | None | Some [] => mret []
          | Some cs => citation_models validate new_oid 0 cs
          end) with (citation_models_of validate new_oid cits).
  destruct (citation_models_of validate new_oid cits) as [cms|err];
    cbv [mbind exc_bind mret exc_ret]; [|done].
  rewrite Hoid, Hdb.
  destruct (conversation_history chat_doc) as [|x l] eqn:Hc; [by destruct earlier|].
  rewrite <- Hc. rewrite Hh in Hc.
  replace (length (conversation_history chat_doc) - 1)%nat with (length earlier).
  2:{ rewrite Hc, length_app. simpl. lia. }
  assert (conversation_history (updated_chat now response cms (length earlier) chat_doc)
          = (earlier ++ [set_response response cms last])%list) as Hnew.
  { unfold updated_chat. cbn [conversation_history]. rewrite Hc.
    replace (length earlier) with (length (earlier ++ [last])%list - 1)%nat
      by (rewrite length_app; simpl; lia).
    apply alter_last. }
  split; [|done].
  destruct (decide _) as [Heq|Hne].
  - rewrite Heq, insert_id by done. by rewrite bool_decide_eq_false_2 by by intros ?.
  - by rewrite bool_decide_eq_true_2.
Qed.

(** C6 (amended).  A failed call leaves the chat collection as it was.
    A successful call changes one chat only, and in it only the last
    entry of the history: every earlier entry is kept, and the last one
    receives the response and the citations.  The call fails when there
    is no last entry (invalid id, unknown chat, or empty history).
    When there is a last entry and the citations are valid, the write
    takes place whatever the entry held: afterwards the chat is stored
    with the response and the citations in its last entry, and the call
    succeeds exactly when this changed the chat, in particular whenever
    the response differs from the assistant text that was there.  When
    the validation of the citations raises, the call fails. *)
Theorem add_assistant_response_last_entry (now : string) (db : chats)
    (chat_id response : string) (cits : option (list (gmap string pyval))) :
  let out := add_assistant_response_to_chat validate new_oid now db chat_id response cits in
  (out.2 = false → out.1 = db) ∧
  (out.2 = true →
   ∃ oid chat_doc earlier last cms,
     ObjectId chat_id = Ok oid ∧
     db !! oid = Some chat_doc ∧
     conversation_history chat_doc = (earlier ++ [last])%list ∧
     last_entry db chat_id = Some last ∧
     out.1 = <[oid := updated_chat now response cms (length earlier) chat_doc]> db ∧
     conversation_history (updated_chat now response cms (length earlier) chat_doc)
       = (earlier ++ [set_response response cms last])%list) ∧
  (last_entry db chat_id = None → out.2 = false) ∧
  (∀ oid chat_doc earlier last cms,
     ObjectId chat_id = Ok oid →
     db !! oid = Some chat_doc →
     conversation_history chat_doc = (earlier ++ [last])%list →
     citation_models_of validate new_oid cits = Ok cms →
     out.1 = <[oid := updated_chat now response cms (length earlier) chat_doc]> db ∧
     out.1 !! oid = Some (updated_chat now response cms (length earlier) chat_doc) ∧
     conversation_history (updated_chat now response cms (length earlier) chat_doc)
       = (earlier ++ [set_response response cms last])%list ∧
     (out.2 = true ↔ updated_chat now response cms (length earlier) chat_doc ≠ chat_doc) ∧
     (response ≠ assistant last → out.2 = true)) ∧
  (∀ msg, citation_models_of validate new_oid cits = Raise msg → out = (db, false)).
Proof.
  intros out. split; [|split; [|split; [|split]]].
  - subst out.
    unfold add_assistant_response_to_chat, add_assistant_response_try.
    match goal with |- context [mbind _ ?m] => destruct m as [cms|] end; simpl; [|done].
    destruct (ObjectId chat_id) as [oid|]; simpl; [|done].
    destruct (db !! oid) as [chat_doc|] eqn:Hdb; simpl; [|done].
    destruct (conversation_history chat_doc) as [|e l]; simpl; [done|].
    destruct (decide _); simpl; done.
  - subst out.
    unfold add_assistant_response_to_chat, add_assistant_response_try, last_entry.
    match goal with |- context [mbind _ ?m] => destruct m as [cms|] end; simpl; [|done].
    destruct (ObjectId chat_id) as [oid|]; simpl; [|done].
    destruct (db !! oid) as [chat_doc|] eqn:Hdb; simpl; [|done].
    destruct (conversation_history chat_doc) as [|e l] eqn:Hh using rev_ind; simpl; [done|].
    clear IHl.
    assert (∀ (X : Type) (a b : X),
              match (l ++ [e])%list with [] => a | _ :: _ => b end = b) as Hm
      by by destruct l.
    rewrite Hm. rewrite last_snoc.
    destruct (decide _) as [Heq|Hne]; simpl; [done|]. intros _.
    exists oid, chat_doc, l, e, cms.
    replace (length (l ++ [e]) - 1)%nat with (length l).
    2:{ rewrite length_app. simpl. lia. }
    repeat (split; [done|]). rewrite Hh.
    replace (length l) with (length l + 0)%nat by lia. by rewrite alter_app_r.
  - subst out.
    unfold add_assistant_response_to_chat, add_assistant_response_try, last_entry.
    match goal with |- context [mbind _ ?m] => destruct m as [cms|] end; simpl; [|done].
    destruct (ObjectId chat_id) as [oid|]; simpl; [|done].
    destruct (db !! oid) as [chat_doc|] eqn:Hdb; simpl; [|done].
    destruct (conversation_history chat_doc) as [|e l] eqn:Hh using rev_ind; simpl; [done|].
    by rewrite last_snoc.
  - intros oid chat_doc earlier last cms Hoid Hdb Hh Hcms.
    pose proof (add_assistant_response_writes now db chat_id response cits
                  oid chat_doc earlier last Hoid Hdb Hh) as Hw.
    rewrite Hcms in Hw. destruct Hw as [Hout Hnew]. subst out. rewrite Hout. cbn [fst snd].
    split; [done|]. split; [apply lookup_insert_eq|]. split; [done|].
    assert (response ≠ assistant last →
            updated_chat now response cms (length earlier) chat_doc ≠ chat_doc) as Hdiff.
    { intros Hne Heq. rewrite Heq, Hh in Hnew.
      apply app_inv_head in Hnew. injection Hnew as Hlast.
      apply Hne. by rewrite Hlast. }
    split.
    + by rewrite bool_decide_eq_true.
    + intros Hne. apply bool_decide_eq_true. by apply Hdiff.
  - intros msg Hcms. subst out.
    unfold add_assistant_response_to_chat, add_assistant_response_try.
    change (match cits with
            | None | Some [] => mret []
            | Some cs => citation_models validate new_oid 0 cs
            end) with (citation_models_of validate new_oid cits).
    by rewrite Hcms.
Qed.

End AssistantResponse.

Section AssistantResponseExamples.
Import ChatUtils.

Lemma add_assistant_response_last_entry_witness :
  let db := sample_chats [entry "first" "one"; entry "second" ""] in
  let answered := sample_chats [entry "first" "one"; entry "second" "old answer"] in
  (respond db "two").2 = true ∧
  histories (respond db "two").1 = [[("first", "one"); ("second", "two")]] ∧
  (∃ earlier cms, conversation_history <$> (respond db "two").1 !! "64f1c0ffee0123456789abcd"
                    = Some (earlier ++ [set_response "two" cms (entry "second" "")])%list) ∧
  (respond (sample_chats []) "two").2 = false ∧
  (respond (sample_chats []) "two").1 = sample_chats [] ∧
  (respond answered "new answer").2 = true ∧
  (∃ chat_doc, (respond answered "new answer").1 !! "64f1c0ffee0123456789abcd" = Some chat_doc ∧
               conversation_history chat_doc
                 = [entry "first" "one";
                    set_response "new answer" [] (entry "second" "old answer")]).
Proof.
  intros db answered.
  destruct (add_assistant_response_last_entry sample_validate sample_oid
              "2025-01-02T00:00:00" (sample_chats []) "64F1C0FFEE0123456789ABCD" "two" None)
    as (Hfail & _ & Hnone & _).
  destruct (add_assistant_response_last_entry sample_validate sample_oid
              "2025-01-02T00:00:00" db "64F1C0FFEE0123456789ABCD" "two" None)
    as (_ & Hok & _).
  destruct (add_assistant_response_last_entry sample_validate sample_oid
              "2025-01-02T00:00:00" answered "64F1C0FFEE0123456789ABCD" "new answer" None)
    as (_ & _ & _ & Hwrite & _).
  destruct (Hwrite "64f1c0ffee0123456789abcd" _ [entry "first" "one"]
              (entry "second" "old answer") [] eq_refl eq_refl eq_refl eq_refl)
    as (_ & Hstored & Hhist & _ & Htrue).
  split; [reflexivity|]. split; [reflexivity|]. split.
  - destruct Hok as (oid & chat_doc & earlier & last & cms & Hoid & _ & _ & Hlast & Hout & Hhist');
      [reflexivity|].
    assert (oid = "64f1c0ffee0123456789abcd") as -> by (vm_compute in Hoid; congruence).
    assert (last = entry "second" "") as ->
      by (vm_compute in Hlast; injection Hlast as <-; reflexivity).
    exists earlier, cms. unfold respond. rewrite Hout, lookup_insert_eq.
    rewrite <- Hhist'. reflexivity.
  - split; [apply Hnone; reflexivity|]. split; [apply Hfail; apply Hnone; reflexivity|].
    split; [apply Htrue; discriminate|].
    eexists. split; [exact Hstored|exact Hhist].
Defined.

(** C6 as stated fails: the last entry already has an answer, and the
    call still succeeds and replaces it. *)
Lemma add_assistant_response_overwrites :
  let db := sample_chats [entry "first" "one"; entry "second" "old answer"] in
  last_entry db "64F1C0FFEE0123456789ABCD" = Some (entry "second" "old answer") ∧
  (respond db "new answer").2 = true ∧
  histories (respond db "new answer").1 = [[("first", "one"); ("second", "new answer")]].
Proof. repeat split; vm_compute; reflexivity. Qed.

End AssistantResponseExamples.

(* ===================================================================== *)
(** * Further properties *)
(* ===================================================================== *)

(** ** Text cleaning *)

Section CleanText.
Import DocUtils.

Lemma no_adjacent_cons P a s :
  no_adjacent P (String a s)
    = match s with "" => true | String b _ => negb (P a && P b) && no_adjacent P s end.
Proof. done. Qed.

Lemma no_adjacent_free P a s : P a = false → no_adjacent P (String a s) = no_adjacent P s.
Proof. intros Ha. rewrite no_adjacent_cons. destruct s; [done|]. by rewrite Ha. Qed.

Lemma no_adjacent_tail P a s : no_adjacent P (String a s) = true → no_adjacent P s = true.
Proof.
  rewrite no_adjacent_cons. destruct s as [|b s]; [done|]. by intros [_ ?]%andb_prop.
Qed.

(** What [no_adjacent] says about the occurrences of two neighbours. *)
Lemma no_adjacent_spec P s pre a b post :
  no_adjacent P s = true → s = pre +:+ String a (String b post) → P a && P b = false.
Proof.
  revert s. induction pre as [|c pre IH]; intros s Hs ->.
  - rewrite app_empty_l, no_adjacent_cons in Hs.
    apply andb_prop in Hs as [Hs _]. by apply negb_true_iff in Hs.
  - rewrite app_cons in Hs. apply no_adjacent_tail in Hs. by eapply IH.
Qed.

(** [collapse] keeps the first character. *)
Lemma collapse_head c a s : ∃ t, collapse c (String a s) = String a t.
Proof.
  revert a. induction s as [|b s IH]; intros a; [by eexists|].
  change (collapse c (String a (String b s)))
    with (if Ascii.eqb a c && Ascii.eqb b c then collapse c (String b s)
          else String a (collapse c (String b s))).
  destruct (Ascii.eqb a c && Ascii.eqb b c) eqn:Hab; [|by eexists].
  apply andb_prop in Hab as [->%Ascii.eqb_eq ->%Ascii.eqb_eq]. apply IH.
Qed.

Lemma collapse_cons c a b s :
  collapse c (String a (String b s))
    = if Ascii.eqb a c && Ascii.eqb b c then collapse c (String b s)
      else String a (collapse c (String b s)).
Proof. done. Qed.

(** A run of [c] does not survive [collapse c]. *)
Lemma collapse_no_adjacent c s : no_adjacent (Ascii.eqb c) (collapse c s) = true.
Proof.
  induction s as [|a s IH]; [done|]. destruct s as [|b s]; [done|].
  rewrite collapse_cons.
  destruct (Ascii.eqb a c && Ascii.eqb b c) eqn:Hab; [done|].
  destruct (collapse_head c b s) as [t Ht]. rewrite Ht in *.
  rewrite no_adjacent_cons, IH, andb_true_r. apply negb_true_iff.
  by rewrite (Ascii.eqb_sym c a), (Ascii.eqb_sym c b).
Qed.

(** [collapse] brings no two characters together that were apart. *)
Lemma collapse_preserves P c s :
  no_adjacent P s = true → no_adjacent P (collapse c s) = true.
Proof.
  induction s as [|a s IH]; [done|]. destruct s as [|b s]; [done|].
  rewrite collapse_cons. intros Hs.
  pose proof (no_adjacent_tail _ _ _ Hs) as Hs'.
  destruct (Ascii.eqb a c && Ascii.eqb b c); [by apply IH|].
  destruct (collapse_head c b s) as [t Ht]. rewrite Ht in *.
  rewrite no_adjacent_cons. rewrite (IH Hs'), andb_true_r.
  rewrite no_adjacent_cons in Hs. by apply andb_prop in Hs as [? _].
Qed.

Lemma squeeze_no_adjacent st s : no_adjacent is_punct (squeeze st s) = true.
Proof.
  revert st. induction s as [|c s IH]; intros st.
  - by destruct st.
  - change (squeeze st (String c s))
      with (if is_punct c then squeeze (match st with Idle => One c | _ => Many end) s
            else match st with
                 | Idle => String c (squeeze Idle s)
                 | One p => String p (String c (squeeze Idle s))
                 | Many => String " " (String c (squeeze Idle s))
                 end).
    destruct (is_punct c) eqn:Hc; [apply IH|].
    destruct st as [|p|].
    + by rewrite no_adjacent_free.
    + rewrite no_adjacent_cons, Hc, andb_false_r. simpl negb. rewrite andb_true_l.
      by rewrite no_adjacent_free.
    + rewrite no_adjacent_free by done. by rewrite no_adjacent_free.
Qed.

Lemma lstrip_preserves P s : no_adjacent P s = true → no_adjacent P (lstrip s) = true.
Proof.
  induction s as [|a s IH]; [done|]. simpl. destruct (isspace a); [|done].
  intros Hs. apply IH. by eapply no_adjacent_tail.
Qed.

Lemma rstrip_head s b r : rstrip s = String b r → ∃ t, s = String b t.
Proof.
  destruct s as [|a s]; [done|]. simpl.
  destruct (rstrip s); [destruct (isspace a)|]; intros [= <- _]; by eexists.
Qed.

Lemma rstrip_preserves P s : no_adjacent P s = true → no_adjacent P (rstrip s) = true.
Proof.
  induction s as [|a s IH]; [done|]. intros Hs.
  pose proof (no_adjacent_tail _ _ _ Hs) as Hs'. specialize (IH Hs'). simpl.
  destruct (rstrip s) as [|b r] eqn:Hr; [by destruct (isspace a)|].
  apply rstrip_head in Hr as [t ->].
  rewrite no_adjacent_cons, IH, andb_true_r.
  rewrite no_adjacent_cons in Hs. by apply andb_prop in Hs as [? _].
Qed.

Lemma strip_preserves P s : no_adjacent P s = true → no_adjacent P (strip s) = true.
Proof. intros Hs. by apply rstrip_preserves, lstrip_preserves. Qed.

Lemma rstrip_idemp s : rstrip (rstrip s) = rstrip s.
Proof.
  induction s as [|a s IH]; [done|]. simpl.
  destruct (rstrip s) as [|b r] eqn:Hr.
  - destruct (isspace a) eqn:Ha; [done|]. simpl. by rewrite Ha.
  - change (rstrip (String a (String b r)))
      with (match rstrip (String b r) with
            | "" => if isspace a then "" else String a ""
            | r' => String a r'
            end).
    by rewrite IH.
Qed.

Lemma lstrip_unspaced a s : isspace a = false → lstrip (String a s) = String a s.
Proof. intros Ha. simpl. by rewrite Ha. Qed.

Lemma lstrip_head s : lstrip s = "" ∨ ∃ a t, lstrip s = String a t ∧ isspace a = false.
Proof.
  induction s as [|a s IH]; [by left|]. simpl.
  destruct (isspace a) eqn:Ha; [done|]. right. by exists a, s.
Qed.

Lemma rstrip_unspaced_head a t :
  isspace a = false → ∃ r, rstrip (String a t) = String a r.
Proof. intros Ha. simpl. destruct (rstrip t); rewrite ?Ha; by eexists. Qed.

(** Stripping twice is stripping once. *)
Lemma strip_idemp s : strip (strip s) = strip s.
Proof.
  unfold strip.
  destruct (lstrip_head s) as [->|(a & t & -> & Ha)]; [done|].
  destruct (rstrip_unspaced_head a t Ha) as [r Hr]. rewrite Hr.
  rewrite (lstrip_unspaced _ _ Ha), <- Hr. apply rstrip_idemp.
Qed.

(** X1.  The output of [clean_text] has no white space at either end; no
    two neighbouring characters of it are both spaces, or both line
    feeds, or both among [.], [-] and [_]. *)
Theorem clean_text_normal_form text :
  strip (clean_text text) = clean_text text ∧
  ∀ pre a b post, clean_text text = pre +:+ String a (String b post) →
    ¬ (a = " "%char ∧ b = " "%char) ∧
    ¬ (a = newline ∧ b = newline) ∧
    ¬ (is_punct a = true ∧ is_punct b = true).
Proof.
  split; [apply strip_idemp|]. intros pre a b post Heq.
  set (t1 := squeeze Idle (drop_rules None text)).
  assert (no_adjacent is_punct (clean_text text) = true) as Hp.
  { apply strip_preserves, collapse_preserves, collapse_preserves, squeeze_no_adjacent. }
  assert (no_adjacent (Ascii.eqb newline) (clean_text text) = true) as Hn.
  { apply strip_preserves, collapse_preserves, collapse_no_adjacent. }
  assert (no_adjacent (Ascii.eqb " ") (clean_text text) = true) as Hs.
  { apply strip_preserves, collapse_no_adjacent. }
  pose proof (no_adjacent_spec _ _ _ _ _ _ Hp Heq) as Hp'.
  pose proof (no_adjacent_spec _ _ _ _ _ _ Hn Heq) as Hn'.
  pose proof (no_adjacent_spec _ _ _ _ _ _ Hs Heq) as Hs'.
  split; [|split].
  - intros [-> ->]. done.
  - intros [-> ->]. done.
  - intros [Ha Hb]. by rewrite Ha, Hb in Hp'.
Qed.

End CleanText.

(** ** Pages, chunks and embeddings *)

Section Pages.
Import DocProcessor.
Context {F : Type} (sv : services F).

Lemma extract_pages_cons raw pages k :
  extract_pages sv (raw :: pages) k
    = if negb (blank raw)
      then {| pt_text := clean_text sv raw; pt_page_no := k + 1 |}
           :: extract_pages sv pages (k + 1)
      else extract_pages sv pages (k + 1).
Proof. by rewrite <- truthy_strip. Qed.

Lemma page_chunks_cons page_no k piece pieces :
  page_chunks page_no k (piece :: pieces)
    = if negb (blank piece)
      then {| ch_text := strip piece; ch_page_no := page_no; ch_chunk_in_page := k + 1 |}
           :: page_chunks page_no (k + 1) pieces
      else page_chunks page_no (k + 1) pieces.
Proof. by rewrite <- truthy_strip. Qed.

Lemma extract_pages_elem pages k p :
  p ∈ extract_pages sv pages k ↔
  ∃ i raw, pages !! i = Some raw ∧ blank raw = false ∧
           p = {| pt_text := clean_text sv raw; pt_page_no := k + i + 1 |}.
Proof.
  revert k. induction pages as [|raw pages IH]; intros k.
  - split; [by intros ?%elem_of_nil|]. by intros (i & r & Hi & _).
  - rewrite extract_pages_cons.
    assert (p ∈ extract_pages sv pages (k + 1) ↔
            ∃ i r, (raw :: pages) !! S i = Some r ∧ blank r = false ∧
                   p = {| pt_text := clean_text sv r; pt_page_no := k + S i + 1 |}) as Hrest.
    { rewrite IH. split; intros (i & r & Hi & Hb & ->); exists i, r;
        (split; [done|]); (split; [done|]); f_equal; lia. }
    destruct (blank raw) eqn:Hb; simpl.
    + rewrite Hrest. split.
      * intros (i & r & ?). by exists (S i), r.
      * intros ([|i] & r & Hi & Hb' & Hp); [|by exists i, r].
        simpl in Hi. injection Hi as <-. congruence.
    + rewrite elem_of_cons, Hrest. split.
      * intros [->|(i & r & ?)]; [|by exists (S i), r].
        exists 0%nat, raw. by rewrite Nat.add_0_r.
      * intros ([|i] & r & Hi & Hb' & Hp); [|right; by exists i, r].
        simpl in Hi. injection Hi as <-. left. by rewrite Nat.add_0_r in Hp.
Qed.

Lemma extract_pages_sorted pages k :
  StronglySorted lt (pt_page_no <$> extract_pages sv pages k).
Proof.
  revert k. induction pages as [|raw pages IH]; intros k; [constructor|].
  rewrite extract_pages_cons.
  destruct (negb (blank raw)); [|apply IH]. rewrite fmap_cons. constructor; [apply IH|].
  apply Forall_forall. intros n (p & -> & Hp)%list_elem_of_fmap.
  apply extract_pages_elem in Hp as (i & r & _ & _ & ->). simpl. lia.
Qed.

(** X2.  [extract_text_with_pages] numbers the pages from 1 by their
    position in the file, keeps exactly the pages that are not blank,
    each with its cleaned text, and lists them with strictly increasing
    page numbers. *)
Theorem extract_pages_numbering pages :
  StronglySorted lt (pt_page_no <$> extract_pages sv pages 0) ∧
  ∀ p, p ∈ extract_pages sv pages 0 ↔
       ∃ raw, (0 < pt_page_no p)%nat ∧
              pages !! (pt_page_no p - 1)%nat = Some raw ∧
              blank raw = false ∧ pt_text p = clean_text sv raw.
Proof.
  split; [apply extract_pages_sorted|]. intros p. rewrite extract_pages_elem. split.
  - intros (i & raw & Hi & Hb & ->). exists raw. simpl.
    replace (i + 1 - 1)%nat with i by lia. repeat split; try done. lia.
  - intros (raw & Hpos & Hi & Hb & Ht). exists (pt_page_no p - 1)%nat, raw.
    split; [done|]. split; [done|]. destruct p as [t n]. simpl in *. subst t.
    f_equal. lia.
Qed.

Lemma page_chunks_elem page_no k pieces c :
  c ∈ page_chunks page_no k pieces ↔
  ∃ i piece, pieces !! i = Some piece ∧ blank piece = false ∧
             c = {| ch_text := strip piece; ch_page_no := page_no;
                    ch_chunk_in_page := k + i + 1 |}.
Proof.
  revert k. induction pieces as [|piece pieces IH]; intros k.
  - split; [by intros ?%elem_of_nil|]. by intros (i & r & Hi & _).
  - rewrite page_chunks_cons.
    assert (c ∈ page_chunks page_no (k + 1) pieces ↔
            ∃ i r, (piece :: pieces) !! S i = Some r ∧ blank r = false ∧
                   c = {| ch_text := strip r; ch_page_no := page_no;
                          ch_chunk_in_page := k + S i + 1 |}) as Hrest.
    { rewrite IH. split; intros (i & r & Hi & Hb & ->); exists i, r;
        (split; [done|]); (split; [done|]); f_equal; lia. }
    destruct (blank piece) eqn:Hb; simpl.
    + rewrite Hrest. split.
      * intros (i & r & ?). by exists (S i), r.
      * intros ([|i] & r & Hi & Hb' & Hp); [|by exists i, r].
        simpl in Hi. injection Hi as <-. congruence.
    + rewrite elem_of_cons, Hrest. split.
      * intros [->|(i & r & ?)]; [|by exists (S i), r].
        exists 0%nat, piece. by rewrite Nat.add_0_r.
      * intros ([|i] & r & Hi & Hb' & Hp); [|right; by exists i, r].
        simpl in Hi. injection Hi as <-. left. by rewrite Nat.add_0_r in Hp.
Qed.

Lemma page_chunks_sorted page_no k pieces :
  StronglySorted chunk_before (page_chunks page_no k pieces).
Proof.
  revert k. induction pieces as [|piece pieces IH]; intros k; [constructor|].
  rewrite page_chunks_cons.
  destruct (negb (blank piece)); [|apply IH]. constructor; [apply IH|].
  apply Forall_forall. intros c (i & r & _ & _ & ->)%page_chunks_elem.
  right. simpl. split; [done|lia].
Qed.

Lemma chunk_text_with_metadata_elem page_texts c :
  c ∈ chunk_text_with_metadata sv page_texts ↔
  ∃ p i piece, p ∈ page_texts ∧ split_text sv (pt_text p) !! i = Some piece ∧
               blank piece = false ∧
               c = {| ch_text := strip piece; ch_page_no := pt_page_no p;
                      ch_chunk_in_page := i + 1 |}.
Proof.
  induction page_texts as [|p ps IH]; simpl.
  - split; [by intros ?%elem_of_nil|]. by intros (p & i & piece & ?%elem_of_nil & _).
  - rewrite elem_of_app, page_chunks_elem, IH. split.
    + intros [(i & piece & Hi & Hb & ->)|(q & i & piece & Hq & Hi & Hb & ->)].
      * exists p, i, piece. split; [by left|]. done.
      * exists q, i, piece. split; [by right|]. done.
    + intros (q & i & piece & [->|Hq]%elem_of_cons & Hi & Hb & ->).
      * left. by exists i, piece.
      * right. by exists q, i, piece.
Qed.

Lemma chunk_text_with_metadata_sorted page_texts :
  StronglySorted lt (pt_page_no <$> page_texts) →
  StronglySorted chunk_before (chunk_text_with_metadata sv page_texts).
Proof.
  induction page_texts as [|p ps IH]; [constructor|].
  rewrite fmap_cons. intros [Hps Hp]%StronglySorted_inv.
  change (chunk_text_with_metadata sv (p :: ps))
    with (page_chunks (pt_page_no p) 0 (split_text sv (pt_text p))
          ++ chunk_text_with_metadata sv ps)%list.
  apply StronglySorted_app_2; [|apply page_chunks_sorted|by apply IH].
  intros c1 c2 (i & piece & _ & _ & ->)%page_chunks_elem
    (q & j & piece' & Hq & _ & _ & ->)%chunk_text_with_metadata_elem.
  left. simpl. rewrite Forall_forall in Hp. apply Hp. by apply list_elem_of_fmap_2.
Qed.

(** X3.  Every chunk comes from one piece of the splitter's output for
    one page: its text is that piece stripped and is not empty, its page
    number is the page's, and its ordinal is the position of the piece in
    that output, counted from 1 with blank pieces included.  Over the
    extracted pages the chunks are in strictly increasing order of page
    and ordinal, so no two chunks share both. *)
Theorem chunks_come_from_one_page pages :
  let cs := chunk_text_with_metadata sv (extract_pages sv pages 0) in
  StronglySorted chunk_before cs ∧
  ∀ c, c ∈ cs ↔
       ∃ p piece, p ∈ extract_pages sv pages 0 ∧
                  ch_page_no c = pt_page_no p ∧
                  (1 ≤ ch_chunk_in_page c)%nat ∧
                  split_text sv (pt_text p) !! (ch_chunk_in_page c - 1)%nat = Some piece ∧
                  blank piece = false ∧
                  ch_text c = strip piece ∧ ch_text c ≠ "" ∧ strip (ch_text c) = ch_text c.
Proof.
  split; [apply chunk_text_with_metadata_sorted, extract_pages_sorted|].
  intros c. rewrite chunk_text_with_metadata_elem. split.
  - intros (p & i & piece & Hp & Hi & Hb & ->). exists p, piece. simpl.
    replace (i + 1 - 1)%nat with i by lia. repeat split; try done; try lia.
    + intros E%strip_empty. congruence.
    + apply strip_idemp.
  - intros (p & piece & Hp & Hno & Hord & Hi & Hb & Ht & _).
    exists p, (ch_chunk_in_page c - 1)%nat, piece. repeat split; try done.
    destruct c as [t n o]. simpl in *. subst. f_equal. lia.
Qed.

Lemma zip_chunks_prefix cs (es : list (list F)) :
  ec_chunk <$> zip_chunks cs es = take (length es) cs ∧
  ec_embedding <$> zip_chunks cs es = take (length cs) es.
Proof.
  revert es. induction cs as [|c cs IH]; intros [|e es]; try done.
  destruct (IH es) as [Hc He].
  change (zip_chunks (c :: cs) (e :: es))
    with ({| ec_chunk := c; ec_embedding := e |} :: zip_chunks cs es).
  rewrite !fmap_cons, Hc, He. done.
Qed.

Lemma embed_each_length texts es : embed_each sv texts = Ok es → length es = length texts.
Proof.
  revert es. induction texts as [|t ts IH]; intros es; simpl; [by intros [= <-]|].
  destruct (embed_query sv t); simpl; [|done].
  destruct (embed_each sv ts) as [es'|]; simpl; [|done].
  intros [= <-]. simpl. f_equal. by apply IH.
Qed.

(** X4.  [embed_chunks] never reorders or alters chunks: the chunks of
    its result are a prefix of its input, cut only when the batch call
    returns fewer embeddings than texts.  When the batch call raises and
    the texts are embedded one by one, or when it returns one embedding
    per text, every chunk is kept. *)
Theorem embed_chunks_keeps_order cs ecs :
  embed_chunks sv cs = Ok ecs →
  ec_chunk <$> ecs `prefix_of` cs ∧
  match embed_documents sv (ch_text <$> cs) with
  | Raise _ => ec_chunk <$> ecs = cs
  | Ok es =>
      ec_chunk <$> ecs = take (length es) cs ∧
      ec_embedding <$> ecs = take (length cs) es ∧
      (length es = length cs → ec_chunk <$> ecs = cs ∧ ec_embedding <$> ecs = es)
  end.
Proof.
  unfold embed_chunks.
  change (map ch_text cs) with (ch_text <$> cs).
  destruct (embed_documents sv (ch_text <$> cs)) as [es|] eqn:Hb; simpl.
  - intros [= <-]. destruct (zip_chunks_prefix cs es) as [Hc He].
    split; [rewrite Hc; apply prefix_take|]. split; [done|]. split; [done|].
    intros Hlen. rewrite Hc, He, Hlen. by rewrite firstn_all, <- Hlen, firstn_all.
  - destruct (embed_each sv (ch_text <$> cs)) as [es|] eqn:He; simpl; [|done].
    intros [= <-]. apply embed_each_length in He. rewrite length_fmap in He.
    destruct (zip_chunks_prefix cs es) as [Hc _]. rewrite Hc, He, firstn_all. done.
Qed.

End Pages.

Section PagesExamples.
Import DocProcessor.

Lemma embed_chunks_keeps_order_witness :
  ∃ ecs,
    embed_chunks Sample.sv
      [ {| ch_text := "alpha"; ch_page_no := 1; ch_chunk_in_page := 1 |};
        {| ch_text := "beta"; ch_page_no := 1; ch_chunk_in_page := 2 |} ] = Ok ecs ∧
    ec_chunk <$> ecs
      = [ {| ch_text := "alpha"; ch_page_no := 1; ch_chunk_in_page := 1 |};
          {| ch_text := "beta"; ch_page_no := 1; ch_chunk_in_page := 2 |} ].
Proof.
  eexists. split; [reflexivity|].
  destruct (embed_chunks_keeps_order Sample.sv
              [ {| ch_text := "alpha"; ch_page_no := 1; ch_chunk_in_page := 1 |};
                {| ch_text := "beta"; ch_page_no := 1; ch_chunk_in_page := 2 |} ]
              _ eq_refl) as [_ H].
  cbn in H. destruct H as (_ & _ & H). by destruct (H eq_refl).
Defined.

(** A page or a piece that consists of no-break spaces is blank. *)
Lemma extract_pages_no_break_space :
  extract_pages Sample.sv [String (ascii_of_nat 160) ""; "gamma"] 0
    = [ {| pt_text := clean_text Sample.sv "gamma"; pt_page_no := 2 |} ] ∧
  chunk_text_with_metadata Sample.sv
    [ {| pt_text := String (ascii_of_nat 160) ";delta"; pt_page_no := 1 |} ]
    = [ {| ch_text := "delta"; ch_page_no := 1; ch_chunk_in_page := 2 |} ].
Proof. split; reflexivity. Qed.

End PagesExamples.

(** ** More on the context formatter *)

Section FormatterMore.
Import LLMContextFormatter.

Lemma format_chunk_item chunk item :
  format_chunk chunk = Ok (Some item) →
  ∃ t, kept_text chunk = Some t ∧
       item = {[ "document" := resolved_label chunk; "text" := PyStr t ]}.
Proof.
  unfold format_chunk, kept_text, chunk_text.
  destruct (default (PyStr "") (c_text chunk)) as [t| |]; simpl; try done.
  fold (truthy (PyStr (strip t))). rewrite truthy_strip.
  destruct (blank t); simpl; [done|]. intros [= <-]. exists (strip t). split; [done|].
  f_equal. unfold resolved_label, label_candidates, py_or. simpl.
  repeat (destruct (truthy (dict_get _ _ _)); [done|]). done.
Qed.

Lemma format_chunks_elem cs context out item :
  format_chunks cs context = Ok out → item ∈ out →
  item ∈ context ∨ ∃ c, c ∈ cs ∧ format_chunk c = Ok (Some item).
Proof.
  revert context. induction cs as [|c cs IH]; intros context; simpl.
  - intros [= <-]. by left.
  - destruct (format_chunk c) as [o|] eqn:Hc; simpl; [|done].
    intros Hout Hin. destruct (IH _ Hout Hin) as [Hctx|(c' & Hc' & Hf)].
    + destruct o as [it|]; [|by left].
      apply elem_of_app in Hctx as [?|Hit]; [by left|].
      apply list_elem_of_singleton in Hit as ->.
      right. exists c. split; [by left|done].
    + right. exists c'. split; [by right|done].
Qed.

Lemma resolved_label_truthy c : truthy (resolved_label c) = true.
Proof.
  unfold resolved_label. destruct (List.find truthy (label_candidates c)) as [v|] eqn:Hf.
  - by apply find_some in Hf as [_ ?].
  - done.
Qed.

(** X5.  Every item of the formatted context stems from one chunk of a
    successful result: it has exactly the keys ["document"] and
    ["text"], its text is the stripped text of the chunk, and its label
    is the first truthy one of the chunk's [document_name], [filename],
    [source] and [document] metadata, else [Document_Chunk_<chunk id>];
    the label is never empty. *)
Theorem format_rag_context_items results item :
  item ∈ format_rag_context results →
  ∃ r chunk t,
    results = Some r ∧ success r = true ∧
    chunk ∈ default [] (relevant_chunks r) ∧
    kept_text chunk = Some t ∧
    item = {[ "document" := resolved_label chunk; "text" := PyStr t ]} ∧
    dom item = ({[ "document"; "text" ]} : gset string) ∧
    truthy (resolved_label chunk) = true.
Proof.
  unfold format_rag_context, format_rag_context_try.
  destruct results as [r|]; [|by intros ?%elem_of_nil].
  destruct (success r) eqn:Hs; simpl; [|by intros ?%elem_of_nil].
  destruct (format_chunks _ _) as [out|] eqn:Hf; [|by intros ?%elem_of_nil].
  intros Hin. destruct (format_chunks_elem _ _ _ _ Hf Hin) as [?%elem_of_nil|(c & Hc & Hfc)];
    [done|].
  apply format_chunk_item in Hfc as (t & Ht & ->).
  exists r, c, t. do 5 (split; [done|]). split; [|apply resolved_label_truthy].
  apply set_eq. intros k. rewrite elem_of_dom, elem_of_union, !elem_of_singleton.
  destruct (decide (k = "document")) as [->|Hd].
  { rewrite lookup_insert_eq. split; eauto. }
  rewrite lookup_insert_ne by done.
  destruct (decide (k = "text")) as [->|Hk].
  { rewrite lookup_singleton_eq. split; eauto. }
  rewrite lookup_singleton_ne by done. split; [by intros [? ?]|by intros [?|?]].
Qed.

Lemma format_rag_context_items_witness :
  let chunk := {| c_chunk_id := Some (PyStr "d_1"); c_text := Some (PyStr " intro ");
                  c_metadata := Some {[ "document_name" := PyStr "";
                                        "filename" := PyStr "a.pdf" ]} |} in
  let item : gmap string pyval := {[ "document" := PyStr "a.pdf"; "text" := PyStr "intro" ]} in
  item ∈ format_rag_context (Some {| success := true; relevant_chunks := Some [chunk] |}) ∧
  dom item = ({[ "document"; "text" ]} : gset string).
Proof.
  intros chunk item.
  assert (item ∈ format_rag_context
                   (Some {| success := true; relevant_chunks := Some [chunk] |})) as Hin
    by (apply list_elem_of_singleton; reflexivity).
  split; [exact Hin|].
  destruct (format_rag_context_items _ _ Hin) as (r & c & t & _ & _ & _ & _ & _ & Hdom & _).
  exact Hdom.
Defined.

Lemma length_flat_map_entry_pair entries :
  (length (flat_map entry_pair entries) ≤ 2 * length entries)%nat.
Proof.
  induction entries as [|e es IH]; simpl; [lia|]. rewrite length_app.
  destruct (entry_pair_shape e) as [->|(u & a & _ & _ & ->)]; simpl; lia.
Qed.

(** X6.  For a positive [max_entries], [format_chat_history] reads only
    the last [max_entries] entries: its output is empty or the pairs of
    the complete entries among them, in order; it alternates user and
    assistant messages with non-empty contents and has at most
    [2 * min(len(history), max_entries)] messages. *)
Theorem format_chat_history_window history max_entries :
  0 < max_entries →
  let out := format_chat_history history max_entries in
  (out = [] ∨
   out = flat_map entry_pair (drop (length history - Z.to_nat max_entries) history)) ∧
  paired out ∧
  (length out ≤ 2 * Nat.min (length history) (Z.to_nat max_entries))%nat.
Proof.
  intros Hpos out.
  destruct (format_chat_history_positive history max_entries Hpos) as (Hout & Hp & _).
  split; [done|]. split; [done|]. subst out.
  destruct Hout as [->| ->]; [simpl; lia|].
  etrans; [apply length_flat_map_entry_pair|]. rewrite length_drop. lia.
Qed.

Lemma format_chat_history_window_witness :
  let history : list (gmap string pyval) :=
    [ {[ "user" := PyStr "q1"; "assistant" := PyStr "a1" ]};
      {[ "user" := PyStr "q2"; "assistant" := PyStr "a2" ]};
      {[ "user" := PyStr "q3"; "assistant" := PyStr "" ]} ] in
  format_chat_history history 2 = [message "user" "q2"; message "assistant" "a2"] ∧
  (length (format_chat_history history 2) ≤ 4)%nat.
Proof.
  intros history. split; [reflexivity|].
  destruct (format_chat_history_window history 2) as (_ & _ & Hlen); [lia|]. exact Hlen.
Defined.

(** An entry whose assistant text is a no-break space is not complete. *)
Lemma format_chat_history_no_break_space :
  format_chat_history
    [ {[ "user" := PyStr "q1"; "assistant" := PyStr "a1" ]};
      {[ "user" := PyStr "q2"; "assistant" := PyStr (String (ascii_of_nat 160) "") ]} ] 10
    = [message "user" "q1"; message "assistant" "a1"].
Proof. reflexivity. Qed.

End FormatterMore.

(** ** More on citations *)

Section CitationsMore.
Import LLMContextFormatter.

(** What any citation made for position [i] looks like. *)
Lemma cite_item_shape i item response c :
  cite_item i item response = Ok (Some c) →
  c !! "citationId" = Some (citation_id i) ∧
  c !! "source" = Some (dict_get item "document" (PyStr "")) ∧
  c !! "page" = Some PyNone ∧ c !! "link" = Some PyNone ∧
  ∃ t, dict_get item "text" (PyStr "") = PyStr t ∧
       c !! "text" = Some (PyStr (citation_text t)) ∧
       (String.length (citation_text t) ≤ 203)%nat.
Proof.
  unfold cite_item.
  destruct (truthy _ && truthy _); [|done].
  destruct (referenced _ _ _) as [[|]|]; simpl; try done.
  destruct (dict_get item "text" (PyStr "")) as [t| |]; simpl; try done.
  intros [= <-]. repeat split; try done. exists t. repeat split; try done.
  unfold citation_text, len. destruct (Z.ltb_spec 200 (Z.of_nat (String.length t))).
  - rewrite str_length_app, length_str_take.
    change (String.length "...") with 3%nat. lia.
  - lia.
Qed.

Lemma cite_items_indices rag_context response k acc out :
  cite_items k rag_context response acc = Ok out →
  ∃ new js, out = (acc ++ new)%list ∧
            js `sublist_of` seq k (length rag_context) ∧
            Forall2 (fun c j => ∃ item, rag_context !! (j - k)%nat = Some item ∧
                                        cite_item j item response = Ok (Some c)) new js.
Proof.
  revert k acc out. induction rag_context as [|item rest IH]; intros k acc out; simpl.
  - intros [= <-]. exists [], []. by rewrite app_nil_r.
  - destruct (cite_item k item response) as [o|] eqn:Hc; simpl; [|done].
    intros (new & js & -> & Hsub & Hall)%IH.
    assert (Forall2 (fun c j => ∃ it, (item :: rest) !! (j - k)%nat = Some it ∧
                                      cite_item j it response = Ok (Some c)) new js) as Hall'.
    { assert (Forall (fun j => S k ≤ j)%nat js) as Hge.
      { apply Forall_forall. intros j Hj. eapply elem_of_sublist in Hj; [|done].
        apply elem_of_seq in Hj. lia. }
      clear Hsub. induction Hall as [|c j new js (it & Hit & Hci) _ IH']; [constructor|].
      apply Forall_cons in Hge as [Hj Hge]. constructor; [|by apply IH'].
      exists it. split; [|done].
      replace (j - k)%nat with (S (j - S k)) by lia. done. }
    destruct o as [c|].
    + exists (c :: new), (k :: js). split; [by rewrite <- app_assoc|].
      split; [by apply sublist_skip|]. constructor; [|done].
      exists item. by rewrite Nat.sub_diag.
    + exists new, js. split; [done|]. split; [by apply sublist_cons|done].
Qed.

(** X7.  Whatever the context and the response, [extract_citations_from_
    context] returns at most one citation per context item, in context
    order, each under the id [auto_citation_<position>], so no two share
    an id; the source of a citation is the label of its item, its page
    and link are [None], and its text has at most 203 characters. *)
Theorem extract_citations_shape rag_context response :
  let cits := extract_citations_from_context rag_context response in
  (length cits ≤ length rag_context)%nat ∧
  NoDup ((fun c => c !! "citationId") <$> cits) ∧
  ∃ js, js `sublist_of` seq 0 (length rag_context) ∧
        Forall2 (fun c j =>
                   ∃ item t, rag_context !! j = Some item ∧
                             c !! "citationId" = Some (citation_id j) ∧
                             c !! "source" = Some (dict_get item "document" (PyStr "")) ∧
                             c !! "text" = Some (PyStr t) ∧
                             (String.length t ≤ 203)%nat ∧
                             c !! "page" = Some PyNone ∧ c !! "link" = Some PyNone)
          cits js.
Proof.
  unfold extract_citations_from_context.
  destruct (cite_items 0 rag_context response []) as [out|] eqn:Hc.
  2:{ split; [simpl; lia|]. split; [constructor|]. exists []. split; [apply sublist_nil_l|constructor]. }
  apply cite_items_indices in Hc as (new & js & -> & Hsub & Hall). simpl.
  assert ((fun c : gmap string pyval => c !! "citationId") <$> new
          = (fun j => Some (citation_id j)) <$> js) as Hids.
  { clear Hsub. induction Hall as [|c j new js (it & _ & Hci) _ IH]; [done|].
    rewrite !fmap_cons, IH. f_equal. by apply cite_item_shape in Hci as (-> & _). }
  split; [|split].
  - rewrite (Forall2_length _ _ _ Hall). apply sublist_length in Hsub.
    by rewrite length_seq in Hsub.
  - rewrite Hids. apply NoDup_fmap_2.
    + intros i j [= E]. change (pretty i = pretty j) in E. by apply (inj pretty) in E.
    + eapply sublist_NoDup; [apply NoDup_seq|exact Hsub].
  - exists js. split; [done|]. eapply Forall2_impl; [done|].
    intros c j (it & Hit & Hci). rewrite Nat.sub_0_r in Hit.
    apply cite_item_shape in Hci as (? & ? & ? & ? & t & _ & ? & ?).
    by exists it, (citation_text t).
Qed.

Lemma lower_empty s : lower s = "" → s = "".
Proof. by destruct s. Qed.

Lemma split_nonempty s w : w ∈ split s → w ≠ "".
Proof.
  revert w. induction s as [|c s IH]; intros w; simpl; [by intros ?%elem_of_nil|].
  destruct (isspace c); [apply IH|].
  destruct s as [|c' s]; [by intros ->%list_elem_of_singleton|].
  destruct (isspace c').
  - intros [->|Hw]%elem_of_cons; [done|]. by apply IH.
  - destruct (split (String c' s)) as [|w' ws] eqn:Hs.
    + by intros ->%list_elem_of_singleton.
    + intros [->|Hw]%elem_of_cons; [done|]. apply IH. by right.
Qed.

Lemma contains_in_empty needle : needle ≠ "" → contains needle "" = false.
Proof. by destruct needle. Qed.

Lemma referenced_silent d t : d ≠ "" → referenced (PyStr d) (PyStr t) "" = Ok false.
Proof.
  intros Hd. unfold referenced. cbv [mbind exc_bind as_str mret exc_ret].
  change (lower "") with "".
  rewrite contains_in_empty by (by intros ?%lower_empty).
  f_equal. apply not_true_is_false. intros (w & Hin & Hw)%existsb_exists.
  apply list_elem_of_In, elem_of_take in Hin as (j & Hin & _).
  apply list_elem_of_lookup_2, split_nonempty in Hin.
  by rewrite contains_in_empty in Hw.
Qed.

Lemma cite_item_silent i item o :
  cite_item i item "" = Ok o → o = None.
Proof.
  unfold cite_item.
  destruct (truthy (dict_get item "document" _)) eqn:Td; [|by intros [= <-]].
  destruct (truthy (dict_get item "text" _)) eqn:Tt; [|by intros [= <-]].
  cbv [andb].
  destruct (dict_get item "document" _) as [d| |]; try done.
  destruct (dict_get item "text" _) as [t| |]; try done.
  - apply truthy_str in Td. rewrite (referenced_silent d t Td). by intros [= <-].
  - apply truthy_str in Td. unfold referenced. cbv [mbind exc_bind as_str mret exc_ret].
    change (lower "") with "". rewrite contains_in_empty by (by intros ?%lower_empty). done.
Qed.

Lemma cite_items_silent rag_context k acc out :
  cite_items k rag_context "" acc = Ok out → out = acc.
Proof.
  revert k acc. induction rag_context as [|item rest IH]; intros k acc; simpl.
  - by intros [= <-].
  - destruct (cite_item k item "") as [o|] eqn:Hc; simpl; [|done].
    apply cite_item_silent in Hc as ->. apply IH.
Qed.

(** X8.  An empty response cites nothing, whatever the context. *)
Theorem extract_citations_empty_response rag_context :
  extract_citations_from_context rag_context "" = [].
Proof.
  unfold extract_citations_from_context.
  destruct (cite_items 0 rag_context "" []) as [out|] eqn:Hc; [|done].
  by apply cite_items_silent in Hc.
Qed.

End CitationsMore.

(** ** More on the token budget *)

Section BudgetMore.
Import LLMContextFormatter.

Lemma typed_texts_of key l :
  Forall (typed key) l → ∃ ts, texts_of key l = Ok ts ∧ length ts = length l ∧
    tokens_sum key l = foldr (fun t acc => estimate_token_count t + acc) 0 ts.
Proof.
  induction 1 as [|d l [t Ht] _ (ts & Hts & Hlen & Hsum)]; [by exists []|].
  exists (t :: ts). simpl. rewrite Ht, Hts. simpl. split; [done|]. split; [by rewrite Hlen|].
  unfold item_tokens. by rewrite Ht, Hsum.
Qed.

Lemma len_join ts :
  len (join " " ts)
    = foldr (fun t acc => len t + acc) 0 ts + Z.max 0 (Z.of_nat (length ts) - 1).
Proof.
  induction ts as [|t ts IH]; [done|].
  destruct ts as [|t' ts]; [simpl; lia|].
  change (join " " (t :: t' :: ts)) with (t +:+ " " +:+ join " " (t' :: ts)).
  unfold len in *. rewrite !str_length_app, !Nat2Z.inj_add, IH.
  change (String.length " ") with 1%nat. simpl length. simpl foldr. lia.
Qed.

(** The estimate of the joined text against the sum of the estimates of
    the texts: never less, and more by less than one token per text. *)
Lemma estimate_join ts :
  let sum := foldr (fun t acc => estimate_token_count t + acc) 0 ts in
  sum ≤ estimate_token_count (join " " ts) ≤ sum + Z.of_nat (length ts).
Proof.
  intros sum. unfold estimate_token_count. rewrite len_join.
  assert (4 * sum ≤ foldr (fun t acc => len t + acc) 0 ts
          ≤ 4 * sum + 3 * Z.of_nat (length ts)) as Hb.
  { subst sum. induction ts as [|t ts IH]; simpl; [lia|].
    unfold estimate_token_count in *.
    pose proof (Z.mul_div_le (len t) 4). pose proof (Z.mod_pos_bound (len t) 4).
    pose proof (Z.div_mod (len t) 4). lia. }
  split.
  - apply Z.div_le_lower_bound; lia.
  - apply Z.div_le_upper_bound; lia.
Qed.

Lemma joined_estimate_bounds key l :
  Forall (typed key) l →
  tokens_sum key l ≤ joined_estimate key l ≤ tokens_sum key l + Z.of_nat (length l).
Proof.
  intros (ts & Hts & Hlen & ->)%typed_texts_of.
  unfold joined_estimate, joined_text. rewrite Hts. simpl. rewrite <- Hlen.
  apply estimate_join.
Qed.

Lemma typed_joined_text key l : Forall (typed key) l → ∃ t, joined_text key l = Ok t.
Proof.
  intros (ts & Hts & _)%typed_texts_of. unfold joined_text. rewrite Hts. by eexists.
Qed.

Lemma truncate_context_try_typed rag_context chat_history max_tokens :
  Forall (typed "text") rag_context → Forall (typed "content") chat_history →
  truncate_context_try rag_context chat_history max_tokens
    = Ok (if joined_estimate "text" rag_context + joined_estimate "content" chat_history
             <=? max_tokens
          then (rag_context, chat_history)
          else (greedy "text" rag_context (max_tokens / 2) 0,
                rev (greedy "content" (rev chat_history) (max_tokens / 2) 0))).
Proof.
  intros Hc Hh. unfold truncate_context_try, joined_estimate.
  destruct (typed_joined_text _ _ Hc) as [tc ->].
  destruct (typed_joined_text _ _ Hh) as [th ->]. simpl.
  destruct (_ <=? max_tokens); [done|].
  rewrite (keep_context_greedy _ _ [] 0 Hc). simpl.
  rewrite (keep_history_greedy _ _ [] 0 (Forall_typed_rev _ _ Hh)). simpl.
  by rewrite app_nil_r.
Qed.

Lemma greedy_typed key items budget used :
  Forall (typed key) items → Forall (typed key) (greedy key items budget used).
Proof.
  intros Hty. destruct (greedy_prefix key items budget used) as [k Hk].
  rewrite Hk in Hty at 1. by apply Forall_app in Hty as [? _].
Qed.

(** X9.  When the budget is exceeded, each side is cut at the first item
    that does not fit: the context item that follows the kept prefix, and
    the message that precedes the kept suffix, would each have raised the
    sum of the per-item estimates above [max_tokens // 2].  Later items
    are dropped with it, even where they would have fitted. *)
Theorem truncate_context_stops_at_overflow rag_context chat_history max_tokens :
  Forall (typed "text") rag_context → Forall (typed "content") chat_history →
  max_tokens < joined_estimate "text" rag_context + joined_estimate "content" chat_history →
  let out := truncate_context_if_needed rag_context chat_history max_tokens in
  (∀ d rest, rag_context = (out.1 ++ d :: rest)%list →
             max_tokens / 2 < tokens_sum "text" out.1 + item_tokens "text" d) ∧
  (∀ d rest, chat_history = (rest ++ d :: out.2)%list →
             max_tokens / 2 < tokens_sum "content" out.2 + item_tokens "content" d).
Proof.
  intros Hc Hh Hover out. subst out. unfold truncate_context_if_needed.
  rewrite truncate_context_try_typed by done.
  destruct (Z.leb_spec (joined_estimate "text" rag_context
                        + joined_estimate "content" chat_history) max_tokens); [lia|].
  simpl. split.
  - intros d rest Heq.
    pose proof (greedy_maximal "text" rag_context (max_tokens / 2) 0 (d :: rest) Heq).
    simpl in *. lia.
  - intros d rest Heq. rewrite tokens_sum_rev.
    assert (rev chat_history
            = (greedy "content" (rev chat_history) (max_tokens / 2) 0 ++ d :: rev rest)%list)
      as Heq'.
    { rewrite Heq at 1. rewrite rev_app_distr. simpl. rewrite rev_involutive.
      by rewrite <- app_assoc. }
    pose proof (greedy_maximal "content" (rev chat_history) (max_tokens / 2) 0 _ Heq').
    simpl in *. lia.
Qed.

Lemma truncate_context_stops_at_overflow_witness :
  let item (t : string) : gmap string pyval := {[ "text" := PyStr t ]} in
  let rag_context := [item "0123456789abcdef"; item "0123456789abcdef0123"; item "ab"] in
  (truncate_context_if_needed rag_context [] 8).1 = [item "0123456789abcdef"] ∧
  8 / 2 < tokens_sum "text" [item "0123456789abcdef"]
          + item_tokens "text" (item "0123456789abcdef0123").
Proof.
  intros item rag_context. split; [reflexivity|].
  destruct (truncate_context_stops_at_overflow rag_context [] 8) as [Hctx _].
  - repeat constructor; by eexists.
  - constructor.
  - vm_compute. reflexivity.
  - apply (Hctx (item "0123456789abcdef0123") [item "ab"]). reflexivity.
Defined.

(** X10.  For texts that are strings and a budget that is not negative,
    the estimate of the returned lists, measured as the function measures
    its input (on the joined texts), exceeds [max_tokens] by at most one
    token per returned item. *)
Theorem truncate_context_joined_estimate rag_context chat_history max_tokens :
  Forall (typed "text") rag_context → Forall (typed "content") chat_history →
  0 ≤ max_tokens →
  let out := truncate_context_if_needed rag_context chat_history max_tokens in
  joined_estimate "text" out.1 + joined_estimate "content" out.2
    ≤ max_tokens + Z.of_nat (length out.1) + Z.of_nat (length out.2).
Proof.
  intros Hc Hh Hpos out. subst out. unfold truncate_context_if_needed.
  rewrite truncate_context_try_typed by done.
  destruct (Z.leb_spec (joined_estimate "text" rag_context
                        + joined_estimate "content" chat_history) max_tokens); simpl; [lia|].
  assert (0 ≤ max_tokens / 2) as Hhalf by (apply Z.div_pos; lia).
  pose proof (greedy_within "text" rag_context _ 0 Hhalf) as H1.
  pose proof (greedy_within "content" (rev chat_history) _ 0 Hhalf) as H2.
  pose proof (joined_estimate_bounds "text" _
                (greedy_typed "text" rag_context (max_tokens / 2) 0 Hc)) as [_ B1].
  pose proof (joined_estimate_bounds "content" _
                (Forall_typed_rev _ _
                   (greedy_typed "content" (rev chat_history) (max_tokens / 2) 0
                      (Forall_typed_rev _ _ Hh)))) as [_ B2].
  rewrite tokens_sum_rev in B2.
  pose proof (Z.mul_div_le max_tokens 2). lia.
Qed.

Lemma truncate_context_joined_estimate_witness :
  let rag_context : list (gmap string pyval) :=
    replicate 8 {[ "document" := PyStr "notes.pdf"; "text" := PyStr "abc" ]} in
  joined_estimate "text" (truncate_context_if_needed rag_context [] 5).1 ≤ 5 + 8.
Proof.
  intros rag_context.
  pose proof (truncate_context_joined_estimate rag_context [] 5) as H.
  assert (Forall (typed "text") rag_context) as Hty by (repeat constructor; by eexists).
  specialize (H Hty (Forall_nil_2 _)). specialize (H ltac:(lia)). cbv zeta in H.
  change (length (truncate_context_if_needed rag_context [] 5).1) with 8%nat in H.
  change (joined_estimate "content" (truncate_context_if_needed rag_context [] 5).2)
    with 0 in H.
  change (length (truncate_context_if_needed rag_context [] 5).2) with 0%nat in H.
  lia.
Defined.

(** X11.  The formatters and the budget compose: on a context produced
    by [format_rag_context] and a history produced by
    [format_chat_history], truncation never raises, so its fallback is
    never taken and the result is the input or the two greedy
    selections. *)
Theorem truncate_formatted_never_falls_back results conversation_history max_entries
    max_tokens :
  let rag_context := format_rag_context results in
  let chat_history := format_chat_history conversation_history max_entries in
  Forall (typed "text") rag_context ∧ Forall (typed "content") chat_history ∧
  truncate_context_try rag_context chat_history max_tokens
    = Ok (truncate_context_if_needed rag_context chat_history max_tokens) ∧
  truncate_context_if_needed rag_context chat_history max_tokens
    = (if joined_estimate "text" rag_context + joined_estimate "content" chat_history
          <=? max_tokens
       then (rag_context, chat_history)
       else (greedy "text" rag_context (max_tokens / 2) 0,
             rev (greedy "content" (rev chat_history) (max_tokens / 2) 0))).
Proof.
  intros rag_context chat_history.
  assert (Forall (typed "text") rag_context) as Hc.
  { apply Forall_forall. intros item Hin. subst rag_context.
    assert (item_text item ∈ item_text <$> format_rag_context results) as Ht
      by by apply list_elem_of_fmap_2.
    destruct results as [r|]; [|by apply elem_of_nil in Hin].
    destruct (format_rag_context_texts r) as [E|E]; rewrite E in Ht.
    - by apply elem_of_nil in Ht.
    - apply list_elem_of_fmap in Ht as (t & Ht & _). exists t.
      unfold dict_get. unfold item_text in Ht. by rewrite Ht. }
  assert (Forall (typed "content") chat_history) as Hh.
  { apply Forall_forall. intros msg Hin. subst chat_history.
    destruct (paired_content _ _ (format_chat_history_paired _ _) Hin)
      as (role & content & -> & _). by exists content. }
  split; [done|]. split; [done|]. unfold truncate_context_if_needed.
  rewrite truncate_context_try_typed by done. done.
Qed.

End BudgetMore.

(** ** More on the vector store *)

Section StoreMore.
Import DocProcessor ChromaUtils.
Context {F : Type} (be : backends F).

Lemma create_chat_vector_db_frame now (w : world F) chat_id :
  let name := collection_name_of chat_id in
  let out := create_chat_vector_db be now w chat_id in
  documents out.1 = documents w ∧
  (∀ other, other ≠ name → chroma_client out.1 !! other = chroma_client w !! other) ∧
  (create_success out.2 = false → out.1 = w) ∧
  (create_success out.2 = true → is_Some (chroma_client out.1 !! name)).
Proof.
  intros name out. subst out. unfold create_chat_vector_db. fold name.
  destruct (chroma_client w !! name) as [c|] eqn:Hc.
  - simpl. rewrite Hc. split; [done|]. split; [done|]. split; [done|]. by eexists.
  - destruct (valid_name be name); simpl.
    + rewrite lookup_insert_eq. split; [done|].
      split; [intros other Hne; by rewrite lookup_insert_ne|].
      split; [done|]. by eexists.
    + rewrite Hc. split; [done|]. split; [done|]. split; done.
Qed.

(** X12.  [create_chat_vector_db] is idempotent and touches nothing but
    the collection of its chat: the document records and every other
    collection are as before, an existing collection is returned as it
    is with [created = False], a reported success means the collection
    exists, and a second call then changes nothing. *)
Theorem create_chat_vector_db_idempotent now now' (w : world F) chat_id :
  let name := collection_name_of chat_id in
  let out := create_chat_vector_db be now w chat_id in
  documents out.1 = documents w ∧
  (∀ other, other ≠ name → chroma_client out.1 !! other = chroma_client w !! other) ∧
  (∀ c, chroma_client w !! name = Some c →
        out = (w, CreateOk chat_id name "Collection already exists" false)) ∧
  (create_success out.2 = false → out.1 = w) ∧
  (create_success out.2 = true →
     is_Some (chroma_client out.1 !! name) ∧
     create_chat_vector_db be now' out.1 chat_id
       = (out.1, CreateOk chat_id name "Collection already exists" false)).
Proof.
  intros name out. subst out. unfold create_chat_vector_db. fold name.
  destruct (chroma_client w !! name) as [c|] eqn:Hc.
  - simpl. rewrite Hc. split; [done|]. split; [done|]. split; [done|]. split; [done|].
    intros _. split; [by eexists|done].
  - destruct (valid_name be name); simpl.
    + rewrite lookup_insert_eq. split; [done|].
      split; [intros other Hne; by rewrite lookup_insert_ne|].
      split; [done|]. split; [done|]. intros _. split; [by eexists|done].
    + rewrite Hc. split; [done|]. split; [done|]. split; [done|]. split; done.
Qed.

(** How [upload_document] reaches [upload_into]: with the world as it is
    when the collection exists, after creating the collection otherwise;
    or it stops because the collection cannot be created. *)
Lemma upload_document_cases reply now file_size doc_id (w : world F) chat_id path filename
    user_id :
  let name := collection_name_of chat_id in
  let out := upload_document be reply now file_size doc_id w chat_id path filename user_id in
  ∃ w0, documents w0 = documents w ∧
        (∀ other, other ≠ name → chroma_client w0 !! other = chroma_client w !! other) ∧
        ((∃ r, create_success r = false ∧ w0 = w ∧ out = (w0, UploadNoCollection r)) ∨
         (∃ col, chroma_client w0 !! name = Some col ∧
                 out = upload_into be reply now file_size doc_id w0 chat_id path filename
                         user_id name col)).
Proof.
  intros name out. subst out. unfold upload_document. fold name.
  destruct (chroma_client w !! name) as [col|] eqn:Hc.
  { exists w. split; [done|]. split; [done|]. right. by exists col. }
  pose proof (create_chat_vector_db_frame now w chat_id) as (Hd & Ho & Hf & Hs).
  fold name in Ho, Hs.
  destruct (create_chat_vector_db be now w chat_id) as [w0 cr]. simpl in *.
  exists w0. split; [done|]. split; [done|].
  destruct (create_success cr) eqn:Hcr; simpl.
  - destruct (Hs eq_refl) as [col Hcol]. rewrite Hcol. right. by exists col.
  - left. exists cr. by rewrite Hf.
Qed.



(** X14.  When [insert_one] answers without an id, the upload is undone:
    the result is the failure ["Failed to store document metadata in
    MongoDB"], no record is added, and none of the chunk ids of the
    processed document is left in the collection. *)
Theorem upload_document_rolls_back reply now file_size doc_id (w w' : world F) chat_id path
    filename user_id error message :
  upload_document be reply now file_size doc_id w chat_id path filename user_id
    = (w', UploadNotStored error message) →
  reply = NoInsertedId ∧
  error = "Failed to store document metadata in MongoDB" ∧
  documents w' = documents w ∧
  ∃ pd, process_pdf (doc_processor be) doc_id path (Some filename) = Ok pd ∧
        chunks pd ≠ [] ∧
        ∀ id, id ∈ chunk_id <$> chunks pd →
              items_of w' (collection_name_of chat_id) !! id = None.
Proof.
  intros Hup.
  destruct (upload_document_cases reply now file_size doc_id w chat_id path filename user_id)
    as (w0 & Hd & _ & [(r & _ & _ & Hout)|(col & Hcol & Hout)]);
    rewrite Hup in Hout; [done|].
  destruct (process_pdf (doc_processor be) doc_id path (Some filename)) as [pd|] eqn:Hpd.
  2:{ unfold upload_into in Hout. by rewrite Hpd in Hout. }
  assert (chunks pd ≠ []) as Hne.
  { intros E. unfold upload_into in Hout. rewrite Hpd, E in Hout. done. }
  pose proof (upload_into_after_add be reply now file_size doc_id w0 chat_id path filename
                user_id (collection_name_of chat_id) col pd Hpd Hne) as Hafter.
  rewrite <- Hout in Hafter. simpl in Hafter.
  assert (reply = NoInsertedId ∧ error = "Failed to store document metadata in MongoDB")
    as [-> ->].
  { unfold upload_into in Hout. rewrite Hpd in Hout.
    destruct (collection_add _ _); [|done]. destruct reply; try done.
    by injection Hout as _ <- _. }
  destruct Hafter as (_ & Hdocs & Hgone).
  split; [done|]. split; [done|]. split; [by rewrite Hdocs|]. by exists pd.
Qed.

End StoreMore.

Section StoreMoreExamples.
Import DocProcessor ChromaUtils.

Lemma create_chat_vector_db_idempotent_witness :
  let w := (create_chat_vector_db Sample.be "2025-01-01T00:00:00" Sample.empty_world "c1").1 in
  is_Some (chroma_client w !! collection_name_of "c1") ∧
  create_chat_vector_db Sample.be "2025-01-02T00:00:00" w "c1"
    = (w, CreateOk "c1" (collection_name_of "c1") "Collection already exists" false).
Proof.
  intros w.
  destruct (create_chat_vector_db_idempotent Sample.be "2025-01-01T00:00:00"
              "2025-01-02T00:00:00" Sample.empty_world "c1") as (_ & _ & _ & _ & Hok).
  apply Hok. reflexivity.
Defined.


Lemma upload_document_rolls_back_witness :
  upload_success (sample_upload NoInsertedId).2 = false ∧
  documents (sample_upload NoInsertedId).1 = [] ∧
  items_of (sample_upload NoInsertedId).1 "c1_docs" !! "d0c_2" = None.
Proof.
  destruct (upload_document_rolls_back Sample.be NoInsertedId "2025-01-01T00:00:00" 2048 "d0c"
              Sample.empty_world (sample_upload NoInsertedId).1 "c1" "/tmp/upload.pdf"
              "upload.pdf" (Some "u1") "Failed to store document metadata in MongoDB"
              "Document processing failed" eq_refl)
    as (_ & _ & Hdocs & pd & Hpd & _ & Hgone).
  split; [reflexivity|]. split; [exact Hdocs|].
  apply Hgone. vm_compute in Hpd. injection Hpd as <-. vm_compute.
  apply elem_of_cons. right. apply elem_of_cons. by left.
Defined.

End StoreMoreExamples.

Section StoreQueries.
Import DocProcessor ChromaUtils.
Context {F : Type} (be : backends F).

(** X15.  After a successful upload every returned chunk id is an entry
    of the chat's collection, and the record added last describes the
    upload: it names the chat, the file and the collection that holds the
    chunks, its status is ["processed"], it counts at least one chunk,
    and its preview is the first chunk's text cut to 200 characters,
    followed by an ellipsis. *)
Theorem upload_document_stores_chunks reply now file_size doc_id (w w' : world F) chat_id
    path filename user_id did cid fn cn count ids mid msg :
  upload_document be reply now file_size doc_id w chat_id path filename user_id
    = (w', UploadOk did cid fn cn count ids mid msg) →
  cid = chat_id ∧ fn = filename ∧ cn = collection_name_of chat_id ∧
  (0 < count)%nat ∧
  (∀ id, id ∈ ids → is_Some (items_of w' cn !! id)) ∧
  ∃ dm pd first_chunk,
    last (documents w') = Some (mid, dm) ∧
    dm_chat_id dm = chat_id ∧ dm_filename dm = filename ∧
    dm_chroma_collection dm = cn ∧ dm_status dm = "processed" ∧
    dm_total_chunks dm = count ∧
    process_pdf (doc_processor be) doc_id path (Some filename) = Ok pd ∧
    head (chunks pd) = Some first_chunk ∧
    head ids = Some (chunk_id first_chunk) ∧
    dm_previewText dm = Some (str_take 200 (text first_chunk) +:+ "...") ∧
    (String.length (str_take 200 (text first_chunk) +:+ "...") ≤ 203)%nat.
Proof.
  intros Hup.
  destruct (upload_document_cases be reply now file_size doc_id w chat_id path filename user_id)
    as (w0 & Hd & _ & [(r & _ & _ & Hout)|(col & Hcol & Hout)]);
    rewrite Hup in Hout; [done|].
  pose proof Hout as Hinto. symmetry in Hinto.
  apply upload_into_ok in Hinto as (pd & Hpd & -> & -> & -> & -> & -> & Hw').
  assert (chunks pd ≠ []) as Hne.
  { intros E. unfold upload_into in Hout. rewrite Hpd, E in Hout. done. }
  pose proof (upload_into_after_add be (Inserted mid) now file_size doc_id w0 chat_id path
                filename user_id (collection_name_of chat_id) col pd Hpd Hne) as Hafter.
  rewrite <- Hout in Hafter. simpl in Hafter. destruct Hafter as (_ & _ & Hin).
  assert (cid = chat_id ∧ fn = filename) as [-> ->].
  { unfold upload_into in Hout. rewrite Hpd in Hout.
    destruct (collection_add _ _); [|done]. by injection Hout as _ _ <- <-. }
  destruct (chunks pd) as [|fc fcs] eqn:Hch; [done|].
  split; [done|]. split; [done|]. split; [done|]. split; [simpl; lia|]. split; [done|].
  eexists _, pd, fc.
  rewrite Hw', last_snoc, Hch. split; [done|].
  do 9 (split; [done|]).
  rewrite str_length_app, length_str_take. change (String.length "...") with 3%nat. lia.
Qed.

Lemma chunks_at_spec (results : query_reply F) indices cds :
  chunks_at be results indices = Ok cds →
  Forall2 (fun cd i =>
             ∃ ids0 documents0 distances0 distance,
               qr_ids results !! 0%nat = Some ids0 ∧
               qr_documents results !! 0%nat = Some documents0 ∧
               qr_distances results !! 0%nat = Some distances0 ∧
               ids0 !! i = Some (cd_chunk_id cd) ∧
               documents0 !! i = Some (cd_text cd) ∧
               distances0 !! i = Some distance ∧
               cd_similarity_score cd = one_minus be distance ∧
               cd_relevance_rank cd = (i + 1)%nat) cds indices.
Proof.
  revert cds. induction indices as [|i indices IH]; intros cds; simpl.
  - intros [= <-]. constructor.
  - destruct (chunk_at be results i) as [cd|] eqn:Hcd; simpl; [|done].
    destruct (chunks_at be results indices) as [rest|]; simpl; [|done].
    intros [= <-]. constructor; [|by apply IH].
    unfold chunk_at, index in Hcd.
    destruct (qr_ids results !! 0%nat) as [ids0|] eqn:E1; simpl in Hcd; [|done].
    destruct (ids0 !! i) as [id|] eqn:E2; simpl in Hcd; [|done].
    destruct (qr_documents results !! 0%nat) as [documents0|] eqn:E3; simpl in Hcd; [|done].
    destruct (documents0 !! i) as [document|] eqn:E4; simpl in Hcd; [|done].
    destruct (qr_distances results !! 0%nat) as [distances0|] eqn:E5; simpl in Hcd; [|done].
    destruct (distances0 !! i) as [distance|] eqn:E6; simpl in Hcd; [|done].
    match type of Hcd with
    | (?m ≫= _) = _ => destruct m as [metadata|]
    end; simpl in Hcd; [|done].
    injection Hcd as <-. by exists ids0, documents0, distances0, distance.
Qed.

Lemma chunks_at_error (results : query_reply F) indices e :
  chunks_at be results indices = Raise e → e = "list index out of range".
Proof.
  induction indices as [|i indices IH]; simpl; [done|].
  destruct (chunk_at be results i) as [cd|] eqn:Hcd; simpl.
  - destruct (chunks_at be results indices) as [rest|]; simpl; [done|].
    intros [= <-]. by apply IH.
  - intros [= <-]. unfold chunk_at, index in Hcd.
    repeat match type of Hcd with
           | context [?l !! ?i] =>
               destruct (l !! i); simpl in Hcd; [|by injection Hcd as <-]
           end.
    destruct (qr_metadatas results) as [[|m ms]|]; simpl in Hcd; try done.
    repeat match type of Hcd with
           | context [?l !! ?i] =>
               destruct (l !! i); simpl in Hcd; [|by injection Hcd as <-]
           end.
    done.
Qed.

(** The chunks of a successful query, by the rows of the index reply. *)
Lemma query_chat_docs_rows (w : world F) chat_id query n_results cid q count cds cn msg :
  query_chat_docs be w chat_id query n_results = QueryOk cid q count cds cn msg →
  cid = chat_id ∧ q = query ∧ cn = collection_name_of chat_id ∧
  count = length cds ∧
  cd_relevance_rank <$> cds = seq 1 count ∧
  ∃ col e reply,
    chroma_client w !! cn = Some col ∧
    embedder_query be query = Ok e ∧
    collection_query be col e n_results = Ok reply ∧
    cd_chunk_id <$> cds = default [] (head (qr_ids reply)) ∧
    cd_text <$> cds = take count (default [] (head (qr_documents reply))) ∧
    cd_similarity_score <$> cds
      = one_minus be <$> take count (default [] (head (qr_distances reply))).
Proof.
  unfold query_chat_docs.
  destruct (chroma_client w !! collection_name_of chat_id) as [col|] eqn:Hcol; [|done].
  destruct (embedder_query be query) as [e|] eqn:He; simpl; [|done].
  destruct (collection_query be col e n_results) as [reply|] eqn:Hq; simpl; [|done].
  destruct (format_results be reply) as [out|] eqn:Hf; [|done].
  intros [= <- <- <- <- <- <-]. do 4 (split; [done|]).
  unfold format_results in Hf.
  destruct (qr_ids reply) as [|ids0 ids_rest] eqn:Hids.
  { injection Hf as <-. split; [done|]. exists col, e, reply. by rewrite Hids. }
  apply chunks_at_spec in Hf. rewrite Hids in Hf.
  assert (length out = length ids0) as Hlen
    by by rewrite (Forall2_length _ _ _ Hf), length_seq.
  assert (∀ i cd, out !! i = Some cd →
            ∃ documents0 distances0 distance,
              qr_documents reply !! 0%nat = Some documents0 ∧
              qr_distances reply !! 0%nat = Some distances0 ∧
              ids0 !! i = Some (cd_chunk_id cd) ∧
              documents0 !! i = Some (cd_text cd) ∧
              distances0 !! i = Some distance ∧
              cd_similarity_score cd = one_minus be distance ∧
              cd_relevance_rank cd = (i + 1)%nat) as Hat.
  { intros i cd Hi.
    destruct (Forall2_lookup_l _ _ _ _ _ Hf Hi) as (j & Hj & ids0' & d0 & s0 & dist & Hi0 & ?).
    apply lookup_seq in Hj as [-> _]. simpl in Hi0. injection Hi0 as <-.
    by exists d0, s0, dist. }
  split.
  - apply list_eq. intros i. rewrite list_lookup_fmap.
    destruct (out !! i) as [cd|] eqn:Hi; simpl.
    + destruct (Hat i cd Hi) as (_ & _ & _ & _ & _ & _ & _ & _ & _ & ->).
      symmetry. apply lookup_seq. split; [lia|]. by apply lookup_lt_Some in Hi.
    + symmetry. apply lookup_ge_None. rewrite length_seq. by apply lookup_ge_None in Hi.
  - exists col, e, reply. do 3 (split; [done|]). rewrite Hids, !head_lookup. simpl.
    split; [|split].
    + apply list_eq. intros i. rewrite list_lookup_fmap.
      destruct (out !! i) as [cd|] eqn:Hi; simpl.
      * by destruct (Hat i cd Hi) as (_ & _ & _ & _ & _ & -> & _).
      * symmetry. apply lookup_ge_None. rewrite <- Hlen. by apply lookup_ge_None in Hi.
    + apply list_eq. intros i. rewrite list_lookup_fmap.
      destruct (out !! i) as [cd|] eqn:Hi; simpl.
      * destruct (Hat i cd Hi) as (d0 & _ & _ & -> & _ & _ & Hd & _). simpl.
        rewrite lookup_take_lt by by apply lookup_lt_Some in Hi. done.
      * apply lookup_ge_None in Hi. symmetry. apply lookup_ge_None.
        rewrite length_take. lia.
    + apply list_eq. intros i. rewrite !list_lookup_fmap.
      destruct (out !! i) as [cd|] eqn:Hi; simpl.
      * destruct (Hat i cd Hi) as (_ & s0 & dist & _ & -> & _ & _ & Hd & -> & _). simpl.
        rewrite lookup_take_lt by by apply lookup_lt_Some in Hi. by rewrite Hd.
      * apply lookup_ge_None in Hi.
        assert (take (length out) (default [] (qr_distances reply !! 0%nat)) !! i = None)
          as ->; [|done].
        apply lookup_ge_None. rewrite length_take. lia.
Qed.

(** X17.  When the index answers with a row of texts or of distances that
    is shorter than its row of ids, the query fails as a whole with the
    error ["list index out of range"]: no partial result is returned. *)
Theorem query_chat_docs_misaligned (w : world F) chat_id query n_results col e reply ids0 :
  chroma_client w !! collection_name_of chat_id = Some col →
  embedder_query be query = Ok e →
  collection_query be col e n_results = Ok reply →
  head (qr_ids reply) = Some ids0 →
  (length (default [] (head (qr_documents reply))) < length ids0 ∨
   length (default [] (head (qr_distances reply))) < length ids0)%nat →
  query_chat_docs be w chat_id query n_results
    = QueryFailed chat_id query "list index out of range" "Failed to query documents".
Proof.
  intros Hcol He Hq Hids Hshort. unfold query_chat_docs. rewrite Hcol, He. simpl.
  rewrite Hq. simpl. unfold format_results.
  destruct (qr_ids reply) as [|ids0' rest] eqn:Hi; [done|]. injection Hids as ->.
  destruct (chunks_at be reply (seq 0 (length ids0))) as [out|msg] eqn:Hc.
  2:{ by apply chunks_at_error in Hc as ->. }
  exfalso. apply chunks_at_spec in Hc.
  assert (∀ i, (i < length ids0)%nat →
               ∃ d0 s0, qr_documents reply !! 0%nat = Some d0 ∧
                        qr_distances reply !! 0%nat = Some s0 ∧
                        is_Some (d0 !! i) ∧ is_Some (s0 !! i)) as Hall.
  { intros i Hlt.
    destruct (Forall2_lookup_r _ _ _ i i Hc) as (cd & _ & _ & d0 & s0 & dist & _ & ? & ? & _ & ? & ? & _).
    { apply lookup_seq. lia. }
    exists d0, s0. eauto. }
  destruct ids0 as [|id0 ids0]; [simpl in Hshort; lia|].
  destruct (Hall (length ids0)) as (d0 & s0 & Hd & Hs & Hdi & Hsi); [simpl; lia|].
  apply lookup_lt_is_Some in Hdi, Hsi.
  destruct (qr_documents reply) as [|d0' ?]; [done|]. injection Hd as ->.
  destruct (qr_distances reply) as [|s0' ?]; [done|]. injection Hs as ->.
  simpl in Hshort. lia.
Qed.

(** X18.  A successful [delete_chat_vector_db] removes exactly the
    records of its chat and reports their number; the records of other
    chats stay, in order; a query for the chat then finds no collection.
    Whenever the collection existed it is gone after the call, also when
    the call reports a failure, and a reported failure leaves the records
    as they were. *)
Theorem delete_chat_vector_db_outcome mongo_fault (w : world F) chat_id query n_results :
  let name := collection_name_of chat_id in
  let out := delete_chat_vector_db mongo_fault w chat_id in
  (is_Some (chroma_client w !! name) → chroma_client out.1 = delete name (chroma_client w)) ∧
  (delete_success out.2 = false → documents out.1 = documents w) ∧
  (delete_success out.2 = true →
     mongo_fault = None ∧ is_Some (chroma_client w !! name) ∧
     documents out.1
       = List.filter (fun d => negb (bool_decide (dm_chat_id d.2 = chat_id))) (documents w) ∧
     (∀ d, d ∈ documents out.1 → dm_chat_id d.2 ≠ chat_id) ∧
     (∃ count msg, out.2 = DeleteOk chat_id name count msg ∧
                   (count + length (documents out.1) = length (documents w))%nat) ∧
     query_chat_docs be out.1 chat_id query n_results
       = QueryFailed chat_id query "Collection not found" "No documents found for this chat").
Proof.
  intros name out. subst out. unfold delete_chat_vector_db. fold name.
  destruct (chroma_client w !! name) as [c|] eqn:Hc.
  2:{ simpl. split; [by intros [? ?]|]. done. }
  destruct mongo_fault as [e|]; simpl; [done|].
  split; [done|]. split; [done|]. intros _. split; [done|]. split; [by eexists|].
  split; [done|]. split; [|split].
  - intros d Hd. apply list_elem_of_In, filter_In in Hd as [_ Hd].
    apply negb_true_iff, bool_decide_eq_false in Hd. done.
  - eexists _, _. split; [done|].
    induction (documents w) as [|d ds IH]; simpl; [done|].
    destruct (bool_decide (dm_chat_id d.2 = chat_id)); simpl; lia.
  - unfold query_chat_docs. simpl. fold name. by rewrite lookup_delete_eq.
Qed.

End StoreQueries.

Section Similarity.
Import DocProcessor ChromaUtils.
Context (be : backends float).

(** X16.  A successful query returns one chunk per id of the first row
    of the index reply, in the order of the reply: the chunk ids are that
    row, the texts and distances are taken from the same positions, the
    similarity of a chunk is the float [1 - distance] of the distance at
    its position, the ranks are [1 .. n] and [results_count] is [n].
    The subtraction is that of binary64 numbers, which [one_minus]
    stands for. *)
Theorem query_chat_docs_ranked (w : world float) chat_id query n_results
    cid q count cds cn msg :
  (∀ d, one_minus be d = (1 - d)%float) →
  query_chat_docs be w chat_id query n_results = QueryOk cid q count cds cn msg →
  cid = chat_id ∧ q = query ∧ cn = collection_name_of chat_id ∧
  count = length cds ∧
  cd_relevance_rank <$> cds = seq 1 count ∧
  ∃ col e reply,
    chroma_client w !! cn = Some col ∧
    embedder_query be query = Ok e ∧
    collection_query be col e n_results = Ok reply ∧
    cd_chunk_id <$> cds = default [] (head (qr_ids reply)) ∧
    cd_text <$> cds = take count (default [] (head (qr_documents reply))) ∧
    cd_similarity_score <$> cds
      = (fun d => (1 - d)%float) <$> take count (default [] (head (qr_distances reply))) ∧
    ∀ i cd, cds !! i = Some cd →
      cd_relevance_rank cd = S i ∧
      default [] (head (qr_ids reply)) !! i = Some (cd_chunk_id cd) ∧
      default [] (head (qr_documents reply)) !! i = Some (cd_text cd) ∧
      ∃ d, default [] (head (qr_distances reply)) !! i = Some d ∧
           cd_similarity_score cd = (1 - d)%float.
Proof.
  intros Hsub Hq.
  destruct (query_chat_docs_rows be w chat_id query n_results cid q count cds cn msg Hq)
    as (-> & -> & -> & -> & Hrank & col & e & reply & Hcol & He & Hreply & Hids & Htexts & Hsim).
  do 4 (split; [done|]). split; [done|].
  assert (cd_similarity_score <$> cds
          = (fun d => (1 - d)%float)
              <$> take (length cds) (default [] (head (qr_distances reply)))) as Hsim'.
  { rewrite Hsim. apply list_fmap_ext. intros _ d _. apply Hsub. }
  exists col, e, reply. do 5 (split; [done|]). split; [done|].
  intros i cd Hi. pose proof (lookup_lt_Some _ _ _ Hi) as Hlt.
  split; [|split; [|split]].
  - assert ((cd_relevance_rank <$> cds) !! i = Some (cd_relevance_rank cd)) as Hr
      by by rewrite list_lookup_fmap, Hi.
    rewrite Hrank in Hr. apply lookup_seq in Hr as [-> _]. done.
  - rewrite <- Hids. by rewrite list_lookup_fmap, Hi.
  - assert ((cd_text <$> cds) !! i = Some (cd_text cd)) as Ht
      by by rewrite list_lookup_fmap, Hi.
    rewrite Htexts in Ht. by rewrite lookup_take_lt in Ht.
  - assert ((cd_similarity_score <$> cds) !! i = Some (cd_similarity_score cd)) as Hs
      by by rewrite list_lookup_fmap, Hi.
    rewrite Hsim', list_lookup_fmap, lookup_take_lt in Hs by done.
    destruct (default [] (head (qr_distances reply)) !! i) as [d|]; [|done].
    exists d. split; [done|]. by injection Hs as <-.
Qed.

End Similarity.

Section StoreQueriesExamples.
Import DocProcessor ChromaUtils.

Lemma upload_document_stores_chunks_witness :
  is_Some (items_of (sample_upload (Inserted "m1")).1 "c1_docs" !! "d0c_3") ∧
  ∃ dm, last (documents (sample_upload (Inserted "m1")).1) = Some ("m1", dm) ∧
        dm_previewText dm = Some "alpha...".
Proof.
  destruct (upload_document_stores_chunks Sample.be (Inserted "m1") "2025-01-01T00:00:00"
              2048 "d0c" Sample.empty_world (sample_upload (Inserted "m1")).1 "c1"
              "/tmp/upload.pdf" "upload.pdf" (Some "u1")
              "d0c" "c1" "upload.pdf" "c1_docs" 3 ["d0c_1"; "d0c_2"; "d0c_3"] "m1"
              "Document uploaded and processed successfully" eq_refl)
    as (_ & _ & _ & _ & Hin & dm & pd & fc & Hlast & _ & _ & _ & _ & _ & Hpd & Hfc & _ & Hdm & _).
  split.
  - apply Hin. apply elem_of_cons. right. apply elem_of_cons. right. apply elem_of_cons. by left.
  - exists dm. split; [exact Hlast|]. rewrite Hdm. f_equal.
    vm_compute in Hpd. injection Hpd as <-. vm_compute in Hfc. injection Hfc as <-.
    reflexivity.
Defined.

Lemma query_chat_docs_misaligned_witness :
  query_chat_docs short_reply_backend stocked_world "c1" "what?" 2
    = QueryFailed "c1" "what?" "list index out of range" "Failed to query documents".
Proof.
  eapply (query_chat_docs_misaligned short_reply_backend stocked_world "c1" "what?" 2).
  - reflexivity.
  - reflexivity.
  - reflexivity.
  - reflexivity.
  - left. simpl. lia.
Defined.

Lemma query_chat_docs_ranked_witness :
  ∃ cds msg,
    query_chat_docs float_backend float_world "c1" "what?" 2
      = QueryOk "c1" "what?" 2 cds "c1_docs" msg ∧
    cd_chunk_id <$> cds = ["d0c_1"; "d0c_2"] ∧
    cd_text <$> cds = ["alpha"; "beta"] ∧
    cd_similarity_score <$> cds = [0.75%float; 0.5%float] ∧
    cd_relevance_rank <$> cds = [1; 2]%nat.
Proof.
  eexists _, _. split; [reflexivity|].
  edestruct (query_chat_docs_ranked float_backend float_world "c1" "what?" 2
               "c1" "what?" 2%nat)
    as (_ & _ & _ & _ & Hrank & col & e & reply & _ & _ & Hreply & Hids & Htexts & Hsim & _);
    [|reflexivity|].
  { intros d. reflexivity. }
  injection Hreply as <-.
  split; [exact Hids|]. split; [exact Htexts|]. split; [exact Hsim|exact Hrank].
Defined.

Lemma delete_chat_vector_db_outcome_witness :
  delete_success (delete_chat_vector_db None stocked_world "c1").2 = true ∧
  documents (delete_chat_vector_db None stocked_world "c1").1 = [("m2", record "c2" "d2")] ∧
  query_chat_docs Sample.be (delete_chat_vector_db None stocked_world "c1").1 "c1" "what?" 2
    = QueryFailed "c1" "what?" "Collection not found" "No documents found for this chat".
Proof.
  destruct (delete_chat_vector_db_outcome Sample.be None stocked_world "c1" "what?" 2)
    as (_ & _ & Hok).
  destruct Hok as (_ & _ & Hdocs & _ & _ & Hq); [reflexivity|].
  split; [reflexivity|]. split; [rewrite Hdocs; reflexivity|exact Hq].
Defined.

End StoreQueriesExamples.

(** ** Collection statistics *)

Section Statistics.
Import ChromaUtils ChromaInfo.
Context {F : Type}.

Lemma find_stat_count_chunk d f c stats k :
  find_stat k (count_chunk d f c stats)
    = if decide (d = k)
      then Some (match find_stat d stats with
                 | Some st => {| ds_filename := ds_filename st;
                                 ds_chunk_count := ds_chunk_count st + 1;
                                 ds_chunk_ids := ds_chunk_ids st ++ [c] |}
                 | None => {| ds_filename := f; ds_chunk_count := 1; ds_chunk_ids := [c] |}
                 end)
      else find_stat k stats.
Proof.
  induction stats as [|[k' st] stats IH]; simpl.
  - destruct (decide (d = k)); done.
  - destruct (decide (k' = d)) as [->|Hne]; simpl.
    + destruct (decide (d = k)); [done|]. done.
    + destruct (decide (k' = k)) as [->|Hne'].
      * destruct (decide (d = k)); [congruence|done].
      * apply IH.
Qed.

Lemma keys_count_chunk d f c stats :
  (count_chunk d f c stats).*1 = if decide (d ∈ stats.*1) then stats.*1 else (stats.*1 ++ [d])%list.
Proof.
  induction stats as [|[k' st] stats IH]; [done|].
  change (count_chunk d f c ((k', st) :: stats))
    with (if decide (k' = d)
          then (k', {| ds_filename := ds_filename st;
                       ds_chunk_count := ds_chunk_count st + 1;
                       ds_chunk_ids := ds_chunk_ids st ++ [c] |}) :: stats
          else (k', st) :: count_chunk d f c stats).
  rewrite (fmap_cons fst (k', st) stats).
  destruct (decide (k' = d)) as [->|Hne].
  - rewrite decide_True by by left. by rewrite fmap_cons.
  - rewrite fmap_cons, IH. destruct (decide (d ∈ stats.*1)) as [Hin|Hnin].
    + rewrite decide_True by by right. done.
    + rewrite decide_False; [done|]. intros [?|?]%elem_of_cons; [simpl in *; congruence|done].
Qed.

Lemma sum_count_chunk d f c stats :
  sum_list (ds_chunk_count <$> (count_chunk d f c stats).*2)
    = S (sum_list (ds_chunk_count <$> stats.*2)).
Proof.
  induction stats as [|[k' st] stats IH]; [done|].
  change (count_chunk d f c ((k', st) :: stats))
    with (if decide (k' = d)
          then (k', {| ds_filename := ds_filename st;
                       ds_chunk_count := ds_chunk_count st + 1;
                       ds_chunk_ids := ds_chunk_ids st ++ [c] |}) :: stats
          else (k', st) :: count_chunk d f c stats).
  destruct (decide (k' = d)); rewrite !fmap_cons; cbn [snd sum_list ds_chunk_count];
    unfold id in *; lia.
Qed.

Lemma find_stat_elem k st stats :
  NoDup stats.*1 → ((k, st) ∈ stats ↔ find_stat k stats = Some st).
Proof.
  induction stats as [|[k' st'] stats IH]; simpl.
  - intros _. split; [by intros ?%elem_of_nil|done].
  - intros [Hnin Hnd]%NoDup_cons. specialize (IH Hnd).
    rewrite elem_of_cons. destruct (decide (k' = k)) as [->|Hne].
    + split; [|intros [= ->]; by left].
      intros [[= ->]|Hin]; [done|]. exfalso. apply Hnin.
      apply list_elem_of_fmap. by exists (k, st).
    + rewrite <- IH. split; [|by right]. intros [[= ? ?]|?]; [congruence|done].
Qed.

Lemma ids_for_snoc k (seen : list (string * stored_chunk F)) e :
  ids_for k (seen ++ [e])
    = (ids_for k seen ++ if decide (doc_of e = k) then [e.1] else [])%list.
Proof.
  unfold ids_for. rewrite List.filter_app, fmap_app. f_equal. simpl.
  destruct (decide (doc_of e = k)) as [E|E].
  - by rewrite bool_decide_eq_true_2.
  - by rewrite bool_decide_eq_false_2.
Qed.

Lemma length_le_sum_list (l : list nat) :
  Forall (fun n => (1 ≤ n)%nat) l → (length l ≤ sum_list l)%nat.
Proof. induction 1 as [|n l Hn _ IH]; simpl; unfold id in *; lia. Qed.

Lemma grouped_step (seen : list (string * stored_chunk F)) stats e :
  grouped seen stats →
  grouped (seen ++ [e])
    (count_chunk (doc_of e) (dict_get (sc_metadata e.2) "filename" (PyStr "unknown")) e.1 stats).
Proof.
  intros (Hnd & Hsum & Hfind). split; [|split].
  - rewrite keys_count_chunk. destruct (decide _); [done|].
    apply NoDup_app. split; [done|]. split; [|apply NoDup_singleton].
    intros x Hx ->%list_elem_of_singleton. done.
  - rewrite sum_count_chunk, Hsum, length_app. simpl. lia.
  - intros k. rewrite find_stat_count_chunk, ids_for_snoc.
    destruct (decide (doc_of e = k)) as [<-|Hne].
    + specialize (Hfind (doc_of e)).
      destruct (find_stat (doc_of e) stats) as [st|]; simpl in *.
      * destruct (ids_for (doc_of e) seen) as [|i0 ids0] eqn:Hi; [done|].
        injection Hfind as -> ->. simpl. rewrite length_app. simpl.
        do 2 f_equal; lia.
      * destruct (ids_for (doc_of e) seen); done.
    + rewrite app_nil_r. apply Hfind.
Qed.

Lemma group_chunks_grouped (seen : list (string * stored_chunk F)) entries stats :
  grouped seen stats → grouped (seen ++ entries) (group_chunks entries stats).
Proof.
  revert seen stats. induction entries as [|[c e] entries IH]; intros seen stats Hg; simpl.
  - by rewrite app_nil_r.
  - replace (seen ++ (c, e) :: entries)%list with ((seen ++ [(c, e)]) ++ entries)%list
      by by rewrite <- app_assoc.
    apply IH. by apply (grouped_step seen stats (c, e)).
Qed.

(** X19.  When [collection.get()] answers with the entries of the
    collection, each once and in whatever order,
    [get_chat_documents_info] groups them by the ['doc_id'] of their
    metadata: each ['doc_id'] occurs once, the chunk ids listed under it
    are the ids of the entries that carry it, in the order of the
    answer, its count is their number and is at least 1, and the counts
    add up to ['total_chunks'], the size of the collection. *)
Theorem get_chat_documents_info_groups (get : collection F → list (string * stored_chunk F))
    (w : world F) chat_id cid cn total ndocs docs msg :
  (∀ col, chroma_client w !! collection_name_of chat_id = Some col →
          get col ≡ₚ map_to_list (col_items col)) →
  get_chat_documents_info get w chat_id = InfoOk cid cn total ndocs docs msg →
  ∃ col, chroma_client w !! collection_name_of chat_id = Some col ∧
    total = size (col_items col) ∧
    ndocs = length docs ∧ (ndocs ≤ total)%nat ∧
    NoDup docs.*1 ∧
    sum_list (ds_chunk_count <$> docs.*2) = total ∧
    ∀ k st, (k, st) ∈ docs →
      ds_chunk_ids st = ids_for k (get col) ∧
      ds_chunk_count st = length (ds_chunk_ids st) ∧
      (1 ≤ ds_chunk_count st)%nat ∧
      ∀ id, id ∈ ds_chunk_ids st ↔
            ∃ e, col_items col !! id = Some e ∧
                 dict_get (sc_metadata e) "doc_id" (PyStr "unknown") = k.
Proof.
  intros Hget. unfold get_chat_documents_info.
  destruct (chroma_client w !! collection_name_of chat_id) as [col|]; [|done].
  specialize (Hget col eq_refl).
  assert (length (get col) = size (col_items col)) as Hsize.
  { by rewrite (Permutation_length Hget), length_map_to_list. }
  intros [= <- <- <- <- <- <-]. exists col. split; [done|].
  pose proof (group_chunks_grouped [] (get col) []) as (Hnd & Hsum & Hfind).
  { split; [constructor|]. split; [done|]. done. }
  simpl in Hnd, Hsum, Hfind.
  set (docs := group_chunks (get col) []) in *.
  assert (∀ k st, (k, st) ∈ docs →
            ds_chunk_ids st = ids_for k (get col) ∧
            ds_chunk_count st = length (ds_chunk_ids st) ∧ (1 ≤ ds_chunk_count st)%nat) as Hst.
  { intros k st Hin. apply find_stat_elem in Hin; [|done].
    specialize (Hfind k). rewrite Hin in Hfind. simpl in Hfind.
    destruct (ids_for k (get col)) as [|i0 ids0]; [done|].
    injection Hfind as -> ->. simpl. split; [done|]. split; [done|]. lia. }
  split; [done|]. split; [done|]. split.
  { rewrite <- Hsum. etrans; [|apply length_le_sum_list].
    - by rewrite !length_fmap.
    - apply Forall_forall. intros n (st & -> & ([k st'] & -> & Hin)%list_elem_of_fmap)%list_elem_of_fmap.
      by destruct (Hst k st' Hin) as (_ & _ & ?). }
  split; [done|]. split; [by rewrite Hsum|].
  intros k st Hin. destruct (Hst k st Hin) as (Hids & Hcount & Hpos).
  split; [done|]. split; [done|]. split; [done|].
  intros id. rewrite Hids. unfold ids_for. rewrite list_elem_of_fmap. split.
  - intros ([id' e] & -> & He). apply list_elem_of_In, filter_In in He as [He Hk].
    apply list_elem_of_In in He. rewrite Hget in He. apply elem_of_map_to_list in He.
    apply bool_decide_eq_true in Hk. by exists e.
  - intros (e & He & Hk). exists (id, e). split; [done|].
    apply list_elem_of_In, filter_In. split.
    + apply list_elem_of_In. rewrite Hget. by apply elem_of_map_to_list.
    + by apply bool_decide_eq_true.
Qed.

Lemma replace_underscore_free s : underscore_free s = true → replace "_" "/" s = s.
Proof.
  induction s as [|c s IH]; simpl; [done|].
  intros [[[Hu _]%andb_prop _]%andb_prop Hs]%andb_prop.
  apply negb_true_iff in Hu. rewrite Hu. by rewrite IH.
Qed.

Lemma replace_from_cons old new c rest :
  replace_from old new 0 (String c rest)
    = if String.prefix old (String c rest)
      then new +:+ replace_from old new (String.length old - 1) rest
      else String c (replace_from old new 0 rest).
Proof. done. Qed.

Lemma str_replace_docs s :
  underscore_free s = true → str_replace "_docs" "" (s +:+ "_docs") = s.
Proof.
  unfold str_replace. induction s as [|c s IH]; [done|].
  intros [[[Hu _]%andb_prop _]%andb_prop Hs]%andb_prop.
  rewrite app_cons, replace_from_cons.
  assert (String.prefix "_docs" (String c (s +:+ "_docs")) = false) as ->.
  { apply negb_true_iff, Ascii.eqb_neq in Hu. cbn [String.prefix].
    destruct (ascii_dec "_" c); [congruence|done]. }
  by rewrite (IH Hs).
Qed.

Lemma underscore_free_plain s : underscore_free s = true → plain s = true.
Proof.
  induction s as [|c s IH]; simpl; [done|].
  intros [[[_ Hs]%andb_prop Hd]%andb_prop Hr]%andb_prop. rewrite Hs, Hd. by apply IH.
Qed.

Lemma all_hex_underscore_free s : ChatUtils.all_hex s = true → underscore_free s = true.
Proof.
  induction s as [|c s IH]; simpl; [done|]. intros [Hc Hs]%andb_prop.
  rewrite (IH Hs), andb_true_r.
  assert (∀ d : ascii, ChatUtils.is_hex d = false → Ascii.eqb c d = false) as Hd.
  { intros d Hd. apply Ascii.eqb_neq. intros ->. congruence. }
  by rewrite !Hd.
Qed.

Lemma endswith_app s suffix : endswith suffix (s +:+ suffix) = true.
Proof.
  induction s as [|c s IH].
  - rewrite app_empty_l. destruct suffix; simpl; [done|]. by rewrite Ascii.eqb_refl, String.eqb_refl.
  - rewrite app_cons. simpl. by rewrite IH, orb_true_r.
Qed.

Lemma length_remove_dups_le `{EqDecision A} (l : list A) :
  (length (remove_dups l) ≤ length l)%nat.
Proof.
  induction l as [|x l IH]; [done|]. cbn [remove_dups].
  destruct (decide_rel elem_of x l); simpl; lia.
Qed.

Lemma chat_dbs_of_elem (all_collections : list (string * collection F)) name col :
  (name, col) ∈ all_collections → endswith "_docs" name = true →
  chat_db_info_of name col ∈ chat_dbs_of all_collections.
Proof.
  intros Hin Hend. induction all_collections as [|[n c] rest IH]; [by apply elem_of_nil in Hin|].
  simpl. apply elem_of_cons in Hin as [[= <- <-]|Hin].
  - rewrite Hend. by left.
  - destruct (endswith "_docs" n); [right|]; by apply IH.
Qed.

(** X20.  The chat id that [get_all_chat_dbs] derives from a collection
    name is the original one when the id contains none of ['_'], ['/']
    and ['-'] (as every 24-digit hexadecimal id): for such a chat with a
    collection, the listing has an entry with its id, its collection
    name and the size of the collection, and ['total_chat_dbs'] is the
    number of entries. *)
Theorem get_all_chat_dbs_lists_chat (w : world F) chat_id col :
  underscore_free chat_id = true →
  chroma_client w !! collection_name_of chat_id = Some col →
  chat_id_of (collection_name_of chat_id) = chat_id ∧
  (get_all_chat_dbs w).1 = length (get_all_chat_dbs w).2 ∧
  ∃ info, info ∈ (get_all_chat_dbs w).2 ∧
          db_chat_id info = chat_id ∧
          db_collection_name info = collection_name_of chat_id ∧
          db_total_chunks info = size (col_items col) ∧
          (db_total_documents info ≤ db_total_chunks info)%nat ∧
          db_status info = "active".
Proof.
  intros Hfree Hcol.
  assert (collection_name_of chat_id = chat_id +:+ "_docs") as Hname.
  { unfold collection_name_of. fold (sanitized chat_id).
    by rewrite sanitized_plain by by apply underscore_free_plain. }
  assert (chat_id_of (collection_name_of chat_id) = chat_id) as Hid.
  { unfold chat_id_of. rewrite Hname, str_replace_docs by done.
    by apply replace_underscore_free. }
  split; [done|]. split; [done|].
  exists (chat_db_info_of (collection_name_of chat_id) col). split.
  - apply chat_dbs_of_elem.
    + by apply elem_of_map_to_list.
    + rewrite Hname. apply endswith_app.
  - simpl. split; [done|]. split; [done|]. split; [by rewrite length_map_to_list|].
    split; [|done].
    etrans; [apply length_remove_dups_le|].
    etrans; [apply filter_length_le|]. by rewrite length_fmap.
Qed.

End Statistics.

Section StatisticsExamples.
Import ChromaUtils ChromaInfo.

Lemma get_all_chat_dbs_lists_chat_witness :
  underscore_free "64f1c0ffee0123456789abcd" = true ∧
  chat_id_of (collection_name_of "64f1c0ffee0123456789abcd") = "64f1c0ffee0123456789abcd" ∧
  ∃ info, info ∈ (get_all_chat_dbs
                    (create_chat_vector_db Sample.be "2025-01-01T00:00:00" Sample.empty_world
                       "64f1c0ffee0123456789abcd").1).2 ∧
          db_chat_id info = "64f1c0ffee0123456789abcd".
Proof.
  split; [reflexivity|].
  destruct (get_all_chat_dbs_lists_chat
              (create_chat_vector_db Sample.be "2025-01-01T00:00:00" Sample.empty_world
                 "64f1c0ffee0123456789abcd").1
              "64f1c0ffee0123456789abcd"
              {| col_metadata := {[ "chat_id" := PyStr "64f1c0ffee0123456789abcd";
                                    "created_at" := PyStr "2025-01-01T00:00:00" ]};
                 col_items := ∅ |} eq_refl eq_refl)
    as (Hid & _ & info & Hin & Hinfo & _).
  split; [exact Hid|]. by exists info.
Defined.

Lemma get_chat_documents_info_groups_witness :
  ∃ docs msg,
    get_chat_documents_info in_upload_order (sample_upload (Inserted "m1")).1 "c1"
      = InfoOk "c1" "c1_docs" 3 1 docs msg ∧
    ds_chunk_ids <$> docs.*2 = [["d0c_1"; "d0c_2"; "d0c_3"]] ∧
    sum_list (ds_chunk_count <$> docs.*2) = 3%nat.
Proof.
  eexists _, _. split; [reflexivity|]. split; [reflexivity|].
  edestruct (get_chat_documents_info_groups in_upload_order
               (sample_upload (Inserted "m1")).1 "c1" "c1" "c1_docs" 3%nat 1%nat)
    as (col & _ & _ & _ & _ & _ & Hsum & _); [|reflexivity|exact Hsum].
  intros col Hcol. vm_compute in Hcol. injection Hcol as <-. vm_compute.
  apply (Permutation_app_comm [_; _] [_]).
Defined.

End StatisticsExamples.

(** ** Chats: creation, prompts and deletion *)

Section ChatsMore.
Import ChromaUtils ChatUtils ChatStore.

Lemma get_chat_Some db chat_id oid chat :
  get_chat db chat_id = Some (oid, chat) ↔ ObjectId chat_id = Ok oid ∧ db !! oid = Some chat.
Proof.
  unfold get_chat. destruct (ObjectId chat_id) as [o|e]; [|split; [done|by intros [? _]]].
  split.
  - destruct (db !! o) eqn:E; simpl; [|done]. by intros [= <- <-].
  - intros [[= ->] ->]. done.
Qed.

Lemma ObjectId_nonempty s oid : ObjectId s = Ok oid → s ≠ "".
Proof. intros H ->. by vm_compute in H. Qed.

(** X21.  [add_prompt_to_chat] succeeds exactly when [get_chat] finds
    the chat.  Then the stored chat differs from the previous one only
    by one more entry at the end of its history, holding the prompt, an
    empty assistant text, no uploads and no citations, and by its update
    time; otherwise the store is unchanged. *)
Theorem add_prompt_to_chat_appends now db chat_id user_prompt :
  (add_prompt_to_chat now db chat_id user_prompt).2
    = bool_decide (is_Some (get_chat db chat_id)) ∧
  (get_chat db chat_id = None → (add_prompt_to_chat now db chat_id user_prompt).1 = db) ∧
  ∀ oid chat, get_chat db chat_id = Some (oid, chat) →
    ∃ chat', (add_prompt_to_chat now db chat_id user_prompt).1 = <[oid := chat']> db ∧
      conversation_history chat'
        = (conversation_history chat ++
           [ {| timestamp := now; user := user_prompt; assistant := "";
                uploads := []; citations := [] |} ])%list ∧
      userId chat' = userId chat ∧ title chat' = title chat ∧
      created_at chat' = created_at chat ∧ status chat' = status chat ∧
      updated_at chat' = Some now.
Proof.
  unfold add_prompt_to_chat, get_chat.
  destruct (ObjectId chat_id) as [o|e]; simpl.
  - destruct (db !! o) as [chat|] eqn:E; simpl.
    + split; [done|]. split; [done|].
      intros oid chat0 [= <- <-]. eexists. split; [done|]. done.
    + done.
  - done.
Qed.

Lemma add_prompt_to_chat_appends_witness :
  histories (add_prompt_to_chat "2025-01-02T00:00:00" (sample_chats [entry "q1" "a1"])
               "64F1C0FFEE0123456789ABCD" "q2").1
    = [[("q1", "a1"); ("q2", "")]].
Proof.
  destruct (add_prompt_to_chat_appends "2025-01-02T00:00:00" (sample_chats [entry "q1" "a1"])
              "64F1C0FFEE0123456789ABCD" "q2") as (_ & _ & H).
  destruct (H "64f1c0ffee0123456789abcd" _ eq_refl) as (chat' & -> & Hh & _).
  unfold sample_chats. rewrite insert_singleton_eq. unfold histories.
  rewrite map_to_list_singleton. simpl. by rewrite Hh.
Defined.

Lemma filter_out_absent cid (l : list string) :
  cid ∉ l → List.filter (fun c => negb (String.eqb c cid)) l = l.
Proof.
  induction l as [|c l IH]; [done|]. intros [Hne Hnin]%not_elem_of_cons. simpl.
  assert (String.eqb c cid = false) as -> by (apply String.eqb_neq; congruence).
  simpl. by rewrite IH.
Qed.

(** X22.  [create_chat] returns the new id exactly when [insert_one]
    gave one and the user id is a valid [ObjectId].  Whenever
    [insert_one] gave an id, the chat is stored under it with the user
    id as given, an empty history and a non-empty title, also when the
    user id is invalid and [None] is returned; only for a valid user id
    is the chat id appended to the list of the user, if there is such a
    user.  Without an inserted id the store is unchanged. *)
Theorem create_chat_outcome reply now db user_id chat_title :
  (∀ cid, (create_chat reply now db user_id chat_title).2 = Some cid ↔
          reply = Inserted cid ∧ ∃ uid, ObjectId user_id = Ok uid) ∧
  (∀ cid, reply = Inserted cid →
     ∃ chat, chats_of (create_chat reply now db user_id chat_title).1
               = <[cid := chat]> (chats_of db) ∧
             userId chat = user_id ∧ conversation_history chat = [] ∧
             status chat = "active" ∧
             (∃ t, title chat = Some t ∧ t ≠ "" ∧
                   (∀ t', chat_title = Some t' → t' ≠ "" → t = t')) ∧
             (∀ uid, ObjectId user_id = Ok uid →
                users_of (create_chat reply now db user_id chat_title).1
                  = alter (push_chat now cid) uid (users_of db)) ∧
             ((∀ uid, ObjectId user_id ≠ Ok uid) →
                users_of (create_chat reply now db user_id chat_title).1 = users_of db)) ∧
  ((∀ cid, reply ≠ Inserted cid) → (create_chat reply now db user_id chat_title).1 = db).
Proof.
  unfold create_chat. destruct reply as [c| |e].
  - split; [|split].
    + intros cid. destruct (ObjectId user_id) as [uid|e] eqn:Hu; simpl.
      * split; [intros [= ->]; eauto|]. by intros [[= ->] _].
      * split; [done|]. by intros [_ [? ?]].
    + intros cid [= <-]. eexists. split.
      { destruct (ObjectId user_id); done. }
      split; [done|]. split; [done|]. split; [done|]. split; [|split].
      * eexists. split; [done|]. destruct chat_title as [t|]; [|by split].
        destruct (String.eqb t "") eqn:Ht.
        -- split; [done|]. intros t' [= ->]. by apply String.eqb_eq in Ht.
        -- split; [by apply String.eqb_neq|]. by intros t' [= ->].
      * intros uid ->. done.
      * intros Hno. destruct (ObjectId user_id) as [uid|]; [by destruct (Hno uid)|done].
    + intros Hno. by destruct (Hno c).
  - split; [|split]; [|done|done]. intros cid. split; [done|]. by intros [? _].
  - split; [|split]; [|done|done]. intros cid. split; [done|]. by intros [? _].
Qed.

(** X23.  Creating a chat under a fresh canonical id for a valid user
    and then deleting it restores the chats and the chat list of every
    user: [create_chat] returns the id, [get_chat] finds the chat in
    between, [delete_chat] returns [True], and afterwards [get_chat]
    finds nothing. *)
Theorem create_then_delete_chat now1 now2 db user_id uid chat_title cid :
  ObjectId cid = Ok cid →
  ObjectId user_id = Ok uid →
  chats_of db !! cid = None →
  (∀ u, users_of db !! uid = Some u → cid ∉ user_chats u) →
  (create_chat (Inserted cid) now1 db user_id chat_title).2 = Some cid ∧
  is_Some (get_chat (chats_of (create_chat (Inserted cid) now1 db user_id chat_title).1) cid) ∧
  (delete_chat now2 (create_chat (Inserted cid) now1 db user_id chat_title).1 cid).2 = true ∧
  chats_of (delete_chat now2 (create_chat (Inserted cid) now1 db user_id chat_title).1 cid).1
    = chats_of db ∧
  get_chat
    (chats_of (delete_chat now2 (create_chat (Inserted cid) now1 db user_id chat_title).1 cid).1)
    cid = None ∧
  ∀ u, user_chats <$>
         (users_of (delete_chat now2
                      (create_chat (Inserted cid) now1 db user_id chat_title).1 cid).1 !! u)
       = user_chats <$> (users_of db !! u).
Proof.
  intros Hcid Huid Hfresh Hlist.
  assert (truthy (PyStr user_id) = true) as Htruthy.
  { simpl. apply negb_true_iff, String.eqb_neq. by eapply ObjectId_nonempty. }
  unfold create_chat. rewrite Huid. cbn [fst snd].
  split; [done|]. split.
  { unfold get_chat. rewrite Hcid. cbn [chats_of]. rewrite lookup_insert_eq. by eexists. }
  unfold delete_chat. rewrite Hcid. cbn [chats_of users_of]. rewrite lookup_insert_eq.
  cbn [userId]. rewrite Htruthy, Huid. cbn [fst snd chats_of users_of].
  rewrite delete_insert_id by done.
  split; [done|]. split; [done|]. split.
  { unfold get_chat. rewrite Hcid, Hfresh. done. }
  intros u. destruct (decide (u = uid)) as [->|Hne].
  - rewrite !lookup_alter_eq. destruct (users_of db !! uid) as [usr|] eqn:Hu; [|done].
    simpl. f_equal. rewrite List.filter_app. simpl. rewrite String.eqb_refl. simpl.
    rewrite app_nil_r. apply filter_out_absent. by apply Hlist.
  - by rewrite !lookup_alter_ne.
Qed.

Lemma create_then_delete_chat_witness :
  (create_chat (Inserted "64f1c0ffee0123456789abcd") "2025-01-01T00:00:00" sample_mongo
     "64F1C0FFEE0123456789ABCE" None).2 = Some "64f1c0ffee0123456789abcd" ∧
  chats_of
    (delete_chat "2025-01-02T00:00:00"
       (create_chat (Inserted "64f1c0ffee0123456789abcd") "2025-01-01T00:00:00" sample_mongo
          "64F1C0FFEE0123456789ABCE" None).1 "64f1c0ffee0123456789abcd").1
    = chats_of sample_mongo.
Proof.
  destruct (create_then_delete_chat "2025-01-01T00:00:00" "2025-01-02T00:00:00" sample_mongo
              "64F1C0FFEE0123456789ABCE" "64f1c0ffee0123456789abce" None
              "64f1c0ffee0123456789abcd" eq_refl eq_refl eq_refl)
    as (Hid & _ & _ & Hchats & _).
  - intros u Hu. vm_compute in Hu. injection Hu as <-. apply not_elem_of_nil.
  - split; [exact Hid|exact Hchats].
Defined.

End ChatsMore.

(** ** The conversational turn *)

Section TurnMore.
Import ChromaUtils LLMContextFormatter LangChainChatbotService ChatUtils ChatStore ChatbotFlow.

Lemma format_rag_context_elem results item :
  item ∈ format_rag_context results →
  ∃ label t, item = {[ "document" := label; "text" := PyStr t ]} ∧ truthy label = true.
Proof.
  unfold format_rag_context, format_rag_context_try.
  destruct results as [r|]; [|by intros ?%elem_of_nil].
  destruct (success r); simpl; [|by intros ?%elem_of_nil].
  destruct (format_chunks _ _) as [out|] eqn:Hf; [|by intros ?%elem_of_nil].
  intros Hin. destruct (format_chunks_elem _ _ _ _ Hf Hin) as [?%elem_of_nil|(c & Hc & Hfc)];
    [done|].
  apply format_chunk_item in Hfc as (t & Ht & ->).
  exists (resolved_label c), t. split; [done|]. apply resolved_label_truthy.
Qed.

Lemma context_block_item label t :
  context_block {[ "document" := label; "text" := PyStr t ]}
    = "Document: Unknown" +:+ backslash_n +:+ t.
Proof.
  unfold context_block, dict_get.
  rewrite (lookup_insert_ne _ "document" "filename") by done.
  rewrite (lookup_singleton_ne "text" "filename") by done.
  rewrite (lookup_insert_ne _ "document" "text") by done.
  rewrite lookup_singleton_eq. reflexivity.
Qed.

(** X24.  The context of a turn comes from [format_rag_context], whose
    items have a non-empty label under ["document"] and no ["filename"];
    [_prepare_final_prompt] reads ["filename"], so it heads every block
    of the prompt with [Document: Unknown].  The blocks are joined by
    two backslash-n pairs and followed by the question; with no context
    the prompt is the user prompt itself. *)
Theorem prepare_final_prompt_unknown_labels results user_prompt :
  ∃ texts,
    Forall2 (fun ctx t => ctx !! "text" = Some (PyStr t) ∧
                          truthy (dict_get ctx "document" PyNone) = true)
      (format_rag_context results) texts ∧
    _prepare_final_prompt user_prompt (format_rag_context results)
      = match texts with
        | [] => user_prompt
        | _ => "Context from uploaded documents:" +:+ line_feed +:+
               join (backslash_n +:+ backslash_n)
                 ((fun t => "Document: Unknown" +:+ backslash_n +:+ t) <$> texts) +:+
               line_feed +:+ line_feed +:+ "Question: " +:+ user_prompt
        end.
Proof.
  assert (∃ texts,
            Forall2 (fun ctx t => ctx !! "text" = Some (PyStr t) ∧
                                  truthy (dict_get ctx "document" PyNone) = true)
              (format_rag_context results) texts ∧
            context_block <$> format_rag_context results
              = (fun t => "Document: Unknown" +:+ backslash_n +:+ t) <$> texts)
    as (texts & Hall & Hblocks).
  { pose proof (fun item => format_rag_context_elem results item) as Hitems.
    induction (format_rag_context results) as [|item l IH].
    - exists []. split; [constructor|done].
    - destruct IH as (texts & Hall & Hblocks).
      { intros it Hit. apply Hitems. by right. }
      destruct (Hitems item) as (label & t & -> & Hlabel); [by left|].
      exists (t :: texts). split.
      + constructor; [|done]. split.
        * rewrite lookup_insert_ne by done. by rewrite lookup_singleton_eq.
        * unfold dict_get. by rewrite lookup_insert_eq.
      + by rewrite !fmap_cons, Hblocks, context_block_item. }
  exists texts. split; [done|]. unfold _prepare_final_prompt.
  destruct Hall as [|ctx t l texts _ _]; [done|]. by rewrite Hblocks.
Qed.

Context {F : Type} (be : backends F) (llm : model).
Context (validate : string → pyval → pyval → pyval → pyval → exc CitationModel).
Context (new_oid : nat → string) (max_rag_results : Z).

Lemma alter_last_entry {A} (f : A → A) (h : list A) (e : A) :
  alter f (length (h ++ [e])%list - 1)%nat (h ++ [e])%list = (h ++ [f e])%list.
Proof.
  rewrite length_app. simpl.
  replace (length h + 1 - 1)%nat with (length h + 0)%nat by lia.
  by rewrite alter_app_r.
Qed.

Lemma respond_last t2 (db : chats) chat_id oid chat old last response cits :
  ObjectId chat_id = Ok oid → db !! oid = Some chat →
  conversation_history chat = (old ++ [last])%list →
  ∃ chat' e,
    (add_assistant_response_to_chat validate new_oid t2 db chat_id response cits).1
      = <[oid := chat']> db ∧
    userId chat' = userId chat ∧ title chat' = title chat ∧
    created_at chat' = created_at chat ∧ status chat' = status chat ∧
    conversation_history chat' = (old ++ [e])%list ∧
    timestamp e = timestamp last ∧ user e = user last ∧ uploads e = uploads last ∧
    match citation_models_of validate new_oid cits with
    | Ok cms => assistant e = response ∧ citations e = cms
    | Raise _ => assistant e = assistant last ∧ citations e = citations last
    end.
Proof.
  intros Hoid Hdb Hh. unfold add_assistant_response_to_chat, add_assistant_response_try.
  change (match cits with
          | None | Some [] => mret []
          | Some cs => citation_models validate new_oid 0 cs
          end) with (citation_models_of validate new_oid cits).
  destruct (citation_models_of validate new_oid cits) as [cms|err];
    cbv [mbind exc_bind mret exc_ret].
  2:{ exists chat, last. cbn [fst]. by rewrite insert_id. }
  rewrite Hoid, Hdb.
  destruct (conversation_history chat) as [|x l] eqn:Hc; [by destruct old|]. rewrite <- Hc.
  rewrite Hh in Hc. unfold updated_chat. rewrite !Hc, alter_last_entry.
  destruct (decide _) as [Heq|Hne]; cbn [fst].
  - exists chat, (set_response response cms last). rewrite insert_id by done.
    pose proof (f_equal conversation_history Heq) as Hhist.
    cbn [conversation_history] in Hhist. do 5 (split; [done|]). done.
  - eexists _, (set_response response cms last). split; [done|]. done.
Qed.

Lemma respond_unknown t2 (db : chats) chat_id response cits :
  get_chat db chat_id = None →
  (add_assistant_response_to_chat validate new_oid t2 db chat_id response cits).1 = db.
Proof.
  unfold get_chat, add_assistant_response_to_chat, add_assistant_response_try.
  destruct (match cits with
            | None | Some [] => mret []
            | Some cs => citation_models validate new_oid 0 cs
            end) as [cms|err]; cbv [mbind exc_bind mret exc_ret option_bind]; [|done].
  destruct (ObjectId chat_id) as [oid|]; [|done].
  destruct (db !! oid); done.
Qed.

Lemma respond_after_prompt t1 t2 (db : chats) chat_id oid chat user_prompt response cits :
  get_chat db chat_id = Some (oid, chat) →
  ∃ chat' e,
    (add_assistant_response_to_chat validate new_oid t2
       (add_prompt_to_chat t1 db chat_id user_prompt).1 chat_id response cits).1
      = <[oid := chat']> db ∧
    userId chat' = userId chat ∧ title chat' = title chat ∧
    created_at chat' = created_at chat ∧ status chat' = status chat ∧
    conversation_history chat' = (conversation_history chat ++ [e])%list ∧
    timestamp e = t1 ∧ user e = user_prompt ∧ uploads e = [] ∧
    match citation_models_of validate new_oid cits with
    | Ok cms => assistant e = response ∧ citations e = cms
    | Raise _ => assistant e = "" ∧ citations e = []
    end.
Proof.
  intros [Hoid Hdb]%get_chat_Some. unfold add_prompt_to_chat. rewrite Hoid, Hdb. cbn [fst].
  edestruct (respond_last t2) as (chat' & e & -> & ? & ? & ? & ? & ? & ? & ? & ? & ?);
    [exact Hoid|apply lookup_insert_eq|reflexivity|].
  exists chat', e. rewrite insert_insert_eq. done.
Qed.

Lemma extract_citations_length rag_context response :
  (length (extract_citations_from_context rag_context response) ≤ length rag_context)%nat.
Proof.
  unfold extract_citations_from_context.
  destruct (cite_items 0 rag_context response []) as [out|] eqn:Hc; [|simpl; lia].
  apply cite_items_indices in Hc as (new & js & -> & Hsub & Hall). simpl.
  rewrite (Forall2_length _ _ _ Hall). apply sublist_length in Hsub.
  by rewrite length_seq in Hsub.
Qed.

(** X25.  For a chat that [get_chat] finds, a user id that is absent,
    empty or the owner's, and a configured model, [process_chat_prompt]
    returns a response for the chat with at most one citation per
    context item, and the stored chat has exactly one entry more, which
    holds the prompt.  The entry holds the returned response and the
    validated citations; when the validation of the citations raises,
    the response is still returned but the stored entry keeps an empty
    assistant text. *)
Theorem process_chat_prompt_stores_turn t1 t2 (w : world F) (db : chats)
    chat_id user_prompt user_id oid chat :
  get_chat db chat_id = Some (oid, chat) →
  (∀ u, user_id = Some u → u = "" ∨ u = userId chat) →
  runnable llm = Ok tt →
  ∃ r chat' e,
    process_chat_prompt be llm validate new_oid max_rag_results t1 t2 w db
      chat_id user_prompt user_id = (<[oid := chat']> db, Ok r) ∧
    fr_chatId r = chat_id ∧
    (fr_response r = apology_unavailable ∨
     ∃ input, invoke llm chat_id input = Ok (fr_response r)) ∧
    (length (fr_citations r) ≤ fr_contextUsed r)%nat ∧
    userId chat' = userId chat ∧
    conversation_history chat' = (conversation_history chat ++ [e])%list ∧
    timestamp e = t1 ∧ user e = user_prompt ∧ uploads e = [] ∧
    match citation_models_of validate new_oid (Some (fr_citations r)) with
    | Ok cms => assistant e = fr_response r ∧ citations e = cms
    | Raise _ => assistant e = "" ∧ citations e = []
    end.
Proof.
  intros Hchat Huser Hrun. unfold process_chat_prompt, process_chat_prompt_try.
  rewrite Hchat.
  assert (match user_id with
          | Some u => truthy (PyStr u) && negb (String.eqb (userId chat) u)
          | None => false
          end = false) as ->.
  { destruct user_id as [u|]; [|done]. destruct (Huser u eq_refl) as [->| ->]; [done|].
    by rewrite String.eqb_refl, andb_false_r. }
  rewrite Hrun.
  set (ctx := format_rag_context
                (Some (_retrieve_relevant_context be max_rag_results w chat_id user_prompt))).
  set (response := _generate_langchain_response llm chat_id
                     (_prepare_final_prompt user_prompt ctx)).
  destruct (respond_after_prompt t1 t2 db chat_id oid chat user_prompt response
              (Some (extract_citations_from_context ctx response)) Hchat)
    as (chat' & e & -> & ? & _ & _ & _ & ? & ? & ? & ? & ?).
  eexists _, chat', e. split; [done|]. cbn [fr_chatId fr_response fr_citations fr_contextUsed].
  split; [done|]. split.
  { subst response. unfold _generate_langchain_response.
    destruct (invoke llm chat_id _) eqn:Hinv; [right; eauto|by left]. }
  split; [apply extract_citations_length|]. done.
Qed.

(** X26.  For a chat id that [get_chat] does not find,
    [process_chat_prompt] raises [Chat not found] and the handler's
    attempt to store the apology changes nothing. *)
Theorem process_chat_prompt_unknown_chat t1 t2 (w : world F) (db : chats)
    chat_id user_prompt user_id :
  get_chat db chat_id = None →
  process_chat_prompt be llm validate new_oid max_rag_results t1 t2 w db
    chat_id user_prompt user_id = (db, Raise ("Chat not found: " +:+ chat_id)).
Proof.
  intros Hchat. unfold process_chat_prompt, process_chat_prompt_try. rewrite Hchat.
  by rewrite respond_unknown.
Qed.

(** X27.  A request under a non-empty user id that is not the owner's
    is rejected with [User ID does not match chat owner], and no prompt
    is stored; but the handler stores the apology in the chat of the
    owner: the assistant text and the citations of its last entry,
    whatever they were, are replaced by the apology and the empty list. *)
Theorem process_chat_prompt_owner_mismatch t1 t2 (w : world F) (db : chats)
    chat_id user_prompt u oid chat old last :
  get_chat db chat_id = Some (oid, chat) →
  u ≠ "" → userId chat ≠ u →
  conversation_history chat = (old ++ [last])%list →
  ∃ chat',
    process_chat_prompt be llm validate new_oid max_rag_results t1 t2 w db
      chat_id user_prompt (Some u)
      = (<[oid := chat']> db, Raise "User ID does not match chat owner") ∧
    userId chat' = userId chat ∧
    conversation_history chat'
      = (old ++ [ {| timestamp := timestamp last; user := user last;
                     assistant := apology_error; uploads := uploads last;
                     citations := [] |} ])%list.
Proof.
  intros Hchat Hu Hne Hh. unfold process_chat_prompt, process_chat_prompt_try.
  rewrite Hchat.
  assert (truthy (PyStr u) && negb (String.eqb (userId chat) u) = true) as ->.
  { simpl. apply andb_true_intro. split; apply negb_true_iff; by apply String.eqb_neq. }
  apply get_chat_Some in Hchat as [Hoid Hdb].
  destruct (respond_last t2 db chat_id oid chat old last apology_error (Some []) Hoid Hdb Hh)
    as (chat' & e & -> & ? & _ & _ & _ & Hhist & ? & ? & ? & [? ?]).
  exists chat'. split; [done|]. split; [done|]. rewrite Hhist.
  destruct e; simpl in *; congruence.
Qed.

(** X28.  When no language model is configured, the prompt has been
    stored by the time the exception is raised, and the handler
    completes its entry with the apology: the exception is passed on and
    the chat has one entry more, with the prompt and the apology. *)
Theorem process_chat_prompt_no_model t1 t2 (w : world F) (db : chats)
    chat_id user_prompt oid chat err :
  get_chat db chat_id = Some (oid, chat) →
  runnable llm = Raise err →
  ∃ chat',
    process_chat_prompt be llm validate new_oid max_rag_results t1 t2 w db
      chat_id user_prompt None = (<[oid := chat']> db, Raise err) ∧
    userId chat' = userId chat ∧
    conversation_history chat'
      = (conversation_history chat ++
         [ {| timestamp := t1; user := user_prompt; assistant := apology_error;
              uploads := []; citations := [] |} ])%list.
Proof.
  intros Hchat Hrun. unfold process_chat_prompt, process_chat_prompt_try.
  rewrite Hchat, Hrun.
  destruct (respond_after_prompt t1 t2 db chat_id oid chat user_prompt apology_error
              (Some []) Hchat)
    as (chat' & e & -> & ? & _ & _ & _ & Hhist & ? & ? & ? & [? ?]).
  exists chat'. split; [done|]. split; [done|]. rewrite Hhist.
  destruct e; simpl in *; congruence.
Qed.

End TurnMore.

Section TurnExamples.
Import ChromaUtils LLMContextFormatter LangChainChatbotService ChatUtils ChatStore ChatbotFlow.

Lemma process_chat_prompt_stores_turn_witness :
  ∃ r chat',
    sample_turn echo_model [entry "q1" "a1"] None
      = (<[ "64f1c0ffee0123456789abcd" := chat' ]> (sample_chats [entry "q1" "a1"]), Ok r) ∧
    fr_chatId r = "64f1c0ffee0123456789abcd" ∧
    (user <$> conversation_history chat') = ["q1"; "what is alpha?"].
Proof.
  destruct (process_chat_prompt_stores_turn Sample.be echo_model sample_validate sample_oid 7
              "2025-01-02T00:00:00" "2025-01-02T00:00:01" stocked_world
              (sample_chats [entry "q1" "a1"]) "64f1c0ffee0123456789abcd" "what is alpha?"
              None "64f1c0ffee0123456789abcd" _ eq_refl)
    as (r & chat' & e & Heq & Hid & _ & _ & _ & Hh & _ & Hu & _).
  - intros u Hu. discriminate Hu.
  - reflexivity.
  - exists r, chat'. split; [exact Heq|]. split; [exact Hid|].
    rewrite Hh, fmap_app. simpl. by rewrite Hu.
Defined.

Lemma process_chat_prompt_unknown_chat_witness :
  get_chat (sample_chats [entry "q1" "a1"]) "not-an-object-id" = None ∧
  process_chat_prompt Sample.be echo_model sample_validate sample_oid 7
    "2025-01-02T00:00:00" "2025-01-02T00:00:01" stocked_world (sample_chats [entry "q1" "a1"])
    "not-an-object-id" "what is alpha?" None
    = (sample_chats [entry "q1" "a1"], Raise "Chat not found: not-an-object-id").
Proof.
  split; [reflexivity|].
  apply (process_chat_prompt_unknown_chat Sample.be echo_model sample_validate sample_oid 7).
  reflexivity.
Defined.

Lemma process_chat_prompt_owner_mismatch_witness :
  ∃ chat',
    sample_turn echo_model [entry "q1" "a1"] (Some "u2")
      = (<[ "64f1c0ffee0123456789abcd" := chat' ]> (sample_chats [entry "q1" "a1"]),
         Raise "User ID does not match chat owner") ∧
    ((fun e => (user e, assistant e)) <$> conversation_history chat')
      = [("q1", apology_error)].
Proof.
  destruct (process_chat_prompt_owner_mismatch Sample.be echo_model sample_validate sample_oid 7
              "2025-01-02T00:00:00" "2025-01-02T00:00:01" stocked_world
              (sample_chats [entry "q1" "a1"]) "64f1c0ffee0123456789abcd" "what is alpha?"
              "u2" "64f1c0ffee0123456789abcd" _ [] (entry "q1" "a1") eq_refl)
    as (chat' & Heq & _ & Hh).
  - discriminate.
  - discriminate.
  - reflexivity.
  - exists chat'. split; [exact Heq|]. by rewrite Hh.
Defined.

Lemma process_chat_prompt_no_model_witness :
  ∃ chat',
    sample_turn unconfigured_model [entry "q1" "a1"] None
      = (<[ "64f1c0ffee0123456789abcd" := chat' ]> (sample_chats [entry "q1" "a1"]),
         Raise "Unsupported LLM provider") ∧
    ((fun e => (user e, assistant e)) <$> conversation_history chat')
      = [("q1", "a1"); ("what is alpha?", apology_error)].
Proof.
  destruct (process_chat_prompt_no_model Sample.be unconfigured_model sample_validate sample_oid 7
              "2025-01-02T00:00:00" "2025-01-02T00:00:01" stocked_world
              (sample_chats [entry "q1" "a1"]) "64f1c0ffee0123456789abcd" "what is alpha?"
              "64f1c0ffee0123456789abcd" _ "Unsupported LLM provider" eq_refl eq_refl)
    as (chat' & Heq & _ & Hh).
  exists chat'. split; [exact Heq|]. by rewrite Hh.
Defined.

End TurnExamples.
